(** * Acquisition tasks of nion.swift.model.HardwareSource

    A shallow embedding of [AcquisitionTask] (the task state machine and its
    partial-frame merge) and of [HardwareSource.__data_elements_changed]
    (the channel publisher), followed by the properties proved about them.

    Conventions of the embedding:
    - a data element is the Python dict the backend delivers; the keys the
      code reads are the fields of [DataElement]; a key that is absent is
      [None];
    - ["data"] is a two-dimensional numpy array of one of numpy's integer
      dtypes: a shape, a dtype and its cells, integers in the range of the
      dtype.  An assignment between arrays converts the values to the dtype
      of the destination as a C cast does, by wrap-around; arrays of
      floating-point numbers are not modelled;
    - integers are Python integers, hence [Z]; slices follow Python's
      [slice.indices], negative bounds included;
    - every delivery is a value of its own: the hardware source does not
      hand out again, or write into, a dict or an array it delivered before;
    - backend hooks may raise; every hook takes and returns the state of the
      hardware source;
    - [Event.fire] (nion.ui) delivers to listeners and never raises into the
      caller; firing is recorded in the log of the world;
    - the pacing of the acquisition loop ([time.time], [time.sleep],
      [__last_acquire_time], [__minimum_period]) and the test-only
      [_test_acquire_hook] (None outside the tests) are left out. *)

From Stdlib Require Import ZArith List String Bool Lia RelationClasses.
Import ListNotations.
Open Scope Z_scope.

(** ** Exceptions and results *)

Inductive exn : Type :=
| AssertionError
| ValueError
| NotImplementedError
| BackendError (msg : string).

Inductive result (A : Type) : Type :=
| Ok (a : A)
| Raise (e : exn).
Arguments Ok {A} a.
Arguments Raise {A} e.

(** ** numpy arrays and slices *)

(** numpy's integer dtypes. *)
Inductive numpy_dtype : Type :=
| int8 | int16 | int32 | int64
| uint8 | uint16 | uint32 | uint64.

(** [dtype.itemsize], in bits. *)
Definition itemsize (t : numpy_dtype) : Z :=
  match t with
  | int8 | uint8 => 8
  | int16 | uint16 => 16
  | int32 | uint32 => 32
  | int64 | uint64 => 64
  end.

Definition is_signed (t : numpy_dtype) : bool :=
  match t with
  | int8 | int16 | int32 | int64 => true
  | uint8 | uint16 | uint32 | uint64 => false
  end.

(** The value an integer takes when it is stored into an array of dtype [t]:
    the C cast numpy applies on assignment, which wraps around modulo
    [2 ^ itemsize t]. *)
Definition astype (t : numpy_dtype) (v : Z) : Z :=
  let m := 2 ^ itemsize t in
  if is_signed t then (v + m / 2) mod m - m / 2 else v mod m.

(** [v] is a value of dtype [t]. *)
Definition representable (t : numpy_dtype) (v : Z) : Prop :=
  if is_signed t
  then - (2 ^ itemsize t / 2) <= v < 2 ^ itemsize t / 2
  else 0 <= v < 2 ^ itemsize t.

Record ndarray : Type := {
  shape : Z * Z;           (* (rows, columns) *)
  dtype : numpy_dtype;
  cell : Z -> Z -> Z       (* meaningful inside the shape *)
}.

(** The cells inside the shape hold values of the dtype, as those of every
    numpy array do. *)
Definition well_formed (a : ndarray) : Prop :=
  forall r c, 0 <= r < fst (shape a) -> 0 <= c < snd (shape a) ->
    representable (dtype a) (cell a r c).

(** One bound of [slice(start, stop).indices(n)] with step 1. *)
Definition slice_bound (i n : Z) : Z :=
  if i <? 0 then Z.max 0 (i + n) else Z.min i n.

(** First index and length selected by [slice(start, stop)] on an axis of
    length [n]. *)
Definition slice_range (start stop n : Z) : Z * Z :=
  let s := slice_bound start n in
  let e := slice_bound stop n in
  (s, Z.max 0 (e - s)).

(** numpy broadcasts a source axis onto a destination axis when the lengths
    agree or the source has length one. *)
Definition broadcastable (src dst : Z) : bool := (src =? dst) || (src =? 1).

(** [dst[y_slice, x_slice] = src[y_slice, x_slice]] with
    [y_slice = slice(y0, y1)] and [x_slice = slice(x0, x1)]: the selected
    block of [src], broadcast if need be, is stored into [dst] with the
    dtype of [dst]. *)
Definition assign_slice (dst src : ndarray) (y0 y1 x0 x1 : Z) : result ndarray :=
  let '(dy, dh) := slice_range y0 y1 (fst (shape dst)) in
  let '(dx, dw) := slice_range x0 x1 (snd (shape dst)) in
  let '(sy, sh) := slice_range y0 y1 (fst (shape src)) in
  let '(sx, sw) := slice_range x0 x1 (snd (shape src)) in
  if broadcastable sh dh && broadcastable sw dw then
    Ok {| shape := shape dst;
          dtype := dtype dst;
          cell := fun r c =>
            if (dy <=? r) && (r <? dy + dh) && (dx <=? c) && (c <? dx + dw)
            then astype (dtype dst)
                        (cell src (sy + (if sh =? 1 then 0 else r - dy))
                                  (sx + (if sw =? 1 then 0 else c - dx)))
            else cell dst r c |}
  else Raise ValueError.

(** ** Data elements *)

(** [((top, left), (height, width))] *)
Definition area : Type := (Z * Z) * (Z * Z).

Record DataElement : Type := {
  data : ndarray;                       (* "data" *)
  sub_area : option area;               (* "sub_area" *)
  state : option string;                (* "state" *)
  properties_frame_index : option Z;    (* "properties"["frame_index"] *)
  channel_id : option string;           (* "channel_id" *)
  channel_name : option string          (* "channel_name" *)
}.

Definition set_data (a : ndarray) (d : DataElement) : DataElement :=
  {| data := a; sub_area := sub_area d; state := state d;
     properties_frame_index := properties_frame_index d;
     channel_id := channel_id d; channel_name := channel_name d |}.

Definition set_sub_area (s : option area) (d : DataElement) : DataElement :=
  {| data := data d; sub_area := s; state := state d;
     properties_frame_index := properties_frame_index d;
     channel_id := channel_id d; channel_name := channel_name d |}.

(** [data_element.setdefault("properties", dict()).setdefault("frame_index", i)] *)
Definition setdefault_frame_index (i : Z) (d : DataElement) : DataElement :=
  {| data := data d; sub_area := sub_area d; state := state d;
     properties_frame_index :=
       match properties_frame_index d with Some j => Some j | None => Some i end;
     channel_id := channel_id d; channel_name := channel_name d |}.

(** [data_element.get("state", "complete")] *)
Definition get_state (d : DataElement) : string :=
  match state d with Some s => s | None => "complete"%string end.

(** [data_element.get("sub_area", ((0, 0), data_element["data"].shape))] *)
Definition get_sub_area (d : DataElement) : area :=
  match sub_area d with Some a => a | None => ((0, 0), shape (data d)) end.

(** ** The merge of one channel (body of the loop of
       [__execute_acquire_data_elements]) *)

Definition merge_data_element (partial_data_element data_element : DataElement)
  : result DataElement :=
  let existing_sub_area := get_sub_area data_element in
  let new_sub_area := get_sub_area partial_data_element in
  let existing_top := fst (fst existing_sub_area) in
  let existing_height := fst (snd existing_sub_area) in
  let existing_left := snd (fst existing_sub_area) in
  let existing_width := snd (snd existing_sub_area) in
  let existing_bottom := existing_top + existing_height in
  let existing_right := existing_left + existing_width in
  let new_top := fst (fst new_sub_area) in
  let new_bottom := new_top + fst (snd new_sub_area) in
  let new_width := snd (snd new_sub_area) in
  if negb (new_top <=? existing_bottom) then Raise AssertionError  (* don't skip sub-areas *)
  else if (new_top >? 0) && negb (new_width =? existing_width)
  then Raise AssertionError                    (* only support full width sub-areas *)
  else if new_top >? 0 then
    match assign_slice (data partial_data_element) (data data_element)
                       existing_top new_top existing_left existing_right with
    | Raise e => Raise e
    | Ok a =>
        Ok (set_sub_area
              (Some ((existing_top, existing_left),
                     (new_bottom - existing_top, existing_width)))
              (set_data a partial_data_element))
    end
  else Ok partial_data_element.

(** The loop over [zip(partial_data_elements, data_elements)]: the partial
    elements are updated in place, in order; the loop stops at the shorter
    list and at the first exception. *)
Fixpoint merge_zip (partial_data_elements data_elements : list DataElement)
  : result (list DataElement) :=
  match partial_data_elements, data_elements with
  | p :: ps, d :: ds =>
      match merge_data_element p d with
      | Raise e => Raise e
      | Ok p' =>
          match merge_zip ps ds with
          | Raise e => Raise e
          | Ok ps' => Ok (p' :: ps')
          end
      end
  | _, _ => Ok partial_data_elements
  end.

(** "merge the data if necessary": seeding when nothing is buffered,
    otherwise the loop; [data_elements = partial_data_elements] is executed
    inside the loop, so an empty delivery leaves the buffered list. *)
Definition merge (buffered : option (list DataElement))
                 (partial_data_elements : list DataElement)
  : result (list DataElement) :=
  match buffered with
  | None | Some [] => Ok partial_data_elements
  | Some data_elements =>
      match merge_zip partial_data_elements data_elements with
      | Raise e => Raise e
      | Ok merged =>
          Ok (match partial_data_elements with
              | [] => data_elements
              | _ :: _ => merged
              end)
      end
  end.

(** "figure out whether all data elements are complete" *)
Definition element_complete (d : DataElement) : bool :=
  match sub_area d with
  | None => true
  | Some _ => String.eqb (get_state d) "complete"
  end.

Definition all_complete (data_elements : list DataElement) : bool :=
  forallb element_complete data_elements.

(** ** Events fired and hooks called *)

Inductive hook : Type :=
| start_hook | abort_hook | suspend_hook | resume_hook
| mark_hook | stop_hook | acquire_hook.

Inductive event : Type :=
| Call (h : hook)
    (* a method of the hardware source was invoked *)
| DataElementsChanged (data_elements : list DataElement)
    (is_continuous : bool) (view_id : string) (is_complete is_stopping : bool)
    (* data_elements_changed_event.fire(...) *)
| FinishedEvent.
    (* finished_event.fire() *)

Definition is_notification (e : event) : bool :=
  match e with Call _ => false | _ => true end.

Definition notifications (l : list event) : list event := filter is_notification l.

(** ** The hardware source: the methods a subclass implements *)

Class HardwareSource (B : Type) : Type := {
  start_acquisition : B -> B * result bool;
  abort_acquisition : B -> B * result unit;
  suspend_acquisition : B -> B * result bool;
  resume_acquisition : B -> B * result unit;
  mark_acquisition : B -> B * result unit;
  stop_acquisition : B -> B * result unit;
  (* [None] is Python's None, which the task asserts against *)
  acquire_data_elements : B -> B * result (option (list DataElement))
}.

(** ** The acquisition task *)

Record AcquisitionTask : Type := {
  hardware_source : bool;      (* truth value of [self.__hardware_source] *)
  started : bool;
  finished : bool;
  is_suspended : bool;
  aborted : bool;
  is_stopping : bool;
  is_continuous : bool;
  frame_index : Z;
  view_id : string;
  data_elements : option (list DataElement)   (* [self.__data_elements] *)
}.

(** [AcquisitionTask.__init__]; [uuid] stands for [str(uuid.uuid4())]. *)
Definition AcquisitionTask_init (has_source : bool) (hardware_source_id uuid : string)
                                (continuous : bool) : AcquisitionTask :=
  {| hardware_source := has_source;
     started := false; finished := false; is_suspended := false;
     aborted := false; is_stopping := false; is_continuous := continuous;
     frame_index := 0;
     view_id := if negb continuous then uuid else hardware_source_id;
     data_elements := None |}.

Definition set_started (v : bool) (t : AcquisitionTask) : AcquisitionTask :=
  {| hardware_source := hardware_source t; started := v; finished := finished t;
     is_suspended := is_suspended t; aborted := aborted t;
     is_stopping := is_stopping t; is_continuous := is_continuous t;
     frame_index := frame_index t; view_id := view_id t;
     data_elements := data_elements t |}.

Definition set_finished (v : bool) (t : AcquisitionTask) : AcquisitionTask :=
  {| hardware_source := hardware_source t; started := started t; finished := v;
     is_suspended := is_suspended t; aborted := aborted t;
     is_stopping := is_stopping t; is_continuous := is_continuous t;
     frame_index := frame_index t; view_id := view_id t;
     data_elements := data_elements t |}.

Definition set_is_suspended (v : bool) (t : AcquisitionTask) : AcquisitionTask :=
  {| hardware_source := hardware_source t; started := started t;
     finished := finished t; is_suspended := v; aborted := aborted t;
     is_stopping := is_stopping t; is_continuous := is_continuous t;
     frame_index := frame_index t; view_id := view_id t;
     data_elements := data_elements t |}.

Definition set_aborted (v : bool) (t : AcquisitionTask) : AcquisitionTask :=
  {| hardware_source := hardware_source t; started := started t;
     finished := finished t; is_suspended := is_suspended t; aborted := v;
     is_stopping := is_stopping t; is_continuous := is_continuous t;
     frame_index := frame_index t; view_id := view_id t;
     data_elements := data_elements t |}.

Definition set_is_stopping (v : bool) (t : AcquisitionTask) : AcquisitionTask :=
  {| hardware_source := hardware_source t; started := started t;
     finished := finished t; is_suspended := is_suspended t;
     aborted := aborted t; is_stopping := v; is_continuous := is_continuous t;
     frame_index := frame_index t; view_id := view_id t;
     data_elements := data_elements t |}.

Definition set_frame_index (v : Z) (t : AcquisitionTask) : AcquisitionTask :=
  {| hardware_source := hardware_source t; started := started t;
     finished := finished t; is_suspended := is_suspended t;
     aborted := aborted t; is_stopping := is_stopping t;
     is_continuous := is_continuous t;
     frame_index := v; view_id := view_id t;
     data_elements := data_elements t |}.

Definition set_data_elements (v : option (list DataElement)) (t : AcquisitionTask)
  : AcquisitionTask :=
  {| hardware_source := hardware_source t; started := started t;
     finished := finished t; is_suspended := is_suspended t;
     aborted := aborted t; is_stopping := is_stopping t;
     is_continuous := is_continuous t;
     frame_index := frame_index t; view_id := view_id t;
     data_elements := v |}.

Section Task.

Context {B : Type}.

(** The world a method runs in: the task object, the hardware source it
    drives and everything fired or called so far. *)
Record world : Type := {
  task : AcquisitionTask;
  source : B;
  log : list event
}.

(** A method: it may change the world, and returns or raises. *)
Definition M (A : Type) : Type := world -> world * result A.

Definition ret {A} (a : A) : M A := fun w => (w, Ok a).

Definition raise {A} (e : exn) : M A := fun w => (w, Raise e).

Definition bind {A C} (c : M A) (k : A -> M C) : M C :=
  fun w => match c w with
           | (w', Ok a) => k a w'
           | (w', Raise e) => (w', Raise e)
           end.

(** [try: c  except Exception as e: h e] *)
Definition try_except {A} (c : M A) (h : exn -> M A) : M A :=
  fun w => match c w with
           | (w', Ok a) => (w', Ok a)
           | (w', Raise e) => h e w'
           end.

(** [try: c  finally: f] *)
Definition try_finally {A} (c : M A) (f : M unit) : M A :=
  fun w => match c w with
           | (w', r) =>
               match f w' with
               | (w'', Ok _) => (w'', r)
               | (w'', Raise e) => (w'', Raise e)
               end
           end.

Definition get_task : M AcquisitionTask := fun w => (w, Ok (task w)).

Definition modify_task (f : AcquisitionTask -> AcquisitionTask) : M unit :=
  fun w => ({| task := f (task w); source := source w; log := log w |}, Ok tt).

Definition fire (e : event) : M unit :=
  fun w => ({| task := task w; source := source w; log := log w ++ [e] |}, Ok tt).

(** A call into the hardware source. *)
Definition call_hook {A} (h : hook) (f : B -> B * result A) : M A :=
  fun w => let (b, r) := f (source w) in
           ({| task := task w; source := b; log := log w ++ [Call h] |}, r).

Definition assert (b : bool) : M unit :=
  if b then ret tt else raise AssertionError.

End Task.

Arguments world : clear implicits.
Arguments M : clear implicits.

Declare Scope task_scope.
Delimit Scope task_scope with task.
Notation "x <- c ;; k" := (bind c (fun x => k))
  (at level 61, c at next level, right associativity) : task_scope.
Notation "c ;; k" := (bind c (fun _ => k))
  (at level 61, right associativity) : task_scope.
Open Scope task_scope.

Section Methods.

Context {B : Type} {HS : HardwareSource B}.

(** *** The overridable routines; the default implementation calls back to
        the hardware source. *)

Definition _start_acquisition : M B bool :=
  modify_task (set_data_elements None) ;;
  t <- get_task ;;
  if hardware_source t then call_hook start_hook start_acquisition else ret true.

Definition _abort_acquisition : M B unit :=
  modify_task (set_data_elements None) ;;
  t <- get_task ;;
  if hardware_source t then call_hook abort_hook abort_acquisition else ret tt.

Definition _suspend_acquisition : M B bool :=
  modify_task (set_data_elements None) ;;
  t <- get_task ;;
  if hardware_source t then call_hook suspend_hook suspend_acquisition else ret false.

Definition _resume_acquisition : M B unit :=
  modify_task (set_data_elements None) ;;
  t <- get_task ;;
  if hardware_source t then call_hook resume_hook resume_acquisition else ret tt.

Definition _mark_acquisition : M B unit :=
  t <- get_task ;;
  if hardware_source t then call_hook mark_hook mark_acquisition else ret tt.

Definition _stop_acquisition : M B unit :=
  modify_task (set_data_elements None) ;;
  t <- get_task ;;
  if hardware_source t then call_hook stop_hook stop_acquisition else ret tt.

Definition _acquire_data_elements : M B (option (list DataElement)) :=
  t <- get_task ;;
  assert (hardware_source t) ;;
  call_hook acquire_hook acquire_data_elements.

(** *** The methods the caller uses *)

Definition __mark_as_finished : M B unit :=
  modify_task (set_finished true) ;;
  t <- get_task ;;
  fire (DataElementsChanged [] (is_continuous t) (view_id t) false (is_stopping t)) ;;
  fire FinishedEvent.

Definition suspend : M B bool :=
  t <- get_task ;;
  if negb (is_suspended t) then
    modify_task (set_is_suspended true) ;;
    _suspend_acquisition
  else ret true.

Definition resume : M B unit := _resume_acquisition.

Definition is_finished (w : world B) : bool := finished (task w).

Definition abort : M B unit := modify_task (set_aborted true).

Definition stop : M B unit :=
  modify_task (set_is_stopping true) ;;
  _mark_acquisition.

Definition __start : M B unit :=
  ok <- _start_acquisition ;;
  (if negb ok then abort else ret tt).

Definition __execute_acquire_data_elements : M B bool :=
  r <- _acquire_data_elements ;;
  match r with
  | None => raise AssertionError   (* assert partial_data_elements is not None *)
  | Some delivered =>
      t <- get_task ;;
      (* update frame_index if not supplied *)
      let partial_data_elements :=
        map (setdefault_frame_index (frame_index t)) delivered in
      (* merge the data if necessary *)
      match merge (data_elements t) partial_data_elements with
      | Raise e => raise e
      | Ok data_elements =>
          (* figure out whether all data elements are complete *)
          let complete := all_complete data_elements in
          (* notify that data elements have changed *)
          fire (DataElementsChanged data_elements (is_continuous t) (view_id t)
                                    complete (is_stopping t)) ;;
          (if complete
           then modify_task (fun t => set_frame_index (frame_index t + 1) t)
           else modify_task (set_data_elements (Some data_elements))) ;;
          ret complete
      end
  end.

(** [execute], one top-level statement of the source at a time. *)

(** "first start the task" *)
Definition start_if_needed : M B unit :=
  t <- get_task ;;
  if negb (started t) then
    try_except __start (fun e => __mark_as_finished ;; raise e) ;;
    modify_task (set_started true)
  else ret tt.

Definition resume_if_suspended : M B unit :=
  t <- get_task ;;
  if is_suspended t then
    try_finally resume (modify_task (set_is_suspended false))
  else ret tt.

Definition step_unless_finished : M B unit :=
  t <- get_task ;;
  if negb (finished t) then
    try_except
      (t <- get_task ;;
       if aborted t then
         _abort_acquisition ;;
         _mark_acquisition ;;
         _stop_acquisition ;;
         __mark_as_finished
       else
         complete <- __execute_acquire_data_elements ;;
         t <- get_task ;;
         if complete && (is_stopping t || negb (is_continuous t)) then
           _stop_acquisition ;;
           __mark_as_finished
         else ret tt)
      (fun e => __mark_as_finished ;; raise e)
  else ret tt.

Definition execute : M B unit :=
  start_if_needed ;;
  resume_if_suspended ;;
  step_unless_finished.

End Methods.

(** ** Calls made by the owner of a task *)

Inductive call : Type :=
| CallExecute | CallSuspend | CallResume | CallStop | CallAbort.

Section Calls.

Context {B : Type} {HS : HardwareSource B}.

(** The world after one call; an exception raised by the call is left to the
    caller, which goes on with the next call. *)
Definition perform (c : call) (w : world B) : world B :=
  match c with
  | CallExecute => fst (execute w)
  | CallSuspend => fst (suspend w)
  | CallResume => fst (resume w)
  | CallStop => fst (stop w)
  | CallAbort => fst (abort w)
  end.

Definition perform_all (cs : list call) (w : world B) : world B :=
  fold_left (fun w c => perform c w) cs w.

End Calls.

(** Number of data-changed notifications in a log that announce a complete
    frame. *)
Fixpoint completed_frames (l : list event) : Z :=
  match l with
  | [] => 0
  | DataElementsChanged _ _ _ true _ :: l' => 1 + completed_frames l'
  | _ :: l' => completed_frames l'
  end.

(** ** The channel publisher: [HardwareSource.__data_elements_changed] *)

Section Publisher.

(** [DataAndMetadata] and the calibration classes it is built from belong to
    modules outside this file; the conversion is taken as given. *)
Variable DataAndMetadata : Type.
Variable convert_data_element_to_data_and_metadata : DataElement -> DataAndMetadata.

Record ChannelData : Type := {
  cd_channel_id : option string;
  cd_index : nat;
  cd_name : option string;
  cd_data_and_calibration : DataAndMetadata;
  cd_state : string;
  cd_sub_area : option area
}.

Inductive published : Type :=
| ChannelsDataUpdated (view_id : string) (is_recording : bool)
                      (channels_data : list ChannelData)
| DataElementsAvailable (data_elements : list DataElement).

(** Body of the loop over [enumerate(data_elements)]. *)
Definition channel_data_of (channel_index : nat) (data_element : DataElement)
                           (is_stopping : bool) : ChannelData :=
  let channel_state := get_state data_element in
  let channel_state :=
    if negb (String.eqb channel_state "complete") && is_stopping
    then "marked"%string else channel_state in
  {| cd_channel_id := channel_id data_element;
     cd_index := channel_index;
     cd_name := channel_name data_element;
     cd_data_and_calibration := convert_data_element_to_data_and_metadata data_element;
     cd_state := channel_state;
     cd_sub_area := sub_area data_element |}.

Fixpoint channels_data_from (channel_index : nat) (data_elements : list DataElement)
                            (is_stopping : bool) : list ChannelData :=
  match data_elements with
  | [] => []
  | data_element :: rest =>
      channel_data_of channel_index data_element is_stopping
        :: channels_data_from (S channel_index) rest is_stopping
  end.

Definition __data_elements_changed (data_elements : list DataElement)
    (is_continuous : bool) (view_id : string) (is_complete is_stopping : bool)
  : list published :=
  let channels_data := channels_data_from 0 data_elements is_stopping in
  ChannelsDataUpdated view_id (negb is_continuous) channels_data
    :: (if is_complete then [DataElementsAvailable data_elements] else []).

End Publisher.

Arguments cd_channel_id {DataAndMetadata} _.
Arguments cd_index {DataAndMetadata} _.
Arguments cd_name {DataAndMetadata} _.
Arguments cd_data_and_calibration {DataAndMetadata} _.
Arguments cd_state {DataAndMetadata} _.
Arguments cd_sub_area {DataAndMetadata} _.
Arguments ChannelsDataUpdated {DataAndMetadata} _ _ _.
Arguments DataElementsAvailable {DataAndMetadata} _.

(** ** Two hardware sources to run the model on *)

(** The base class [HardwareSource]: starting succeeds, suspending reports
    False, acquiring is left to subclasses. *)
#[export] Instance BaseHardwareSource : HardwareSource unit := {|
  start_acquisition := fun b => (b, Ok true);
  abort_acquisition := fun b => (b, Ok tt);
  suspend_acquisition := fun b => (b, Ok false);
  resume_acquisition := fun b => (b, Ok tt);
  mark_acquisition := fun b => (b, Ok tt);
  stop_acquisition := fun b => (b, Ok tt);
  acquire_data_elements := fun b => (b, Raise NotImplementedError)
|}.

(** A subclass that answers from a script: fixed answers for the hooks, and
    a list of deliveries, its state, handed out one per acquisition. *)
Record answers : Type := {
  on_start : result bool;
  on_abort : result unit;
  on_suspend : result bool;
  on_resume : result unit;
  on_mark : result unit;
  on_stop : result unit
}.

Definition script : Type := list (result (option (list DataElement))).

Definition next_delivery (b : script) : script * result (option (list DataElement)) :=
  match b with
  | [] => (b, Raise NotImplementedError)
  | d :: rest => (rest, d)
  end.

Definition ScriptedHardwareSource (a : answers) : HardwareSource script := {|
  start_acquisition := fun b => (b, on_start a);
  abort_acquisition := fun b => (b, on_abort a);
  suspend_acquisition := fun b => (b, on_suspend a);
  resume_acquisition := fun b => (b, on_resume a);
  mark_acquisition := fun b => (b, on_mark a);
  stop_acquisition := fun b => (b, on_stop a);
  acquire_data_elements := next_delivery
|}.

(** Hooks that all succeed. *)
Definition obliging : answers :=
  {| on_start := Ok true; on_abort := Ok tt; on_suspend := Ok true;
     on_resume := Ok tt; on_mark := Ok tt; on_stop := Ok tt |}.

(** Hooks that succeed, except that starting reports [r]. *)
Definition starting (r : result bool) : answers :=
  {| on_start := r; on_abort := Ok tt; on_suspend := Ok true;
     on_resume := Ok tt; on_mark := Ok tt; on_stop := Ok tt |}.

(** A frame of dtype [t] and of [rows] x [columns] whose cells all hold
    [v]. *)
Definition frame_of (t : numpy_dtype) (rows columns v : Z) : ndarray :=
  {| shape := (rows, columns); dtype := t; cell := fun _ _ => astype t v |}.

(** The same with numpy's default integer dtype. *)
Definition frame (rows columns v : Z) : ndarray := frame_of int64 rows columns v.

(** A delivery of one channel covering [a] of [image], in state [s]. *)
Definition band (image : ndarray) (a : area) (s : string) : DataElement :=
  {| data := image; sub_area := Some a; state := Some s;
     properties_frame_index := None; channel_id := None; channel_name := None |}.

Definition view_task : AcquisitionTask :=
  AcquisitionTask_init true "source" "5a1e" true.

Definition record_task : AcquisitionTask :=
  AcquisitionTask_init true "source" "5a1e" false.

Definition new_world {B : Type} (t : AcquisitionTask) (b : B) : world B :=
  {| task := t; source := b; log := [] |}.

(** ** Worlds used as examples *)

Definition buffered_band : DataElement :=
  band (frame 16 20 1) ((0, 0), (10, 20)) "partial".

Definition next_band : DataElement :=
  band (frame 16 20 2) ((10, 0), (6, 20)) "complete".

(** A started view task that buffers [d] while its source is about to
    deliver [p]. *)
Definition mid_frame (d p : DataElement) : world script :=
  {| task := set_data_elements (Some [d]) (set_started true view_task);
     source := [Ok (Some [p])];
     log := [] |}.

(** A started view task, asked to stop, that buffers [d] while its source is
    about to deliver [p]. *)
Definition stopping_mid_frame (d p : DataElement) : world script :=
  {| task := set_is_stopping true (task (mid_frame d p));
     source := source (mid_frame d p);
     log := [] |}.

Definition middle_band : DataElement :=
  band (frame 16 20 2) ((10, 0), (4, 20)) "partial".

(** A view task that was suspended before it ran, as when it is started
    while a record task holds the source. *)
Definition suspended_world : world script :=
  {| task := set_is_suspended true (set_started true view_task);
     source := [Ok (Some [buffered_band])];
     log := [] |}.

Definition whole_frame : DataElement :=
  band (frame 16 20 2) ((0, 0), (16, 20)) "complete".

(** A record task after the one step that completes its frame. *)
Definition recorded : world script :=
  @perform _ (ScriptedHardwareSource obliging) CallExecute
    (new_world record_task [Ok (Some [whole_frame])]).

(** A view task after an [execute] whose start hook raised. *)
Definition failed_to_start : world script :=
  @perform _ (ScriptedHardwareSource (starting (Raise (BackendError "no camera"))))
    CallExecute (new_world view_task []).

(** ** Relations between the world before and after a method *)

Definition flags (t : AcquisitionTask) : bool * bool * bool * bool * bool * bool :=
  (hardware_source t, started t, finished t, aborted t, is_stopping t, is_continuous t).

Section Relations.

Context {B : Type}.

(** [stable R c]: running [c] relates every world to the world it leaves,
    whether [c] returns or raises. *)
Definition stable {A} (R : world B -> world B -> Prop) (c : M B A) : Prop :=
  forall w, R w (fst (c w)).

(** Frames accounted for: the log grows, and the frame index grows by the
    number of complete frames announced. *)
Definition frames_accounted (w w' : world B) : Prop :=
  exists evs, log w' = log w ++ evs /\
              frame_index (task w') = frame_index (task w) + completed_frames evs.

(** Finished is never undone. *)
Definition stays_finished (w w' : world B) : Prop :=
  finished (task w) = true -> finished (task w') = true.

(** The suspended flag is kept and the log only grows. *)
Definition keeps_suspended (w w' : world B) : Prop :=
  is_suspended (task w') = is_suspended (task w) /\
  exists evs, log w' = log w ++ evs.

(** The flags of the state machine, the suspended flag apart, and the view
    id are kept. *)
Definition keeps_flags (w w' : world B) : Prop :=
  flags (task w') = flags (task w) /\ view_id (task w') = view_id (task w).

(** On a task that is started and finished, nothing is notified and the task
    stays started and finished. *)
Definition quiet (w w' : world B) : Prop :=
  started (task w) = true -> finished (task w) = true ->
  started (task w') = true /\ finished (task w') = true /\
  notifications (log w') = notifications (log w).

(** A hook that returns, whatever the state of the hardware source. *)
Definition returns {A} (f : B -> B * result A) : Prop :=
  forall b, exists b' a, f b = (b', Ok a).

End Relations.

(** * The rest of the module *)

(** ** Counting notifications *)

(** Number of finished notifications in a log. *)
Fixpoint finished_notifications (l : list event) : Z :=
  match l with
  | [] => 0
  | FinishedEvent :: l' => 1 + finished_notifications l'
  | _ :: l' => finished_notifications l'
  end.

Definition Z_of_bool (b : bool) : Z := if b then 1 else 0.

(** ** The worker of a hardware source: [HardwareSource.__acquire_thread_loop]
       and the methods that install, stop and abort tasks

    One pass of the loop is modelled as it runs on the worker thread, with
    no other thread touching the tasks meanwhile.  A task created by the
    hardware source calls back into that same hardware source, so all tasks
    share the state [device] of the subclass. *)

Inductive task_id : Type := idle | view | record.

Definition task_id_eqb (a b : task_id) : bool :=
  match a, b with
  | idle, idle | view, view | record, record => true
  | _, _ => false
  end.

Inductive source_event : Type :=
| TaskEvent (id : task_id) (e : event)
    (* the task installed as [id] called a hook or fired an event; its
       data-changed events reach [__data_elements_changed] *)
| AbortEvent
    (* abort_event.fire() *)
| AcquisitionStateChanged (is_acquiring : bool).
    (* acquisition_state_changed_event.fire(is_acquiring) *)

Definition is_task_notification (e : source_event) : bool :=
  match e with TaskEvent _ e => is_notification e | _ => false end.

Definition event_task (e : source_event) : option task_id :=
  match e with TaskEvent id _ => Some id | _ => None end.

Section Worker.

Context {B : Type} {HS : HardwareSource B}.

Record HardwareSourceState : Type := {
  hardware_source_id : string;
  tasks : task_id -> option AcquisitionTask;     (* self.__tasks *)
  acquire_thread_break : bool;
  acquire_thread_trigger : bool;
  device : B;
  events : list source_event
}.

Definition set_tasks (f : task_id -> option AcquisitionTask) (s : HardwareSourceState)
  : HardwareSourceState :=
  {| hardware_source_id := hardware_source_id s; tasks := f;
     acquire_thread_break := acquire_thread_break s;
     acquire_thread_trigger := acquire_thread_trigger s;
     device := device s; events := events s |}.

Definition set_break (v : bool) (s : HardwareSourceState) : HardwareSourceState :=
  {| hardware_source_id := hardware_source_id s; tasks := tasks s;
     acquire_thread_break := v;
     acquire_thread_trigger := acquire_thread_trigger s;
     device := device s; events := events s |}.

Definition set_trigger (v : bool) (s : HardwareSourceState) : HardwareSourceState :=
  {| hardware_source_id := hardware_source_id s; tasks := tasks s;
     acquire_thread_break := acquire_thread_break s;
     acquire_thread_trigger := v;
     device := device s; events := events s |}.

Definition fire_source (e : source_event) (s : HardwareSourceState)
  : HardwareSourceState :=
  {| hardware_source_id := hardware_source_id s; tasks := tasks s;
     acquire_thread_break := acquire_thread_break s;
     acquire_thread_trigger := acquire_thread_trigger s;
     device := device s; events := events s ++ [e] |}.

(** [self.__tasks[id] = v] and [del self.__tasks[id]] *)
Definition update (id : task_id) (v : option AcquisitionTask)
                  (f : task_id -> option AcquisitionTask)
  : task_id -> option AcquisitionTask :=
  fun k => if task_id_eqb k id then v else f k.

(** A method [c] of the task [t] installed as [id]: it runs on the shared
    device, and what it calls and fires is recorded under [id]. *)
Definition run_task {A} (id : task_id) (t : AcquisitionTask) (c : M B A)
                    (s : HardwareSourceState) : HardwareSourceState * result A :=
  let (w, r) := c {| task := t; source := device s; log := [] |} in
  ({| hardware_source_id := hardware_source_id s;
      tasks := update id (Some (task w)) (tasks s);
      acquire_thread_break := acquire_thread_break s;
      acquire_thread_trigger := acquire_thread_trigger s;
      device := source w;
      events := events s ++ map (TaskEvent id) (log w) |}, r).

(** [task_id in self.__tasks]; also the truth value of
    [self.__tasks.get(task_id)], a task object being true. *)
Definition is_task_running (id : task_id) (s : HardwareSourceState) : bool :=
  match tasks s id with Some _ => true | None => false end.

(** "record task gets highest priority": the task to run and the tasks to
    suspend.  The list is appended to for view and again for record. *)
Definition select_task (s : HardwareSourceState) : option task_id * list task_id :=
  let task_id := None in
  let suspend_task_id_list := [] in
  let task_id := if is_task_running idle s then Some idle else task_id in
  let '(task_id, suspend_task_id_list) :=
    if is_task_running view s then (Some view, suspend_task_id_list ++ [idle])
    else (task_id, suspend_task_id_list) in
  if is_task_running record s then (Some record, suspend_task_id_list ++ [idle; view])
  else (task_id, suspend_task_id_list).

(** [for suspend_task_id in suspend_task_id_list: ...] *)
Fixpoint suspend_tasks (ids : list task_id) (s : HardwareSourceState)
  : HardwareSourceState * result unit :=
  match ids with
  | [] => (s, Ok tt)
  | id :: rest =>
      match tasks s id with
      | Some suspend_task =>
          match run_task id suspend_task suspend s with
          | (s', Ok _) => suspend_tasks rest s'
          | (s', Raise e) => (s', Raise e)
          end
      | None => suspend_tasks rest s
      end
  end.

(** [task.abort(); self.abort_event.fire()] on the task installed as [id] *)
Definition abort_and_notify (id : task_id) (s : HardwareSourceState)
  : HardwareSourceState :=
  match tasks s id with
  | Some t => fire_source AbortEvent (fst (run_task id t abort s))
  | None => s
  end.

(** The body of the [try] of the loop. *)
Definition suspend_and_execute (ids : list task_id) (id : task_id)
                               (s : HardwareSourceState)
  : HardwareSourceState * result unit :=
  match suspend_tasks ids s with
  | (s', Ok _) =>
      match tasks s' id with
      | Some t => run_task id t execute s'
      | None => (s', Ok tt)
      end
  | (s', Raise e) => (s', Raise e)
  end.

(** [if task.is_finished: del self.__tasks[task_id]; ...] *)
Definition remove_if_finished (id : task_id) (s : HardwareSourceState)
  : HardwareSourceState :=
  match tasks s id with
  | Some t =>
      if finished t
      then fire_source (AcquisitionStateChanged false)
             (set_tasks (update id None (tasks s)) s)
      else s
  | None => s
  end.

(** One iteration of [while self.__acquire_thread_trigger.wait()], entered
    with the trigger set; the boolean tells whether the loop is left. *)
Definition acquire_thread_pass (s : HardwareSourceState)
  : HardwareSourceState * bool :=
  let s := set_trigger false s in
  let acquire_thread_break := acquire_thread_break s in
  let (task_id, suspend_task_id_list) := select_task s in
  let s :=
    match task_id with
    | Some id =>
        if acquire_thread_break then abort_and_notify id s
        else
          let (s, r) := suspend_and_execute suspend_task_id_list id s in
          let s := match r with
                   | Ok _ => s
                   | Raise _ => abort_and_notify id s
                   end in
          let s := remove_if_finished id s in
          set_trigger true s
    | None => s
    end in
  (s, acquire_thread_break).

(** *** The methods called from other threads.  The trigger they set wakes
        the worker. *)

(** [start_task]; [t] is a task object that is not installed yet, as are the
    tasks that [start_playing] and [start_recording] create, so that the
    first assertion holds; the last one holds by the type of [id]. *)
Definition start_task (id : task_id) (t : AcquisitionTask) (s : HardwareSourceState)
  : HardwareSourceState * result unit :=
  if is_task_running id s then (s, Raise AssertionError)
  else (fire_source (AcquisitionStateChanged true)
          (set_trigger true (set_tasks (update id (Some t) (tasks s)) s)),
        Ok tt).

Definition abort_task (id : task_id) (s : HardwareSourceState)
  : HardwareSourceState * result unit :=
  match tasks s id with
  | None => (s, Raise AssertionError)
  | Some t => (fire_source AbortEvent (fst (run_task id t abort s)), Ok tt)
  end.

Definition stop_task (id : task_id) (s : HardwareSourceState)
  : HardwareSourceState * result unit :=
  match tasks s id with
  | None => (s, Raise AssertionError)
  | Some t => run_task id t stop s
  end.

Definition is_playing (s : HardwareSourceState) : bool := is_task_running view s.

Definition start_playing (s : HardwareSourceState)
  : HardwareSourceState * result unit :=
  if negb (is_playing s) then
    let view_task := AcquisitionTask_init true (hardware_source_id s) "" true in
    start_task view view_task s
  else (s, Ok tt).

Definition abort_playing (s : HardwareSourceState)
  : HardwareSourceState * result unit :=
  if is_playing s then abort_task view s else (s, Ok tt).

Definition stop_playing (s : HardwareSourceState)
  : HardwareSourceState * result unit :=
  if is_playing s then stop_task view s else (s, Ok tt).

Definition is_recording (s : HardwareSourceState) : bool := is_task_running record s.

(** [uuid] stands for the [str(uuid.uuid4())] drawn by the new task. *)
Definition start_recording (uuid : string) (s : HardwareSourceState)
  : HardwareSourceState * result unit :=
  if negb (is_recording s) then
    let record_task := AcquisitionTask_init true (hardware_source_id s) uuid false in
    start_task record record_task s
  else (s, Ok tt).

Definition abort_recording (s : HardwareSourceState)
  : HardwareSourceState * result unit :=
  if is_recording s then abort_task record s else (s, Ok tt).

Definition stop_recording (s : HardwareSourceState)
  : HardwareSourceState * result unit :=
  if is_recording s then stop_task record s else (s, Ok tt).

(** [HardwareSource.__init__], before any task is installed. *)
Definition HardwareSource_init (id : string) (b : B) : HardwareSourceState :=
  {| hardware_source_id := id; tasks := fun _ => None;
     acquire_thread_break := false; acquire_thread_trigger := false;
     device := b; events := [] |}.

End Worker.

Arguments HardwareSourceState : clear implicits.

(** ** The manager of hardware sources: [HardwareSourceManager]

    Of a registered hardware source the manager reads the attribute
    [hardware_source_id]; two registered objects are the same object when
    they are equal.  The alias dict is a list of entries with distinct keys,
    in insertion order.  Instruments are handled by code of the same shape
    and are left out. *)

Record HardwareSourceObject : Type := {
  object_address : nat;             (* tells objects apart *)
  object_hardware_source_id : string;
  object_display_name : string
}.

Definition same_object (a b : HardwareSourceObject) : bool :=
  Nat.eqb (object_address a) (object_address b)
  && String.eqb (object_hardware_source_id a) (object_hardware_source_id b)
  && String.eqb (object_display_name a) (object_display_name b).

Definition alias_dict : Type := list (string * (string * string)).

(** [d.get(k)], [None] when [k not in d] *)
Fixpoint dict_get (k : string) (d : alias_dict) : option (string * string) :=
  match d with
  | [] => None
  | (k', v) :: rest => if String.eqb k k' then Some v else dict_get k rest
  end.

(** [d[k] = v] *)
Fixpoint dict_set (k : string) (v : string * string) (d : alias_dict) : alias_dict :=
  match d with
  | [] => [(k, v)]
  | (k', v') :: rest =>
      if String.eqb k k' then (k, v) :: rest else (k', v') :: dict_set k v rest
  end.

Definition dict_keys (d : alias_dict) : list string := map fst d.

Fixpoint mem (x : string) (l : list string) : bool :=
  match l with
  | [] => false
  | y :: rest => String.eqb x y || mem x rest
  end.

Inductive manager_event : Type :=
| HardwareSourceAdded (h : HardwareSourceObject)
| HardwareSourceRemoved (h : HardwareSourceObject)
| AliasesUpdated.     (* the callbacks of [aliases_updated] are called *)

Record HardwareSourceManager : Type := {
  hardware_sources : list HardwareSourceObject;
  aliases : alias_dict;
  manager_log : list manager_event
}.

(** [__init__] and [_reset] *)
Definition HardwareSourceManager_init : HardwareSourceManager :=
  {| hardware_sources := []; aliases := []; manager_log := [] |}.

Definition register_hardware_source (h : HardwareSourceObject)
    (m : HardwareSourceManager) : HardwareSourceManager :=
  {| hardware_sources := hardware_sources m ++ [h];
     aliases := aliases m;
     manager_log := manager_log m ++ [HardwareSourceAdded h] |}.

(** [list.remove(x)]: the first element equal to [x] goes; [None] stands
    for the ValueError raised when there is none. *)
Fixpoint list_remove (h : HardwareSourceObject) (l : list HardwareSourceObject)
  : option (list HardwareSourceObject) :=
  match l with
  | [] => None
  | x :: rest =>
      if same_object x h then Some rest
      else match list_remove h rest with
           | Some rest' => Some (x :: rest')
           | None => None
           end
  end.

Definition unregister_hardware_source (h : HardwareSourceObject)
    (m : HardwareSourceManager) : result HardwareSourceManager :=
  match list_remove h (hardware_sources m) with
  | None => Raise ValueError
  | Some l =>
      Ok {| hardware_sources := l;
            aliases := aliases m;
            manager_log := manager_log m ++ [HardwareSourceRemoved h] |}
  end.

Definition make_instrument_alias (instrument_id alias_instrument_id display_name : string)
    (m : HardwareSourceManager) : HardwareSourceManager :=
  {| hardware_sources := hardware_sources m;
     aliases := dict_set alias_instrument_id (instrument_id, display_name) (aliases m);
     manager_log := manager_log m ++ [AliasesUpdated] |}.

(** The [while] loop of [__get_info_for_hardware_source_id]; [None] when the
    fuel runs out before the loop is left. *)
Fixpoint follow_aliases (fuel : nat) (d : alias_dict)
    (hardware_source_id display_name : string) (seen_hardware_source_ids : list string)
  : option (string * string) :=
  match dict_get hardware_source_id d with
  | Some (target, name) =>
      if mem hardware_source_id seen_hardware_source_ids
      then Some (hardware_source_id, display_name)
      else match fuel with
           | O => None
           | S fuel' =>
               follow_aliases fuel' d target name
                 (seen_hardware_source_ids ++ [hardware_source_id])
           end
  | None => Some (hardware_source_id, display_name)
  end.

(** [for hardware_source in self.hardware_sources: if ... == id: return ...] *)
Fixpoint find_hardware_source (hardware_source_id : string)
    (l : list HardwareSourceObject) : option HardwareSourceObject :=
  match l with
  | [] => None
  | h :: rest =>
      if String.eqb (object_hardware_source_id h) hardware_source_id then Some h
      else find_hardware_source hardware_source_id rest
  end.

(** [__get_info_for_hardware_source_id]; every turn of the loop adds a key
    of the dict to the ids seen, so as many turns as there are entries
    are enough (lemma [follow_aliases_terminates]). *)
Definition get_info_for_hardware_source_id (hardware_source_id : string)
    (m : HardwareSourceManager) : option (HardwareSourceObject * string) :=
  match follow_aliases (List.length (aliases m)) (aliases m) hardware_source_id "" [] with
  | Some (id, display_name) =>
      match find_hardware_source id (hardware_sources m) with
      | Some h => Some (h, display_name)
      | None => None
      end
  | None => None
  end.

Definition get_hardware_source_for_hardware_source_id (hardware_source_id : string)
    (m : HardwareSourceManager) : option HardwareSourceObject :=
  match get_info_for_hardware_source_id hardware_source_id m with
  | Some (hardware_source, display_name) => Some hardware_source
  | None => None
  end.

(** [get_all_hardware_source_ids]; the Python set is given as a list. *)
Definition get_all_hardware_source_ids (m : HardwareSourceManager) : list string :=
  map object_hardware_source_id (hardware_sources m)
  ++ filter (fun alias =>
               match get_hardware_source_for_hardware_source_id alias m with
               | Some _ => true
               | None => false
               end)
            (dict_keys (aliases m)).

(** ** Further relations between worlds *)

Section MoreRelations.

Context {B : Type}.

(** Mode, stopping flag, view id and hardware source of the task are kept. *)
Definition keeps_mode (w w' : world B) : Prop :=
  is_continuous (task w') = is_continuous (task w) /\
  view_id (task w') = view_id (task w) /\
  is_stopping (task w') = is_stopping (task w) /\
  hardware_source (task w') = hardware_source (task w).

(** The finished notifications fired are as many as the finished flag went
    up. *)
Definition finish_ledger (w w' : world B) : Prop :=
  exists evs, log w' = log w ++ evs /\
              finished_notifications evs
                = Z_of_bool (finished (task w')) - Z_of_bool (finished (task w)).

(** The aborted flag is never taken back. *)
Definition stays_aborted (w w' : world B) : Prop :=
  aborted (task w) = true -> aborted (task w') = true.

(** The started flag is kept. *)
Definition keeps_started (w w' : world B) : Prop :=
  started (task w') = started (task w).

(** The started and the finished flag are kept. *)
Definition keeps_life (w w' : world B) : Prop :=
  started (task w') = started (task w) /\
  finished (task w') = finished (task w).

End MoreRelations.

(** ** What a call does to the frame index *)

Section Deliveries.

Context {B : Type} {HS : HardwareSource B}.

(** The frame index is kept. *)
Definition keeps_frame_index (w w' : world B) : Prop :=
  frame_index (task w') = frame_index (task w).

(** What [execute] does before its step: it starts the task if it is not
    started and resumes it if it is suspended. *)
Definition prepare : M B unit :=
  start_if_needed ;;
  resume_if_suspended.

(** The elements an acquisition step in [w] has to announce: what the
    hardware source delivers next, stamped with the frame index and merged
    with the buffer.  There are none when the task has no hardware source,
    when the hardware source raises or delivers None, and when the merge
    fails. *)
Definition announced (w : world B) : option (list DataElement) :=
  if hardware_source (task w) then
    match snd (acquire_data_elements (source w)) with
    | Ok (Some delivered) =>
        match merge (data_elements (task w))
                    (map (setdefault_frame_index (frame_index (task w))) delivered) with
        | Ok merged => Some merged
        | Raise _ => None
        end
    | _ => None
    end
  else None.

(** An [execute] in [w] gets as far as its acquisition step, and what that
    step has to announce is a complete frame. *)
Definition completes_frame (w : world B) : bool :=
  match prepare w with
  | (w1, Ok _) =>
      negb (finished (task w1)) && negb (aborted (task w1)) &&
      match announced w1 with
      | Some merged => all_complete merged
      | None => false
      end
  | (_, Raise _) => false
  end.

(** Number of the calls [cs], made one after the other from [w] on, that
    are an [execute] completing a frame. *)
Fixpoint complete_deliveries (cs : list call) (w : world B) : Z :=
  match cs with
  | [] => 0
  | c :: cs' =>
      match c with
      | CallExecute => Z_of_bool (completes_frame w)
      | _ => 0
      end + complete_deliveries cs' (perform c w)
  end.

End Deliveries.

(** ** The publisher behind a task *)

(** What the listener [__data_elements_changed] publishes for one event of
    a task. *)
Definition publish (D : Type) (convert : DataElement -> D) (e : event)
  : list (published D) :=
  match e with
  | DataElementsChanged data_elements is_continuous view_id is_complete is_stopping =>
      __data_elements_changed D convert data_elements is_continuous view_id
                              is_complete is_stopping
  | _ => []
  end.

Definition is_available {D : Type} (p : published D) : bool :=
  match p with DataElementsAvailable _ => true | _ => false end.

(** ** More examples *)

Definition top_band : DataElement :=
  band (frame 16 20 3) ((0, 0), (4, 20)) "partial".

(** A started view task that buffers a partial frame. *)
Definition example_partial_world : world script :=
  {| task := set_data_elements (Some [buffered_band]) (set_started true view_task);
     source := [Ok (Some [top_band])];
     log := [] |}.


(** Hooks that succeed, except that resuming reports [r]. *)
Definition resuming (r : result unit) : answers :=
  {| on_start := Ok true; on_abort := Ok tt; on_suspend := Ok true;
     on_resume := r; on_mark := Ok tt; on_stop := Ok tt |}.

(** ** What the worker may do to a task it does not run *)

(** [t'] is [t], or [t] after [suspend]. *)
Definition suspended_version (t t' : AcquisitionTask) : Prop :=
  t' = t \/ t' = set_data_elements None (set_is_suspended true t).

(** The highest-priority slot that holds a task. *)
Definition highest_priority {B : Type} (s : HardwareSourceState B) : option task_id :=
  if is_task_running record s then Some record
  else if is_task_running view s then Some view
  else if is_task_running idle s then Some idle
  else None.

(** No finished task is installed. *)
Definition no_finished_task {B : Type} (s : HardwareSourceState B) : Prop :=
  forall k t, tasks s k = Some t -> finished t = false.

(** Of the installed tasks only the one installed as [id] is touched, and
    every notification recorded comes from it. *)
Definition only_touches {B : Type} (id : task_id) (s s' : HardwareSourceState B)
  : Prop :=
  (forall k, k <> id -> tasks s' k = tasks s k) /\
  exists evs, events s' = events s ++ evs /\
              forall e, In e evs -> is_task_notification e = true ->
                        event_task e = Some id.

(** ** Hardware sources used as examples *)

(** A hardware source on which a started view task buffers [d] while the
    device is about to deliver [p]. *)
Definition playing (d p : DataElement) : HardwareSourceState script :=
  {| hardware_source_id := "source";
     tasks := update view (Some (task (mid_frame d p))) (fun _ => None);
     acquire_thread_break := false;
     acquire_thread_trigger := true;
     device := [Ok (Some [p])];
     events := [] |}.

(** The same with a record task installed besides the view. *)
Definition recording_over_view (d p : DataElement) : HardwareSourceState script :=
  set_tasks (update record (Some record_task) (tasks (playing d p))) (playing d p).

(** A view task that was suspended before it ever ran. *)
Definition suspended_before_start : world script :=
  {| task := set_is_suspended true view_task;
     source := [Ok (Some [whole_frame])];
     log := [] |}.

Definition simple_hardware_source : HardwareSourceObject :=
  {| object_address := 1;
     object_hardware_source_id := "simple_hardware_source";
     object_display_name := "SimpleHardwareSource" |}.

(** * Properties *)

(** ** Stability

    For a reflexive and transitive [R], [stable R c] follows from the
    stability of the primitive steps of [c]. *)

Section Stability.

Context {B : Type} {HS : HardwareSource B}.

Context (R : world B -> world B -> Prop) {R_pre : PreOrder R}.

Lemma stable_ret {A} (a : A) : stable R (ret a).
Proof. intros w. simpl. reflexivity. Qed.

Lemma stable_raise {A} (e : exn) : stable R (@raise B A e).
Proof. intros w. simpl. reflexivity. Qed.

Lemma stable_get_task : stable R get_task.
Proof. intros w. simpl. reflexivity. Qed.

Lemma stable_assert (b : bool) : stable R (assert b).
Proof. destruct b; [apply stable_ret | apply stable_raise]; exact _. Qed.

Lemma stable_bind {A C} (c : M B A) (k : A -> M B C) :
  stable R c -> (forall a, stable R (k a)) -> stable R (bind c k).
Proof.
  intros Hc Hk w. unfold bind.
  specialize (Hc w). destruct (c w) as [w' [a | e]]; simpl in *.
  - transitivity w'; [assumption | apply Hk].
  - assumption.
Qed.

Lemma stable_try_except {A} (c : M B A) (h : exn -> M B A) :
  stable R c -> (forall e, stable R (h e)) -> stable R (try_except c h).
Proof.
  intros Hc Hh w. unfold try_except.
  specialize (Hc w). destruct (c w) as [w' [a | e]]; simpl in *.
  - assumption.
  - transitivity w'; [assumption | apply Hh].
Qed.

Lemma stable_try_finally {A} (c : M B A) (f : M B unit) :
  stable R c -> stable R f -> stable R (try_finally c f).
Proof.
  intros Hc Hf w. unfold try_finally.
  specialize (Hc w). destruct (c w) as [w' r]; simpl in *.
  specialize (Hf w'). destruct (f w') as [w'' [[] | e]]; simpl in *;
    transitivity w'; assumption.
Qed.

End Stability.

Ltac stable_step :=
  match goal with
  | |- stable _ (bind _ _) => apply stable_bind; [exact _ | | intros ?]
  | |- stable _ (try_except _ _) => apply stable_try_except; [exact _ | | intros ?]
  | |- stable _ (try_finally _ _) => apply stable_try_finally; [exact _ | |]
  | |- stable _ (ret _) => apply stable_ret; exact _
  | |- stable _ (raise _) => apply stable_raise; exact _
  | |- stable _ get_task => apply stable_get_task; exact _
  | |- stable _ (assert _) => apply stable_assert; exact _
  | |- stable _ (if ?b then _ else _) => destruct b
  | |- stable _ (match ?x with _ => _ end) => destruct x
  end.

Create HintDb stable discriminated.

Ltac stable_auto := repeat stable_step; auto with stable.

Lemma completed_frames_app (l1 l2 : list event) :
  completed_frames (l1 ++ l2) = completed_frames l1 + completed_frames l2.
Proof.
  induction l1 as [| e l1 IH]; cbn [completed_frames app]; [reflexivity |].
  destruct e as [h | ds c v [|] s |]; rewrite IH; lia.
Qed.

Lemma notifications_app (l1 l2 : list event) :
  notifications (l1 ++ l2) = notifications l1 ++ notifications l2.
Proof. apply filter_app. Qed.

Section Accounting.

Context {B : Type} {HS : HardwareSource B}.

(** *** Frames accounted for *)

#[export] Instance frames_accounted_pre : PreOrder (@frames_accounted B).
Proof.
  split.
  - intros w. exists []. rewrite app_nil_r. simpl. split; [reflexivity | lia].
  - intros a b c [e1 [L1 F1]] [e2 [L2 F2]]. exists (e1 ++ e2).
    rewrite L2, L1, F2, F1, completed_frames_app, app_assoc. split; [reflexivity | lia].
Qed.

Lemma frames_modify (f : AcquisitionTask -> AcquisitionTask) :
  (forall t, frame_index (f t) = frame_index t) ->
  stable (@frames_accounted B) (modify_task f).
Proof.
  intros Hf w. exists []. simpl. rewrite app_nil_r, Hf. split; [reflexivity | lia].
Qed.

Lemma frames_fire (e : event) :
  completed_frames [e] = 0 -> stable (@frames_accounted B) (fire e).
Proof. intros He w. exists [e]. simpl log. simpl task. split; [reflexivity | lia]. Qed.

Lemma frames_call {A} (h : hook) (f : B -> B * result A) :
  stable (@frames_accounted B) (call_hook h f).
Proof.
  intros w. unfold call_hook. destruct (f (source w)) as [b r].
  exists [Call h]. simpl. split; [reflexivity | lia].
Qed.

(** The acquisition step: the index advances exactly when the delivery is
    announced complete. *)
Lemma frames_acquire : stable (@frames_accounted B) __execute_acquire_data_elements.
Proof.
  intros [t b l]. unfold __execute_acquire_data_elements, _acquire_data_elements,
    bind, get_task, assert, call_hook, ret, raise, fire, modify_task. simpl.
  destruct (hardware_source t); simpl.
  2:{ exists []. rewrite app_nil_r. simpl. split; [reflexivity | lia]. }
  destruct (acquire_data_elements b) as [b' [[ds |] | e]]; simpl;
    try (exists [Call acquire_hook]; simpl; split; [reflexivity | lia]).
  destruct (merge (data_elements t) _) as [m | e]; simpl;
    try (exists [Call acquire_hook]; simpl; split; [reflexivity | lia]).
  eexists [Call acquire_hook; DataElementsChanged m _ _ (all_complete m) _].
  rewrite <- app_assoc. simpl.
  destruct (all_complete m); simpl; split; try reflexivity; lia.
Qed.

(** *** Finished is never undone *)

#[export] Instance stays_finished_pre : PreOrder (@stays_finished B).
Proof. split; unfold stays_finished; [intros w | intros a b c]; auto. Qed.

Lemma finished_modify (f : AcquisitionTask -> AcquisitionTask) :
  (forall t, finished t = true -> finished (f t) = true) ->
  stable (@stays_finished B) (modify_task f).
Proof. intros Hf w. exact (Hf (task w)). Qed.

Lemma finished_fire (e : event) : stable (@stays_finished B) (fire e).
Proof. intros w H. exact H. Qed.

Lemma finished_call {A} (h : hook) (f : B -> B * result A) :
  stable (@stays_finished B) (call_hook h f).
Proof. intros w H. unfold call_hook. destruct (f (source w)). exact H. Qed.

(** *** The suspended flag *)

#[export] Instance keeps_suspended_pre : PreOrder (@keeps_suspended B).
Proof.
  split.
  - intros w. split; [reflexivity |]. exists []. now rewrite app_nil_r.
  - intros a b c [S1 [e1 L1]] [S2 [e2 L2]]. split; [congruence |].
    exists (e1 ++ e2). now rewrite L2, L1, app_assoc.
Qed.

Lemma suspended_modify (f : AcquisitionTask -> AcquisitionTask) :
  (forall t, is_suspended (f t) = is_suspended t) ->
  stable (@keeps_suspended B) (modify_task f).
Proof. intros Hf w. split; [apply Hf |]. exists []. simpl. now rewrite app_nil_r. Qed.

Lemma suspended_fire (e : event) : stable (@keeps_suspended B) (fire e).
Proof. intros w. split; [reflexivity |]. now exists [e]. Qed.

Lemma suspended_call {A} (h : hook) (f : B -> B * result A) :
  stable (@keeps_suspended B) (call_hook h f).
Proof.
  intros w. unfold call_hook. destruct (f (source w)).
  split; [reflexivity |]. now exists [Call h].
Qed.

End Accounting.

#[export] Hint Resolve frames_call frames_acquire finished_fire finished_call
  suspended_fire suspended_call : stable.
#[export] Hint Extern 1 (stable frames_accounted (modify_task _)) =>
  apply frames_modify; intros; reflexivity : stable.
#[export] Hint Extern 1 (stable frames_accounted (fire _)) =>
  apply frames_fire; reflexivity : stable.
#[export] Hint Extern 1 (stable stays_finished (modify_task _)) =>
  apply finished_modify; intros; solve [assumption | reflexivity] : stable.
#[export] Hint Extern 1 (stable keeps_suspended (modify_task _)) =>
  apply suspended_modify; intros; reflexivity : stable.

Section Invariants.

Context {B : Type} {HS : HardwareSource B}.

Lemma frames_execute : stable (@frames_accounted B) (@execute B HS).
Proof.
  unfold execute, start_if_needed, resume_if_suspended, step_unless_finished,
    __start, __mark_as_finished, resume, abort, _start_acquisition,
    _abort_acquisition, _resume_acquisition, _mark_acquisition, _stop_acquisition.
  stable_auto.
Qed.

Lemma frames_perform (c : call) (w : world B) : frames_accounted w (perform c w).
Proof.
  destruct c; simpl.
  - apply frames_execute.
  - revert w. change (stable (@frames_accounted B) (@suspend B HS)).
    unfold suspend, _suspend_acquisition. stable_auto.
  - revert w. change (stable (@frames_accounted B) (@resume B HS)).
    unfold resume, _resume_acquisition. stable_auto.
  - revert w. change (stable (@frames_accounted B) (@stop B HS)).
    unfold stop, _mark_acquisition. stable_auto.
  - revert w. change (stable (@frames_accounted B) (@abort B)).
    unfold abort. stable_auto.
Qed.

Lemma finished_execute : stable (@stays_finished B) (@execute B HS).
Proof.
  unfold execute, start_if_needed, resume_if_suspended, step_unless_finished,
    __start, __mark_as_finished, resume, abort, _start_acquisition,
    _abort_acquisition, _resume_acquisition, _mark_acquisition, _stop_acquisition,
    __execute_acquire_data_elements, _acquire_data_elements.
  stable_auto.
Qed.

Lemma finished_perform (c : call) (w : world B) : stays_finished w (perform c w).
Proof.
  destruct c; simpl.
  - apply finished_execute.
  - revert w. change (stable (@stays_finished B) (@suspend B HS)).
    unfold suspend, _suspend_acquisition. stable_auto.
  - revert w. change (stable (@stays_finished B) (@resume B HS)).
    unfold resume, _resume_acquisition. stable_auto.
  - revert w. change (stable (@stays_finished B) (@stop B HS)).
    unfold stop, _mark_acquisition. stable_auto.
  - revert w. change (stable (@stays_finished B) (@abort B)).
    unfold abort. stable_auto.
Qed.

Lemma suspended_step : stable (@keeps_suspended B) (@step_unless_finished B HS).
Proof.
  unfold step_unless_finished, __mark_as_finished, _abort_acquisition,
    _mark_acquisition, _stop_acquisition,
    __execute_acquire_data_elements, _acquire_data_elements.
  stable_auto.
Qed.

End Invariants.

(** ** Slices and the merge of one channel *)

Lemma slice_range_nonneg (start stop n : Z) :
  0 <= start -> 0 <= n ->
  slice_range start stop n =
    (Z.min start n, Z.max 0 (slice_bound stop n - Z.min start n)).
Proof.
  intros Hs Hn. unfold slice_range, slice_bound.
  destruct (Z.ltb_spec start 0); [lia | reflexivity].
Qed.

(** A value of the dtype is stored as it is. *)
Lemma astype_representable (t : numpy_dtype) (v : Z) :
  representable t v -> astype t v = v.
Proof.
  unfold representable, astype.
  destruct t; cbn [is_signed itemsize];
    match goal with
    | |- context [2 ^ ?n] =>
        let m := eval vm_compute in (2 ^ n) in change (2 ^ n) with m
    end;
    try match goal with
        | |- context [?m / 2] =>
            let h := eval vm_compute in (m / 2) in change (m / 2) with h
        end;
    intros H; try (rewrite Z.mod_small by lia); lia.
Qed.

(** What is stored is a value of the dtype. *)
Lemma astype_is_representable (t : numpy_dtype) (v : Z) :
  representable t (astype t v).
Proof.
  unfold representable, astype.
  destruct t; cbn [is_signed itemsize];
    match goal with
    | |- context [2 ^ ?n] =>
        let m := eval vm_compute in (2 ^ n) in change (2 ^ n) with m
    end;
    try match goal with
        | |- context [?m / 2] =>
            let h := eval vm_compute in (m / 2) in change (m / 2) with h
        end;
    match goal with
    | |- context [?x mod ?m] => pose proof (Z.mod_pos_bound x m ltac:(lia))
    end; lia.
Qed.

(** Copying a block between two arrays of one shape always succeeds; shape
    and dtype are the destination's, and with a stop [y1 > 0] the rows from
    [y1] on are left as they were, whatever the sign of the other bounds. *)
Lemma assign_slice_same_shape_rows (dst src : ndarray) (y0 y1 x0 x1 : Z) :
  shape src = shape dst ->
  exists a, assign_slice dst src y0 y1 x0 x1 = Ok a /\
            shape a = shape dst /\
            dtype a = dtype dst /\
            forall r c, 0 < y1 <= r -> cell a r c = cell dst r c.
Proof.
  intros Hshape. unfold assign_slice. rewrite Hshape.
  destruct (slice_range y0 y1 (fst (shape dst))) as [dy dh] eqn:Ey.
  destruct (slice_range x0 x1 (snd (shape dst))) as [dx dw] eqn:Ex.
  unfold broadcastable. rewrite !Z.eqb_refl. simpl.
  eexists. split; [reflexivity |]. split; [reflexivity |]. split; [reflexivity |].
  intros r c Hr. simpl.
  unfold slice_range, slice_bound in Ey. injection Ey as <- <-.
  destruct (Z.ltb_spec y1 0); [lia |].
  destruct (Z.leb_spec (if y0 <? 0 then Z.max 0 (y0 + fst (shape dst))
                        else Z.min y0 (fst (shape dst))) r); [| reflexivity].
  destruct (Z.ltb_spec r
              ((if y0 <? 0 then Z.max 0 (y0 + fst (shape dst))
                else Z.min y0 (fst (shape dst)))
               + Z.max 0 (Z.min y1 (fst (shape dst))
                          - (if y0 <? 0 then Z.max 0 (y0 + fst (shape dst))
                             else Z.min y0 (fst (shape dst)))))); [lia | reflexivity].
Qed.

(** The same with bounds that are not negative: inside the block the cells
    are the source's, converted to the dtype of the destination, outside the
    destination's. *)
Lemma assign_slice_same_shape (dst src : ndarray) (y0 y1 x0 x1 : Z) :
  shape src = shape dst -> 0 <= y0 -> 0 <= x0 -> 0 <= y1 -> 0 <= x1 ->
  exists a, assign_slice dst src y0 y1 x0 x1 = Ok a /\
            shape a = shape dst /\
            dtype a = dtype dst /\
            forall r c, 0 <= r < fst (shape dst) -> 0 <= c < snd (shape dst) ->
              cell a r c =
                if (y0 <=? r) && (r <? y1) && (x0 <=? c) && (c <? x1)
                then astype (dtype dst) (cell src r c) else cell dst r c.
Proof.
  intros Hshape Hy Hx Hy1 Hx1. unfold assign_slice. rewrite Hshape.
  destruct (slice_range y0 y1 (fst (shape dst))) as [dy dh] eqn:Ey.
  destruct (slice_range x0 x1 (snd (shape dst))) as [dx dw] eqn:Ex.
  unfold broadcastable. rewrite !Z.eqb_refl. simpl.
  eexists. split; [reflexivity |]. split; [reflexivity |]. split; [reflexivity |].
  intros r c Hr Hc. simpl.
  rewrite slice_range_nonneg in Ey, Ex by lia.
  injection Ey as <- <-. injection Ex as <- <-.
  unfold slice_bound.
  destruct (Z.ltb_spec y1 0), (Z.ltb_spec x1 0); try lia;
    repeat match goal with
      | |- context [?a <=? ?b] => destruct (Z.leb_spec a b)
      | |- context [?a <? ?b] => destruct (Z.ltb_spec a b)
      | |- context [?a =? ?b] => destruct (Z.eqb_spec a b)
      end; simpl; try reflexivity; try lia; f_equal; f_equal; lia.
Qed.

(** The two assertions of the merge, and nothing else, raise
    [AssertionError]. *)
Lemma merge_data_element_assertion (p d : DataElement) :
  merge_data_element p d = Raise AssertionError <->
  (fst (fst (get_sub_area p))
     > fst (fst (get_sub_area d)) + fst (snd (get_sub_area d))
   \/ (fst (fst (get_sub_area p)) > 0 /\
       snd (snd (get_sub_area p)) <> snd (snd (get_sub_area d)))).
Proof.
  unfold merge_data_element.
  destruct (Z.leb_spec (fst (fst (get_sub_area p)))
              (fst (fst (get_sub_area d)) + fst (snd (get_sub_area d)))) as [Hle | Hgt];
    simpl.
  2:{ split; [intros _; left; lia | reflexivity]. }
  destruct (Z.gtb_spec (fst (fst (get_sub_area p))) 0) as [Hpos | Hnpos]; simpl.
  - destruct (Z.eqb_spec (snd (snd (get_sub_area p))) (snd (snd (get_sub_area d))))
      as [Heq | Hne]; simpl.
    + split; [| intros [? | [_ ?]]; [lia | contradiction]].
      unfold assign_slice.
      repeat match goal with
        | |- context [let '(_, _) := ?x in _] => destruct x
        end.
      destruct (_ && _); discriminate.
    + split; [intros _; right; split; [lia | assumption] | reflexivity].
  - split; [discriminate | intros [? | [? _]]; lia].
Qed.

(** A band of the buffered width that continues the buffered band, in an
    array of the same shape: the merge succeeds, the sub-area becomes the
    span from the buffered top to the new bottom with the buffered left
    offset and width, and the rows from the new top on are the new
    delivery's. *)
Lemma merge_data_element_region (p d : DataElement)
    (top height left width new_top new_height new_left : Z) :
  sub_area d = Some ((top, left), (height, width)) ->
  sub_area p = Some ((new_top, new_left), (new_height, width)) ->
  shape (data p) = shape (data d) ->
  0 < new_top <= top + height ->
  exists m, merge_data_element p d = Ok m /\
    sub_area m = Some ((top, left), (new_top + new_height - top, width)) /\
    state m = state p /\
    properties_frame_index m = properties_frame_index p /\
    shape (data m) = shape (data p) /\
    dtype (data m) = dtype (data p) /\
    forall r c, new_top <= r -> cell (data m) r c = cell (data p) r c.
Proof.
  intros Hd Hp Hshape Hnew.
  unfold merge_data_element, get_sub_area. rewrite Hd, Hp. simpl.
  destruct (Z.leb_spec new_top (top + height)); [| lia]. simpl.
  destruct (Z.gtb_spec new_top 0); [| lia].
  rewrite Z.eqb_refl. simpl.
  destruct (assign_slice_same_shape_rows (data p) (data d) top new_top left
              (left + width)) as [a [Ha [Sa [Ta Ca]]]]; [congruence |].
  rewrite Ha. eexists. split; [reflexivity |]. simpl.
  repeat split; try assumption. intros r c Hr. apply Ca. lia.
Qed.

(** The same when the buffered offsets and width are not negative: the rows
    above the new top come from the buffer, converted to the dtype of the
    delivery, all other cells from the new delivery. *)
Lemma merge_data_element_band (p d : DataElement)
    (top height left width new_top new_height new_left : Z) :
  sub_area d = Some ((top, left), (height, width)) ->
  sub_area p = Some ((new_top, new_left), (new_height, width)) ->
  shape (data p) = shape (data d) ->
  0 <= top -> 0 <= left -> 0 <= width -> 0 < new_top <= top + height ->
  exists m, merge_data_element p d = Ok m /\
    sub_area m = Some ((top, left), (new_top + new_height - top, width)) /\
    state m = state p /\
    properties_frame_index m = properties_frame_index p /\
    shape (data m) = shape (data p) /\
    dtype (data m) = dtype (data p) /\
    forall r c, 0 <= r < fst (shape (data p)) -> 0 <= c < snd (shape (data p)) ->
      cell (data m) r c =
        if (top <=? r) && (r <? new_top) && (left <=? c) && (c <? left + width)
        then astype (dtype (data p)) (cell (data d) r c) else cell (data p) r c.
Proof.
  intros Hd Hp Hshape Htop Hleft Hwidth Hnew.
  unfold merge_data_element, get_sub_area. rewrite Hd, Hp. simpl.
  destruct (Z.leb_spec new_top (top + height)); [| lia]. simpl.
  destruct (Z.gtb_spec new_top 0); [| lia].
  rewrite Z.eqb_refl. simpl.
  destruct (assign_slice_same_shape (data p) (data d) top new_top left (left + width))
    as [a [Ha [Sa [Ta Ca]]]]; [congruence | lia | lia | lia | lia |].
  rewrite Ha. eexists. split; [reflexivity |]. simpl.
  repeat split; try assumption.
Qed.

(** The cells of two arrays of one dtype are stored into one another as
    they are. *)
Lemma astype_same_dtype (a b : ndarray) (r c : Z) :
  well_formed a -> dtype b = dtype a ->
  0 <= r < fst (shape a) -> 0 <= c < snd (shape a) ->
  astype (dtype b) (cell a r c) = cell a r c.
Proof.
  intros Hwf Hdt Hr Hc. rewrite Hdt. apply astype_representable. exact (Hwf r c Hr Hc).
Qed.

(** ** What the acquisition step and the resumption leave alone *)

Section Flags.

Context {B : Type} {HS : HardwareSource B}.

#[export] Instance keeps_flags_pre : PreOrder (@keeps_flags B).
Proof.
  split.
  - intros w. split; reflexivity.
  - intros a b c [F1 V1] [F2 V2]. split; congruence.
Qed.

Lemma flags_modify (f : AcquisitionTask -> AcquisitionTask) :
  (forall t, flags (f t) = flags t /\ view_id (f t) = view_id t) ->
  stable (@keeps_flags B) (modify_task f).
Proof. intros Hf w. exact (Hf (task w)). Qed.

Lemma flags_fire (e : event) : stable (@keeps_flags B) (fire e).
Proof. intros w. split; reflexivity. Qed.

Lemma flags_call {A} (h : hook) (f : B -> B * result A) :
  stable (@keeps_flags B) (call_hook h f).
Proof. intros w. unfold call_hook. destruct (f (source w)). split; reflexivity. Qed.

End Flags.

#[export] Hint Resolve flags_fire flags_call : stable.
#[export] Hint Extern 1 (stable keeps_flags (modify_task _)) =>
  apply flags_modify; intros; split; reflexivity : stable.

Section Paths.

Context {B : Type} {HS : HardwareSource B}.

Lemma flags_acquire : stable (@keeps_flags B) (@__execute_acquire_data_elements B HS).
Proof.
  unfold __execute_acquire_data_elements, _acquire_data_elements. stable_auto.
Qed.

Lemma flags_resume_if_suspended : stable (@keeps_flags B) (@resume_if_suspended B HS).
Proof.
  unfold resume_if_suspended, resume, _resume_acquisition. stable_auto.
Qed.

(** The acquisition step once the hardware source has delivered. *)
Lemma acquire_delivered (w : world B) (b' : B) (delivered : list DataElement) :
  hardware_source (task w) = true ->
  acquire_data_elements (source w) = (b', Ok (Some delivered)) ->
  __execute_acquire_data_elements w =
    let t := task w in
    let l := log w ++ [Call acquire_hook] in
    match merge (data_elements t)
                (map (setdefault_frame_index (frame_index t)) delivered) with
    | Raise e => ({| task := t; source := b'; log := l |}, Raise e)
    | Ok merged =>
        let complete := all_complete merged in
        ({| task := if complete then set_frame_index (frame_index t + 1) t
                    else set_data_elements (Some merged) t;
            source := b';
            log := l ++ [DataElementsChanged merged (is_continuous t) (view_id t)
                                             complete (is_stopping t)] |},
         Ok complete)
    end.
Proof.
  intros Hhs Hacq.
  unfold __execute_acquire_data_elements, _acquire_data_elements, bind, get_task,
    assert, call_hook. rewrite Hhs. simpl. rewrite Hacq. simpl.
  destruct (merge _ _) as [merged | e]; simpl; [| reflexivity].
  destruct (all_complete merged); reflexivity.
Qed.

Lemma start_if_needed_started (w : world B) :
  started (task w) = true -> start_if_needed w = (w, Ok tt).
Proof. intros H. unfold start_if_needed, bind, get_task. rewrite H. reflexivity. Qed.

Lemma resume_if_suspended_running (w : world B) :
  is_suspended (task w) = false -> resume_if_suspended w = (w, Ok tt).
Proof. intros H. unfold resume_if_suspended, bind, get_task. rewrite H. reflexivity. Qed.

(** Resuming inside [execute]: the hook is called, the buffer dropped and
    the flag cleared, whether the hook returns or raises. *)
Lemma resume_if_suspended_suspended (w : world B) :
  hardware_source (task w) = true -> is_suspended (task w) = true ->
  resume_if_suspended w =
    ({| task := set_is_suspended false (set_data_elements None (task w));
        source := fst (resume_acquisition (source w));
        log := log w ++ [Call resume_hook] |},
     snd (resume_acquisition (source w))).
Proof.
  intros Hhs Hs.
  unfold resume_if_suspended, resume, _resume_acquisition, try_finally, bind,
    get_task, modify_task, call_hook.
  rewrite Hs. simpl. rewrite Hhs. simpl.
  destruct (resume_acquisition (source w)) as [b [[] | e]]; reflexivity.
Qed.

(** The step of a task that is neither finished nor aborted. *)
Lemma step_running (w : world B) :
  finished (task w) = false -> aborted (task w) = false ->
  step_unless_finished w =
    try_except
      (complete <- __execute_acquire_data_elements ;;
       t <- get_task ;;
       if complete && (is_stopping t || negb (is_continuous t)) then
         _stop_acquisition ;; __mark_as_finished
       else ret tt)
      (fun e => __mark_as_finished ;; raise e) w.
Proof.
  intros Hf Ha.
  destruct w as [[hs st fin sus ab stp cont fi vid de] b l]. simpl in Hf, Ha. subst.
  reflexivity.
Qed.

(** The step of an aborted task whose hooks return. *)
Lemma step_aborted (w : world B) :
  hardware_source (task w) = true ->
  finished (task w) = false -> aborted (task w) = true ->
  returns abort_acquisition -> returns mark_acquisition -> returns stop_acquisition ->
  exists b',
    step_unless_finished w =
      ({| task := set_finished true (set_data_elements None (task w));
          source := b';
          log := log w ++ [Call abort_hook; Call mark_hook; Call stop_hook;
                           DataElementsChanged [] (is_continuous (task w))
                             (view_id (task w)) false (is_stopping (task w));
                           FinishedEvent] |},
       Ok tt).
Proof.
  intros Hhs Hf Ha Rabort Rmark Rstop.
  destruct w as [[hs st fin sus ab stp cont fi vid de] b l]. simpl in *. subst.
  destruct (Rabort b) as [b1 [[] E1]].
  destruct (Rmark b1) as [b2 [[] E2]].
  destruct (Rstop b2) as [b3 [[] E3]].
  exists b3.
  unfold step_unless_finished, try_except, _abort_acquisition, _mark_acquisition,
    _stop_acquisition, __mark_as_finished, bind, get_task, modify_task, call_hook,
    fire. simpl.
  rewrite E1. simpl. rewrite E2. simpl. rewrite E3. simpl.
  rewrite <- !app_assoc. reflexivity.
Qed.

(** Stopping at the end of a frame: the task finishes whether the stop hook
    returns or raises. *)
Lemma stop_and_finish (w : world B) :
  exists b',
    fst (try_except (_stop_acquisition ;; __mark_as_finished)
                    (fun e => __mark_as_finished ;; raise e) w)
    = {| task := set_finished true (set_data_elements None (task w));
         source := b';
         log := log w
                ++ (if hardware_source (task w) then [Call stop_hook] else [])
                ++ [DataElementsChanged [] (is_continuous (task w))
                      (view_id (task w)) false (is_stopping (task w));
                    FinishedEvent] |}.
Proof.
  destruct w as [[hs st fin sus ab stp cont fi vid de] b l].
  unfold try_except, _stop_acquisition, __mark_as_finished, bind, get_task,
    modify_task, call_hook, fire, raise. simpl.
  destruct hs; simpl.
  - destruct (stop_acquisition b) as [b' [[] | e]]; exists b'; simpl;
      rewrite <- !app_assoc; reflexivity.
  - exists b. rewrite <- !app_assoc. reflexivity.
Qed.

(** The step of an aborted task finishes it and fires the two final
    notifications and no other, also when one of its hooks raises. *)
Lemma step_aborted_finishes (w : world B) :
  finished (task w) = false -> aborted (task w) = true ->
  finished (task (fst (step_unless_finished w))) = true /\
  notifications (log (fst (step_unless_finished w)))
    = notifications (log w)
      ++ [DataElementsChanged [] (is_continuous (task w)) (view_id (task w))
                              false (is_stopping (task w));
          FinishedEvent].
Proof.
  intros Hf Ha.
  destruct w as [[hs st fin sus ab stp cont fi vid de] b l]. simpl in Hf, Ha. subst.
  unfold step_unless_finished, try_except, _abort_acquisition, _mark_acquisition,
    _stop_acquisition, __mark_as_finished, bind, get_task, modify_task, call_hook,
    fire, raise. simpl.
  destruct hs; simpl.
  - destruct (abort_acquisition b) as [b1 [[] | e1]]; simpl;
      [destruct (mark_acquisition b1) as [b2 [[] | e2]]; simpl;
       [destruct (stop_acquisition b2) as [b3 [[] | e3]]; simpl | ] | ];
      (split; [reflexivity |]);
      rewrite !notifications_app; simpl; rewrite ?app_nil_r, <- ?app_assoc;
      reflexivity.
  - split; [reflexivity |].
    rewrite !notifications_app; simpl; rewrite <- ?app_assoc; reflexivity.
Qed.

(** What is left of [execute] for an aborted task once it is started. *)
Lemma resume_then_abort (w : world B) :
  hardware_source (task w) = true ->
  finished (task w) = false -> aborted (task w) = true ->
  (is_suspended (task w) = true -> returns resume_acquisition) ->
  returns abort_acquisition -> returns mark_acquisition -> returns stop_acquisition ->
  exists b',
    (resume_if_suspended ;; step_unless_finished) w =
      ({| task := set_finished true
                    (set_is_suspended false (set_data_elements None (task w)));
          source := b';
          log := log w
                 ++ (if is_suspended (task w) then [Call resume_hook] else [])
                 ++ [Call abort_hook; Call mark_hook; Call stop_hook;
                     DataElementsChanged [] (is_continuous (task w))
                       (view_id (task w)) false (is_stopping (task w));
                     FinishedEvent] |},
       Ok tt).
Proof.
  intros Hhs Hfin Hab Rresume Rabort Rmark Rstop. unfold bind.
  destruct (is_suspended (task w)) eqn:Hsus.
  - rewrite (resume_if_suspended_suspended w Hhs Hsus).
    destruct (Rresume eq_refl (source w)) as [b1 [[] E1]]. rewrite E1.
    cbn [fst snd].
    match goal with
    | |- context [step_unless_finished ?w1] =>
        destruct (step_aborted w1) as [b2 E2]; try assumption
    end.
    exists b2. rewrite E2. cbn [task log]. rewrite <- !app_assoc. reflexivity.
  - rewrite (resume_if_suspended_running w Hsus).
    destruct (step_aborted w) as [b2 E2]; try assumption.
    exists b2. rewrite E2.
    destruct w as [[hs st fin sus ab stp cont fi vid de] b l].
    simpl in Hsus. subst. reflexivity.
Qed.

End Paths.

(** * The claims *)

(** ** FrameBuffer *)

(** C1 (merge contiguity).  A task buffers one channel covering rows [0,10)
    at width 20; the hardware source delivers rows [10,16) at width 20 in an
    array of the same shape.  The acquisition step announces one merged
    element whose sub-area is rows [0,16) at width 20, held in the delivered
    array, and when the frame is not yet complete the merged element is what
    the task buffers.  The rows above the new top (row 10) are the buffered
    rows as numpy stores them into the delivered array, that is converted to
    its dtype; every other cell is the new delivery's.  The stored rows are
    the buffered values themselves when buffer and delivery are arrays of
    one dtype, as the buffers of one channel are, and wherever the buffered
    value is a value of the dtype of the delivery. *)
Theorem C1_merge_contiguity {B : Type} {HS : HardwareSource B}
    (w : world B) (b' : B) (d p : DataElement) :
  hardware_source (task w) = true ->
  data_elements (task w) = Some [d] ->
  sub_area d = Some ((0, 0), (10, 20)) ->
  acquire_data_elements (source w) = (b', Ok (Some [p])) ->
  sub_area p = Some ((10, 0), (6, 20)) ->
  shape (data p) = shape (data d) ->
  exists m,
    __execute_acquire_data_elements w
      = ({| task := if all_complete [m]
                    then set_frame_index (frame_index (task w) + 1) (task w)
                    else set_data_elements (Some [m]) (task w);
            source := b';
            log := log w ++ [Call acquire_hook;
                             DataElementsChanged [m] (is_continuous (task w))
                               (view_id (task w)) (all_complete [m])
                               (is_stopping (task w))] |},
         Ok (all_complete [m])) /\
    sub_area m = Some ((0, 0), (16, 20)) /\
    state m = state p /\
    shape (data m) = shape (data p) /\
    dtype (data m) = dtype (data p) /\
    (forall r c, 0 <= r < fst (shape (data p)) -> 0 <= c < snd (shape (data p)) ->
       cell (data m) r c =
         if (r <? 10) && (c <? 20)
         then astype (dtype (data p)) (cell (data d) r c)
         else cell (data p) r c) /\
    (dtype (data p) = dtype (data d) -> well_formed (data d) ->
     forall r c, 0 <= r < fst (shape (data p)) -> 0 <= c < snd (shape (data p)) ->
       cell (data m) r c =
         if (r <? 10) && (c <? 20) then cell (data d) r c else cell (data p) r c) /\
    (forall r c, 0 <= r < 10 -> r < fst (shape (data p)) ->
                 0 <= c < 20 -> c < snd (shape (data p)) ->
       representable (dtype (data p)) (cell (data d) r c) ->
       cell (data m) r c = cell (data d) r c).
Proof.
  intros Hhs Hbuf Hd Hacq Hp Hshape.
  destruct (merge_data_element_band
              (setdefault_frame_index (frame_index (task w)) p) d
              0 10 0 20 10 6 0 Hd Hp Hshape)
    as [m [Hm [Ha [Hst [_ [Hs [Ht Hc]]]]]]]; try lia.
  cbn [setdefault_frame_index data] in Hs, Ht, Hc.
  assert (Hcell : forall r c,
            0 <= r < fst (shape (data p)) -> 0 <= c < snd (shape (data p)) ->
            cell (data m) r c =
              if (r <? 10) && (c <? 20)
              then astype (dtype (data p)) (cell (data d) r c)
              else cell (data p) r c).
  { intros r c Hr Hc'. rewrite (Hc r c Hr Hc').
    destruct (Z.leb_spec 0 r), (Z.leb_spec 0 c); try lia.
    simpl. rewrite andb_true_r. reflexivity. }
  exists m. rewrite (acquire_delivered w b' [p] Hhs Hacq). cbv zeta.
  rewrite Hbuf. cbn [map merge merge_zip]. rewrite Hm.
  rewrite <- app_assoc.
  split; [reflexivity |]. split; [exact Ha |]. split; [exact Hst |].
  split; [exact Hs |]. split; [exact Ht |]. split; [exact Hcell |]. split.
  - intros Hdt Hwf r c Hr Hc'. rewrite (Hcell r c Hr Hc').
    destruct ((r <? 10) && (c <? 20)); [| reflexivity].
    apply astype_same_dtype; [exact Hwf | exact Hdt | |]; rewrite <- Hshape; assumption.
  - intros r c Hr Hr' Hc' Hc'' Hrep.
    rewrite (Hcell r c) by lia.
    destruct (Z.ltb_spec r 10), (Z.ltb_spec c 20); try lia.
    cbn [andb]. apply astype_representable. exact Hrep.
Qed.

(** The frames used as examples hold values of their dtype. *)
Lemma frame_of_well_formed (t : numpy_dtype) (rows columns v : Z) :
  well_formed (frame_of t rows columns v).
Proof. intros r c _ _. apply astype_is_representable. Defined.

Lemma C1_merge_contiguity_witness :
  (exists m,
     snd (@__execute_acquire_data_elements _ (ScriptedHardwareSource obliging)
            (mid_frame buffered_band next_band)) = Ok (all_complete [m]) /\
     sub_area m = Some ((0, 0), (16, 20)) /\
     cell (data m) 9 0 = 1 /\ cell (data m) 10 0 = 2) /\
  (* a buffer of int64 merged into a delivery of int8 *)
  (exists m,
     snd (@__execute_acquire_data_elements _ (ScriptedHardwareSource obliging)
            (mid_frame (band (frame 16 20 300) ((0, 0), (10, 20)) "partial")
                       (band (frame_of int8 16 20 2) ((10, 0), (6, 20)) "complete")))
       = Ok (all_complete [m]) /\
     dtype (data m) = int8 /\
     cell (data m) 9 0 = 44 /\ cell (data m) 10 0 = 2).
Proof.
  split.
  - destruct (@C1_merge_contiguity _ (ScriptedHardwareSource obliging)
                (mid_frame buffered_band next_band) [] buffered_band next_band)
      as [m [E [A [_ [_ [_ [_ [C _]]]]]]]]; try reflexivity.
    exists m. rewrite E. split; [reflexivity |]. split; [exact A |].
    split; (rewrite C;
            [reflexivity | reflexivity | apply frame_of_well_formed
             | simpl; lia | simpl; lia]).
  - destruct (@C1_merge_contiguity _ (ScriptedHardwareSource obliging)
                (mid_frame (band (frame 16 20 300) ((0, 0), (10, 20)) "partial")
                           (band (frame_of int8 16 20 2) ((10, 0), (6, 20)) "complete"))
                [] (band (frame 16 20 300) ((0, 0), (10, 20)) "partial")
                (band (frame_of int8 16 20 2) ((10, 0), (6, 20)) "complete"))
      as [m [E [_ [_ [_ [T [C _]]]]]]]; try reflexivity.
    exists m. rewrite E. split; [reflexivity |]. split; [exact T |].
    split; (rewrite C; [reflexivity | simpl; lia | simpl; lia]).
Defined.

(** C4 (merge violation), as the code has it.  A delivery whose top offset
    exceeds the bottom edge of the buffered region, or whose top offset is
    greater than 0 while its width differs from the width of the buffered
    region, fails the merge with an assertion error; [execute] lets the error
    through to its caller after marking the task finished, and nothing of
    the delivery is published. *)
Theorem C4_merge_violation_rejected {B : Type} {HS : HardwareSource B}
    (w : world B) (b' : B) (d p : DataElement) (ds ps : list DataElement) :
  hardware_source (task w) = true ->
  started (task w) = true -> is_suspended (task w) = false ->
  finished (task w) = false -> aborted (task w) = false ->
  data_elements (task w) = Some (d :: ds) ->
  acquire_data_elements (source w) = (b', Ok (Some (p :: ps))) ->
  (fst (fst (get_sub_area p))
     > fst (fst (get_sub_area d)) + fst (snd (get_sub_area d))
   \/ (fst (fst (get_sub_area p)) > 0 /\
       snd (snd (get_sub_area p)) <> snd (snd (get_sub_area d)))) ->
  merge_data_element p d = Raise AssertionError /\
  execute w =
    ({| task := set_finished true (task w);
        source := b';
        log := log w ++ [Call acquire_hook;
                         DataElementsChanged [] (is_continuous (task w))
                           (view_id (task w)) false (is_stopping (task w));
                         FinishedEvent] |},
     Raise AssertionError).
Proof.
  intros Hhs Hst Hsus Hfin Hab Hbuf Hacq Hbad.
  split; [apply merge_data_element_assertion; exact Hbad |].
  assert (Hm : merge_data_element
                 (setdefault_frame_index (frame_index (task w)) p) d
               = Raise AssertionError)
    by (apply merge_data_element_assertion; exact Hbad).
  unfold execute, bind.
  rewrite (start_if_needed_started w Hst), (resume_if_suspended_running w Hsus).
  rewrite (step_running w Hfin Hab). unfold try_except, bind at 1.
  rewrite (acquire_delivered w b' (p :: ps) Hhs Hacq). cbv zeta.
  rewrite Hbuf. cbn [map merge merge_zip]. rewrite Hm.
  unfold __mark_as_finished, bind, get_task, modify_task, fire, raise. simpl.
  rewrite <- !app_assoc. reflexivity.
Qed.

Lemma C4_merge_violation_rejected_witness :
  snd (@execute _ (ScriptedHardwareSource obliging)
         (mid_frame buffered_band
            (band (frame 16 20 2) ((5, 0), (5, 12)) "partial")))
    = Raise AssertionError.
Proof.
  assert (Hbad : 5 > 0 + 10 \/ (5 > 0 /\ 12 <> 20)) by (right; lia).
  destruct (@C4_merge_violation_rejected _ (ScriptedHardwareSource obliging)
             (mid_frame buffered_band
                (band (frame 16 20 2) ((5, 0), (5, 12)) "partial"))
             [] buffered_band (band (frame 16 20 2) ((5, 0), (5, 12)) "partial")
             [] [] eq_refl eq_refl eq_refl eq_refl eq_refl eq_refl eq_refl Hbad)
    as [_ E].
  rewrite E. reflexivity.
Defined.

(** C4 as the specification words it fails: with a buffered region that is
    itself narrower than the channel (width 10 of 20), a delivery at top
    offset 5 of width 10, less than the channel's full width, is merged, not
    rejected. *)
Lemma C4_counterexample :
  let d := band (frame 16 20 1) ((0, 0), (10, 10)) "partial" in
  let p := band (frame 16 20 2) ((5, 0), (5, 10)) "partial" in
  fst (fst (get_sub_area p)) > 0 /\
  snd (snd (get_sub_area p)) < snd (shape (data d)) /\
  (forall e, merge_data_element p d <> Raise e) /\
  snd (@execute _ (ScriptedHardwareSource obliging) (mid_frame d p)) = Ok tt /\
  finished (task (fst (@execute _ (ScriptedHardwareSource obliging) (mid_frame d p))))
    = false.
Proof.
  cbv zeta. repeat split; try reflexivity; try (simpl; lia).
  intros e. vm_compute. discriminate.
Qed.

(** C2 (reset on completion), evaluated on the code.  A view task receives
    rows [0,10) of one frame (incomplete), then the whole frame (complete),
    then rows [5,10) of the next frame.  After the complete step the task
    still buffers the first delivery: the buffer is not cleared.  The third
    delivery is therefore merged into that stale buffer instead of seeding a
    fresh frame, and is announced with rows [0,5) of the finished frame and
    the sub-area widened to rows [0,10).  After the incomplete steps the
    merged elements are retained, as the claim says. *)
Theorem C2_buffer_not_reset_on_complete :
  let first := band (frame 16 20 1) ((0, 0), (10, 20)) "partial" in
  let whole := band (frame 16 20 2) ((0, 0), (16, 20)) "complete" in
  let third := band (frame 16 20 3) ((5, 0), (5, 20)) "partial" in
  let run := fun cs =>
    @perform_all _ (ScriptedHardwareSource obliging) cs
      (new_world view_task [Ok (Some [first]); Ok (Some [whole]); Ok (Some [third])]) in
  let w1 := run [CallExecute] in
  let w2 := run [CallExecute; CallExecute] in
  let w3 := run [CallExecute; CallExecute; CallExecute] in
  (* the incomplete first step retains what was delivered *)
  data_elements (task w1) = Some [setdefault_frame_index 0 first] /\
  (* the second step announces a complete frame and advances the index *)
  completed_frames (log w2) = 1 /\ frame_index (task w2) = 1 /\
  finished (task w2) = false /\
  (* yet the buffer still holds the first delivery *)
  data_elements (task w2) = Some [setdefault_frame_index 0 first] /\
  (* and the next frame's first delivery is merged with it *)
  exists m, data_elements (task w3) = Some [m] /\
            last (log w3) FinishedEvent
              = DataElementsChanged [m] true "source" false false /\
            sub_area m = Some ((0, 0), (10, 20)) /\
            properties_frame_index m = Some 1 /\
            cell (data m) 0 0 = 1 /\ cell (data m) 5 0 = 3.
Proof.
  cbv zeta. repeat split; try reflexivity.
  eexists. repeat split; reflexivity.
Qed.

(** The same on every world: a step that announces a complete frame leaves
    the buffer exactly as it found it. *)
Lemma buffer_after_acquire {B : Type} {HS : HardwareSource B}
    (w w' : world B) (complete : bool) :
  __execute_acquire_data_elements w = (w', Ok complete) ->
  if complete then data_elements (task w') = data_elements (task w)
  else exists merged, data_elements (task w') = Some merged /\
                      all_complete merged = false.
Proof.
  destruct w as [t b l].
  unfold __execute_acquire_data_elements, _acquire_data_elements, bind, get_task,
    assert, call_hook, ret, raise, fire, modify_task. simpl.
  destruct (hardware_source t); simpl; [| discriminate].
  destruct (acquire_data_elements b) as [b1 [[ds |] | e]]; simpl; try discriminate.
  destruct (merge (data_elements t) _) as [m | e]; simpl; try discriminate.
  destruct (all_complete m) eqn:Em; simpl; intros E; injection E as <- <-; simpl.
  - reflexivity.
  - exists m. split; [reflexivity | exact Em].
Qed.

(** ** The acquisition step and the frame index *)

(** One acquisition step advances the index by one when it returns
    "complete" and leaves it alone when it returns "incomplete" or raises. *)
Lemma frame_index_after_acquire {B : Type} {HS : HardwareSource B} (w : world B) :
  frame_index (task (fst (__execute_acquire_data_elements w)))
    = frame_index (task w)
      + match snd (__execute_acquire_data_elements w) with
        | Ok true => 1
        | _ => 0
        end.
Proof.
  destruct w as [t b l].
  unfold __execute_acquire_data_elements, _acquire_data_elements, bind, get_task,
    assert, call_hook, ret, raise, fire, modify_task. simpl.
  destruct (hardware_source t); simpl; [| lia].
  destruct (acquire_data_elements b) as [b1 [[ds |] | e]]; simpl; try lia.
  destruct (merge (data_elements t) _) as [m | e]; simpl; try lia.
  destruct (all_complete m); simpl; lia.
Qed.

(** ** Channel publisher *)

Lemma channels_data_from_nth {D : Type} (convert : DataElement -> D)
    (data_elements : list DataElement) (is_stopping : bool) (start i : nat)
    (d : DataElement) :
  nth_error data_elements i = Some d ->
  nth_error (channels_data_from D convert start data_elements is_stopping) i
    = Some (channel_data_of D convert (start + i) d is_stopping).
Proof.
  revert start i. induction data_elements as [| x xs IH]; intros start i H.
  - destruct i; discriminate.
  - destruct i as [| i]; simpl in *.
    + injection H as ->. now rewrite Nat.add_0_r.
    + rewrite (IH (S start) i H). now rewrite Nat.add_succ_r.
Qed.

(** C10 (published channel state).  The publisher emits, first, one
    channels-data update holding a record for each channel of the
    notification, in order.  When the task is stopping, a channel whose
    state is not "complete" is published as "marked"; when it is not
    stopping, the state of the data element, "complete" when the element has
    none, is published unchanged. *)
Theorem C10_published_state {D : Type} (convert : DataElement -> D)
    (data_elements : list DataElement) (is_continuous : bool) (view_id : string)
    (is_complete is_stopping : bool) (i : nat) (d : DataElement) :
  nth_error data_elements i = Some d ->
  exists channels_data rest cd,
    __data_elements_changed D convert data_elements is_continuous view_id
                            is_complete is_stopping
      = ChannelsDataUpdated view_id (negb is_continuous) channels_data :: rest /\
    nth_error channels_data i = Some cd /\
    cd_index cd = i /\
    cd_data_and_calibration cd = convert d /\
    (is_stopping = true -> get_state d <> "complete"%string ->
       cd_state cd = "marked"%string) /\
    (is_stopping = true -> get_state d = "complete"%string ->
       cd_state cd = "complete"%string) /\
    (is_stopping = false ->
       cd_state cd = match state d with Some s => s | None => "complete"%string end).
Proof.
  intros H. unfold __data_elements_changed.
  eexists _, _, _. split; [reflexivity |].
  split; [apply channels_data_from_nth; exact H |].
  simpl. repeat split.
  - intros -> Hs. destruct (String.eqb_spec (get_state d) "complete");
      [contradiction | reflexivity].
  - intros -> Hs. rewrite Hs. reflexivity.
  - intros ->. rewrite andb_false_r. reflexivity.
Qed.

Lemma C10_published_state_witness :
  exists channels_data rest cd,
    __data_elements_changed unit (fun _ => tt) [buffered_band; next_band]
                            true "source" false true
      = ChannelsDataUpdated "source" false channels_data :: rest /\
    nth_error channels_data 0 = Some cd /\
    cd_state cd = "marked"%string.
Proof.
  destruct (C10_published_state (fun _ => tt) [buffered_band; next_band]
              true "source" false true 0 buffered_band eq_refl)
    as [cds [rest [cd [E [N [_ [_ [M _]]]]]]]].
  exists cds, rest, cd. split; [exact E |]. split; [exact N |].
  apply M; [reflexivity |]. simpl. discriminate.
Defined.

(** ** Hooks that return *)

Lemma obliging_returns :
  returns (@abort_acquisition _ (ScriptedHardwareSource obliging)) /\
  returns (@mark_acquisition _ (ScriptedHardwareSource obliging)) /\
  returns (@stop_acquisition _ (ScriptedHardwareSource obliging)) /\
  returns (@resume_acquisition _ (ScriptedHardwareSource obliging)).
Proof. repeat split; intros b; exists b, tt; reflexivity. Defined.

(** ** Task: start *)

(** C3 (start failure), as the code has it.  On the first [execute] of a
    task:
    - if the start hook returns False, the task is flagged aborted and the
      same call goes on to the abort path: with hooks that return it calls
      the abort, mark and stop hooks, finishes the task, fires a
      data-changed notification with the empty list and the finished
      notification, and returns normally: no error reaches the caller;
    - if the start hook raises, the task is marked finished at once with the
      same two notifications, and that exception reaches the caller. *)
Theorem C3_start_failure {B : Type} {HS : HardwareSource B} (w : world B) :
  hardware_source (task w) = true ->
  started (task w) = false -> finished (task w) = false ->
  (is_suspended (task w) = true -> returns resume_acquisition) ->
  returns abort_acquisition -> returns mark_acquisition -> returns stop_acquisition ->
  let w' := fst (execute w) in
  let final := [DataElementsChanged [] (is_continuous (task w)) (view_id (task w))
                                    false (is_stopping (task w));
                FinishedEvent] in
  (snd (start_acquisition (source w)) = Ok false ->
     snd (execute w) = Ok tt /\
     finished (task w') = true /\ aborted (task w') = true /\
     log w' = log w ++ [Call start_hook]
              ++ (if is_suspended (task w) then [Call resume_hook] else [])
              ++ [Call abort_hook; Call mark_hook; Call stop_hook] ++ final) /\
  (forall e, snd (start_acquisition (source w)) = Raise e ->
     snd (execute w) = Raise e /\
     finished (task w') = true /\
     log w' = log w ++ [Call start_hook] ++ final).
Proof.
  intros Hhs Hst Hfin Rresume Rabort Rmark Rstop. cbv zeta. split.
  - intros Hstart.
    destruct (start_acquisition (source w)) as [b1 r] eqn:Es.
    cbn [snd] in Hstart. subst r.
    assert (E1 : start_if_needed w =
                 ({| task := set_started true
                               (set_aborted true (set_data_elements None (task w)));
                     source := b1; log := log w ++ [Call start_hook] |}, Ok tt)).
    { unfold start_if_needed, try_except, __start, _start_acquisition, abort, bind,
        get_task, modify_task, call_hook.
      rewrite Hst. simpl. rewrite Hhs. simpl. rewrite Es. reflexivity. }
    match type of E1 with _ = (?w1, _) =>
      destruct (resume_then_abort w1) as [b' E2]; try assumption; try reflexivity;
      assert (Ex : execute w = (resume_if_suspended ;; step_unless_finished) w1)
        by (unfold execute; unfold bind at 1; rewrite E1; reflexivity)
    end.
    rewrite Ex, E2. cbn [fst snd task log]. rewrite <- ?app_assoc.
    repeat split; reflexivity.
  - intros e Hstart.
    destruct (start_acquisition (source w)) as [b1 r] eqn:Es.
    cbn [snd] in Hstart. subst r.
    assert (E1 : start_if_needed w =
                 ({| task := set_finished true (set_data_elements None (task w));
                     source := b1;
                     log := log w ++ [Call start_hook;
                              DataElementsChanged [] (is_continuous (task w))
                                (view_id (task w)) false (is_stopping (task w));
                              FinishedEvent] |}, Raise e)).
    { unfold start_if_needed, try_except, __start, _start_acquisition, abort,
        __mark_as_finished, bind, get_task, modify_task, call_hook, fire, raise.
      rewrite Hst. simpl. rewrite Hhs. simpl. rewrite Es. simpl.
      rewrite <- !app_assoc. reflexivity. }
    match type of E1 with _ = ?r =>
      assert (Ex : execute w = r)
        by (unfold execute; unfold bind at 1; rewrite E1; reflexivity)
    end.
    rewrite Ex. repeat split; reflexivity.
Qed.

Lemma starting_returns (r : result bool) :
  returns (@abort_acquisition _ (ScriptedHardwareSource (starting r))) /\
  returns (@mark_acquisition _ (ScriptedHardwareSource (starting r))) /\
  returns (@stop_acquisition _ (ScriptedHardwareSource (starting r))) /\
  returns (@resume_acquisition _ (ScriptedHardwareSource (starting r))).
Proof. repeat split; intros b; exists b, tt; reflexivity. Defined.

Lemma C3_start_failure_witness :
  snd (@execute _ (ScriptedHardwareSource (starting (Ok false)))
         (new_world view_task [])) = Ok tt /\
  finished (task (fst (@execute _ (ScriptedHardwareSource (starting (Ok false)))
                         (new_world view_task [])))) = true.
Proof.
  destruct (@C3_start_failure _ (ScriptedHardwareSource (starting (Ok false)))
              (new_world view_task []) eq_refl eq_refl eq_refl
              (fun _ => proj2 (proj2 (proj2 (starting_returns (Ok false)))))
              (proj1 (starting_returns (Ok false)))
              (proj1 (proj2 (starting_returns (Ok false))))
              (proj1 (proj2 (proj2 (starting_returns (Ok false))))))
    as [[R [F _]] _]; [reflexivity |].
  split; [exact R | exact F].
Defined.

(** C3 as the specification words it fails: a start hook that reports
    failure (returns False) makes [execute] finish the task and return; no
    error reaches the caller. *)
Lemma C3_counterexample :
  let HS := ScriptedHardwareSource (starting (Ok false)) in
  let w := new_world view_task [] in
  snd (@start_acquisition _ HS (source w)) = Ok false /\
  finished (task (fst (@execute _ HS w))) = true /\
  forall e, snd (@execute _ HS w) <> Raise e.
Proof.
  cbv zeta. repeat split. intros e. vm_compute. discriminate.
Qed.

(** ** Task: resume *)

(** C8 (resume), as the code has it.  On a suspended task with a hardware
    source, [resume] calls the resume hook and drops the buffer but leaves
    the suspended flag set.  The flag is cleared by [execute]: once the task
    is started (or its start hook returns), [execute] calls the resume hook
    before anything else of the step and leaves the flag cleared, whether
    the hook returns or raises. *)
Theorem C8_resume_and_suspended_flag {B : Type} {HS : HardwareSource B}
    (w : world B) :
  hardware_source (task w) = true -> is_suspended (task w) = true ->
  (fst (resume w) =
     {| task := set_data_elements None (task w);
        source := fst (resume_acquisition (source w));
        log := log w ++ [Call resume_hook] |} /\
   is_suspended (task (fst (resume w))) = true) /\
  (started (task w) = true ->
     is_suspended (task (fst (execute w))) = false /\
     exists evs, log (fst (execute w)) = log w ++ Call resume_hook :: evs).
Proof.
  intros Hhs Hsus. split.
  - unfold resume, _resume_acquisition, bind, get_task, modify_task, call_hook.
    simpl. rewrite Hhs. simpl.
    destruct (resume_acquisition (source w)) as [b r]. simpl.
    split; [reflexivity | exact Hsus].
  - intros Hst. unfold execute. unfold bind at 1 3.
    rewrite (start_if_needed_started w Hst).
    unfold bind. rewrite (resume_if_suspended_suspended w Hhs Hsus).
    destruct (snd (resume_acquisition (source w))) as [[] | e].
    + match goal with
      | |- context [step_unless_finished ?w1] =>
          destruct (suspended_step w1) as [S [evs L]]
      end.
      rewrite S, L. cbn [task log]. split; [reflexivity |].
      exists evs. rewrite <- app_assoc. reflexivity.
    + cbn. split; [reflexivity |]. exists []. reflexivity.
Qed.

Lemma C8_resume_and_suspended_flag_witness :
  is_suspended (task (fst (@resume _ (ScriptedHardwareSource obliging)
                             suspended_world))) = true /\
  is_suspended (task (fst (@execute _ (ScriptedHardwareSource obliging)
                             suspended_world))) = false.
Proof.
  destruct (@C8_resume_and_suspended_flag _ (ScriptedHardwareSource obliging)
              suspended_world eq_refl eq_refl) as [[_ R] E].
  split; [exact R | exact (proj1 (E eq_refl))].
Defined.

(** C8 as the specification words it fails: [resume] on a suspended task
    calls the hook and leaves the task suspended. *)
Lemma C8_counterexample :
  let HS := ScriptedHardwareSource obliging in
  is_suspended (task suspended_world) = true /\
  log (fst (@resume _ HS suspended_world)) = [Call resume_hook] /\
  is_suspended (task (fst (@resume _ HS suspended_world))) = true.
Proof. cbv zeta. repeat split. Qed.

(** ** Task: the finished state *)

Section Finished.

Context {B : Type} {HS : HardwareSource B}.

#[export] Instance quiet_pre : PreOrder (@quiet B).
Proof.
  split.
  - intros w Hs Hf. repeat split; assumption.
  - intros a b c Hab Hbc Hs Hf.
    destruct (Hab Hs Hf) as [Hs' [Hf' N1]].
    destruct (Hbc Hs' Hf') as [Hs'' [Hf'' N2]].
    repeat split; try assumption. congruence.
Qed.

Lemma quiet_modify (f : AcquisitionTask -> AcquisitionTask) :
  (forall t, started t = true -> finished t = true ->
             started (f t) = true /\ finished (f t) = true) ->
  stable (@quiet B) (modify_task f).
Proof.
  intros Hf w Hs Hfin. destruct (Hf (task w) Hs Hfin). repeat split; assumption.
Qed.

Lemma quiet_call {A} (h : hook) (f : B -> B * result A) :
  stable (@quiet B) (call_hook h f).
Proof.
  intros w Hs Hf. unfold call_hook. destruct (f (source w)). simpl.
  rewrite notifications_app. simpl. rewrite app_nil_r. repeat split; assumption.
Qed.

End Finished.

#[export] Hint Resolve quiet_call : stable.
#[export] Hint Extern 1 (stable quiet (modify_task _)) =>
  apply quiet_modify; intros; split; assumption : stable.

Section FinishedPaths.

Context {B : Type} {HS : HardwareSource B}.

Lemma step_finished (w : world B) :
  finished (task w) = true -> step_unless_finished w = (w, Ok tt).
Proof.
  intros H. unfold step_unless_finished, bind, get_task. rewrite H. reflexivity.
Qed.

(** Of [execute] on a started, finished task only the resumption is left. *)
Lemma execute_finished (w : world B) :
  started (task w) = true -> finished (task w) = true ->
  execute w = resume_if_suspended w.
Proof.
  intros Hs Hf. unfold execute. unfold bind at 1.
  rewrite (start_if_needed_started w Hs). unfold bind.
  pose proof (flags_resume_if_suspended w) as [F _].
  destruct (resume_if_suspended w) as [w1 [[] | e]]; [| reflexivity].
  apply step_finished. cbn [fst] in F. unfold flags in F. congruence.
Qed.

Lemma quiet_perform (c : call) (w : world B) : quiet w (perform c w).
Proof.
  destruct c; simpl.
  - intros Hs Hf. rewrite (execute_finished w Hs Hf).
    revert w Hs Hf. change (stable (@quiet B) (@resume_if_suspended B HS)).
    unfold resume_if_suspended, resume, _resume_acquisition. stable_auto.
  - revert w. change (stable (@quiet B) (@suspend B HS)).
    unfold suspend, _suspend_acquisition. stable_auto.
  - revert w. change (stable (@quiet B) (@resume B HS)).
    unfold resume, _resume_acquisition. stable_auto.
  - revert w. change (stable (@quiet B) (@stop B HS)).
    unfold stop, _mark_acquisition. stable_auto.
  - revert w. change (stable (@quiet B) (@abort B)).
    unfold abort. stable_auto.
Qed.

End FinishedPaths.

(** C9 (finished is terminal), as the code has it.  Once a task is
    finished:
    - it stays finished under every sequence of calls;
    - [stop] and [abort] still set their flags;
    - if the task was started, no sequence of calls fires a data-changed or
      finished notification any more, so the finished notification stays
      the last one; [execute] does nothing but resume a suspended task, and
      nothing at all on a task that is not suspended. *)
Theorem C9_finished_is_kept {B : Type} {HS : HardwareSource B} (w : world B) :
  finished (task w) = true ->
  (forall cs, finished (task (perform_all cs w)) = true) /\
  (is_stopping (task (fst (stop w))) = true /\
   aborted (task (fst (abort w))) = true) /\
  (started (task w) = true ->
     (forall cs, notifications (log (perform_all cs w)) = notifications (log w)) /\
     execute w = resume_if_suspended w /\
     (is_suspended (task w) = false -> execute w = (w, Ok tt))).
Proof.
  intros Hf. split; [| split].
  - intros cs. revert w Hf. induction cs as [| c cs IH]; intros w Hf; simpl.
    + exact Hf.
    + apply IH. exact (finished_perform c w Hf).
  - split; [| reflexivity].
    unfold stop, _mark_acquisition, bind, get_task, modify_task, call_hook. simpl.
    destruct (hardware_source (task w)); [| reflexivity]. simpl.
    destruct (mark_acquisition (source w)); reflexivity.
  - intros Hs. split; [| split].
    + intros cs. revert w Hf Hs. induction cs as [| c cs IH]; intros w Hf Hs; simpl.
      * reflexivity.
      * destruct (quiet_perform c w Hs Hf) as [Hs' [Hf' N]].
        rewrite (IH _ Hf' Hs'). exact N.
    + exact (execute_finished w Hs Hf).
    + intros Hsus. rewrite (execute_finished w Hs Hf).
      exact (resume_if_suspended_running w Hsus).
Qed.

Lemma C9_finished_is_kept_witness :
  finished (task recorded) = true /\
  notifications
    (log (@perform_all _ (ScriptedHardwareSource obliging)
            [CallStop; CallExecute; CallAbort; CallExecute] recorded))
    = [DataElementsChanged [setdefault_frame_index 0 whole_frame]
                           false "5a1e" true false;
       DataElementsChanged [] false "5a1e" false false;
       FinishedEvent].
Proof.
  split; [reflexivity |].
  destruct (@C9_finished_is_kept _ (ScriptedHardwareSource obliging) recorded eq_refl)
    as [_ [_ Q]].
  rewrite (proj1 (Q eq_refl)). reflexivity.
Defined.

(** C9 as the specification words it fails.  On a finished task [stop] and
    [abort] still change the flags of the state machine; and a task that
    finished because its start hook raised, hence never became started,
    starts again on the next [execute] and fires both notifications a second
    time. *)
Lemma C9_counterexample :
  let HS := ScriptedHardwareSource obliging in
  let HF := ScriptedHardwareSource (starting (Raise (BackendError "no camera"))) in
  (finished (task recorded) = true /\
   is_stopping (task recorded) = false /\
   is_stopping (task (@perform _ HS CallStop recorded)) = true /\
   aborted (task recorded) = false /\
   aborted (task (@perform _ HS CallAbort recorded)) = true) /\
  (finished (task failed_to_start) = true /\
   notifications (log failed_to_start)
     = [DataElementsChanged [] true "source" false false; FinishedEvent] /\
   notifications (log (@perform _ HF CallExecute failed_to_start))
     = [DataElementsChanged [] true "source" false false; FinishedEvent;
        DataElementsChanged [] true "source" false false; FinishedEvent]).
Proof. cbv zeta. repeat split. Qed.

(** * Further properties of the task *)

Section TaskExtras.

Context {B : Type} {HS : HardwareSource B}.

#[export] Instance keeps_mode_pre : PreOrder (@keeps_mode B).
Proof.
  split.
  - intros w. repeat split.
  - intros a b c [A1 [A2 [A3 A4]]] [B1 [B2 [B3 B4]]]. repeat split; congruence.
Qed.

Lemma mode_modify (f : AcquisitionTask -> AcquisitionTask) :
  (forall t, is_continuous (f t) = is_continuous t /\ view_id (f t) = view_id t /\
             is_stopping (f t) = is_stopping t /\
             hardware_source (f t) = hardware_source t) ->
  stable (@keeps_mode B) (modify_task f).
Proof. intros Hf w. exact (Hf (task w)). Qed.

Lemma mode_fire (e : event) : stable (@keeps_mode B) (fire e).
Proof. intros w. repeat split. Qed.

Lemma mode_call {A} (h : hook) (f : B -> B * result A) :
  stable (@keeps_mode B) (call_hook h f).
Proof. intros w. unfold call_hook. destruct (f (source w)). repeat split. Qed.

#[export] Instance finish_ledger_pre : PreOrder (@finish_ledger B).
Proof.
  split.
  - intros w. exists []. rewrite app_nil_r. simpl. split; [reflexivity | lia].
  - intros a b c [e1 [L1 F1]] [e2 [L2 F2]]. exists (e1 ++ e2).
    rewrite L2, L1, app_assoc. split; [reflexivity |].
    assert (H : forall x y, finished_notifications (x ++ y)
                            = finished_notifications x + finished_notifications y).
    { induction x as [| [h | ds c0 v cpl s |] x IH]; intros y;
        cbn [finished_notifications app]; rewrite ?IH; lia. }
    rewrite H. lia.
Qed.

Lemma ledger_modify (f : AcquisitionTask -> AcquisitionTask) :
  (forall t, finished (f t) = finished t) ->
  stable (@finish_ledger B) (modify_task f).
Proof.
  intros Hf w. exists []. simpl. rewrite app_nil_r, Hf. split; [reflexivity | lia].
Qed.

Lemma ledger_call {A} (h : hook) (f : B -> B * result A) :
  stable (@finish_ledger B) (call_hook h f).
Proof.
  intros w. unfold call_hook. destruct (f (source w)).
  exists [Call h]. simpl. split; [reflexivity | lia].
Qed.

#[export] Instance keeps_started_pre : PreOrder (@keeps_started B).
Proof. split; unfold keeps_started; [intros w | intros a b c]; congruence. Qed.

Lemma started_modify (f : AcquisitionTask -> AcquisitionTask) :
  (forall t, started (f t) = started t) ->
  stable (@keeps_started B) (modify_task f).
Proof. intros Hf w. exact (Hf (task w)). Qed.

Lemma started_fire (e : event) : stable (@keeps_started B) (fire e).
Proof. intros w. reflexivity. Qed.

Lemma started_call {A} (h : hook) (f : B -> B * result A) :
  stable (@keeps_started B) (call_hook h f).
Proof. intros w. unfold call_hook. destruct (f (source w)). reflexivity. Qed.

#[export] Instance stays_aborted_pre : PreOrder (@stays_aborted B).
Proof. split; unfold stays_aborted; [intros w | intros a b c]; auto. Qed.

Lemma aborted_modify (f : AcquisitionTask -> AcquisitionTask) :
  (forall t, aborted t = true -> aborted (f t) = true) ->
  stable (@stays_aborted B) (modify_task f).
Proof. intros Hf w. exact (Hf (task w)). Qed.

Lemma aborted_fire (e : event) : stable (@stays_aborted B) (fire e).
Proof. intros w H. exact H. Qed.

Lemma aborted_call {A} (h : hook) (f : B -> B * result A) :
  stable (@stays_aborted B) (call_hook h f).
Proof. intros w H. unfold call_hook. destruct (f (source w)). exact H. Qed.

#[export] Instance keeps_life_pre : PreOrder (@keeps_life B).
Proof.
  split.
  - intros w. split; reflexivity.
  - intros a b c [A1 A2] [B1 B2]. split; congruence.
Qed.

Lemma life_modify (f : AcquisitionTask -> AcquisitionTask) :
  (forall t, started (f t) = started t /\ finished (f t) = finished t) ->
  stable (@keeps_life B) (modify_task f).
Proof. intros Hf w. exact (Hf (task w)). Qed.

Lemma life_call {A} (h : hook) (f : B -> B * result A) :
  stable (@keeps_life B) (call_hook h f).
Proof. intros w. unfold call_hook. destruct (f (source w)). split; reflexivity. Qed.

End TaskExtras.

#[export] Hint Resolve mode_fire mode_call ledger_call : stable.
#[export] Hint Extern 1 (stable keeps_mode (modify_task _)) =>
  apply mode_modify; intros; repeat split : stable.
#[export] Hint Extern 1 (stable finish_ledger (modify_task _)) =>
  apply ledger_modify; intros; reflexivity : stable.
#[export] Hint Resolve started_fire started_call life_call aborted_fire aborted_call
  : stable.
#[export] Hint Extern 1 (stable stays_aborted (modify_task _)) =>
  apply aborted_modify; intros; solve [assumption | reflexivity] : stable.
#[export] Hint Extern 1 (stable keeps_started (modify_task _)) =>
  apply started_modify; intros; reflexivity : stable.
#[export] Hint Extern 1 (stable keeps_life (modify_task _)) =>
  apply life_modify; intros; split; reflexivity : stable.

Section TaskExtras2.

Context {B : Type} {HS : HardwareSource B}.

Lemma suspend_suspended (w : world B) :
  is_suspended (task w) = true -> suspend w = (w, Ok true).
Proof. intros H. unfold suspend, bind, get_task. rewrite H. reflexivity. Qed.

(** What [suspend] does to a task that is not suspended. *)
Lemma suspend_running (w : world B) :
  is_suspended (task w) = false ->
  suspend w =
    if hardware_source (task w) then
      ({| task := set_data_elements None (set_is_suspended true (task w));
          source := fst (suspend_acquisition (source w));
          log := log w ++ [Call suspend_hook] |},
       snd (suspend_acquisition (source w)))
    else
      ({| task := set_data_elements None (set_is_suspended true (task w));
          source := source w; log := log w |}, Ok false).
Proof.
  intros H. unfold suspend, _suspend_acquisition, bind, get_task, modify_task,
    call_hook, ret.
  rewrite H. simpl. destruct (hardware_source (task w)); simpl; [| reflexivity].
  destruct (suspend_acquisition (source w)) as [b [ok | e]]; reflexivity.
Qed.

(** X1.  After [suspend] the task is flagged suspended, also when the
    suspend hook raised, and a further [suspend] returns True without
    calling the hook or changing anything. *)
Theorem suspend_is_idempotent (w : world B) :
  is_suspended (task (fst (suspend w))) = true /\
  suspend (fst (suspend w)) = (fst (suspend w), Ok true).
Proof.
  assert (H : is_suspended (task (fst (suspend w))) = true).
  { destruct (is_suspended (task w)) eqn:E.
    - rewrite (suspend_suspended w E). exact E.
    - rewrite (suspend_running w E). destruct (hardware_source (task w)); reflexivity. }
  split; [exact H | exact (suspend_suspended _ H)].
Qed.

(** The step of a running task once its acquisition has returned. *)
Lemma step_after_acquire (w w3 : world B) (complete : bool) :
  finished (task w) = false -> aborted (task w) = false ->
  __execute_acquire_data_elements w = (w3, Ok complete) ->
  step_unless_finished w =
    if complete && (is_stopping (task w3) || negb (is_continuous (task w3)))
    then try_except (_stop_acquisition ;; __mark_as_finished)
                    (fun e => __mark_as_finished ;; raise e) w3
    else (w3, Ok tt).
Proof.
  intros Hf Ha Hacq. rewrite (step_running w Hf Ha).
  unfold try_except, bind at 1 2. rewrite Hacq. cbn [get_task].
  destruct (complete && _); reflexivity.
Qed.

Lemma step_log_after_acquire (w w3 : world B) (complete : bool) :
  finished (task w) = false -> aborted (task w) = false ->
  __execute_acquire_data_elements w = (w3, Ok complete) ->
  exists rest, log (fst (step_unless_finished w)) = log w3 ++ rest.
Proof.
  intros Hf Ha Hacq. rewrite (step_after_acquire w w3 complete Hf Ha Hacq).
  destruct (complete && _).
  - destruct (stop_and_finish w3) as [b' E]. rewrite E. cbn [log]. eexists. reflexivity.
  - exists []. cbn. now rewrite app_nil_r.
Qed.

(** X2.  Suspending drops the partial frame.  A started, running task with a
    buffer is suspended; on the next [execute] the resume hook is called and
    what the hardware source delivers is announced as delivered (stamped
    with the frame index), not merged with what was buffered before. *)
Theorem suspend_discards_partial_frame (w : world B) (b1 b2 b3 : B)
    (r1 : result bool) (delivered : list DataElement) :
  hardware_source (task w) = true -> started (task w) = true ->
  is_suspended (task w) = false ->
  finished (task w) = false -> aborted (task w) = false ->
  suspend_acquisition (source w) = (b1, r1) ->
  resume_acquisition b1 = (b2, Ok tt) ->
  acquire_data_elements b2 = (b3, Ok (Some delivered)) ->
  exists rest,
    log (fst (execute (fst (suspend w))))
      = log w ++ [Call suspend_hook; Call resume_hook; Call acquire_hook;
                  DataElementsChanged
                    (map (setdefault_frame_index (frame_index (task w))) delivered)
                    (is_continuous (task w)) (view_id (task w))
                    (all_complete
                       (map (setdefault_frame_index (frame_index (task w))) delivered))
                    (is_stopping (task w))]
        ++ rest.
Proof.
  intros Hhs Hst Hsus Hfin Hab Es Er Ea.
  rewrite (suspend_running w Hsus), Hhs, Es. cbn [fst snd].
  set (w1 := {| task := set_data_elements None (set_is_suspended true (task w));
                source := b1; log := log w ++ [Call suspend_hook] |}).
  set (w2 := {| task := set_is_suspended false (set_data_elements None (task w1));
                source := b2; log := log w1 ++ [Call resume_hook] |}).
  assert (E1 : execute w1 = step_unless_finished w2).
  { unfold execute. unfold bind at 1.
    rewrite (start_if_needed_started w1 Hst). unfold bind.
    rewrite (resume_if_suspended_suspended w1 Hhs eq_refl).
    cbn [source w1]. rewrite Er. reflexivity. }
  rewrite E1.
  pose proof (acquire_delivered w2 b3 delivered Hhs Ea) as E2.
  cbv zeta in E2. cbn [task w2 w1 data_elements set_is_suspended set_data_elements
                       merge frame_index] in E2.
  destruct (step_log_after_acquire w2 _ _ Hfin Hab E2) as [rest Hrest].
  exists rest. rewrite Hrest. subst w2 w1. cbn [log task].
  rewrite <- !app_assoc. reflexivity.
Qed.

(** *** Exceptions *)

Lemma mode_start : stable (@keeps_mode B) (@__start B HS).
Proof. unfold __start, _start_acquisition, abort. stable_auto. Qed.

Lemma mode_step_body :
  stable (@keeps_mode B)
    (t <- get_task ;;
     if aborted t then
       _abort_acquisition ;; _mark_acquisition ;; _stop_acquisition ;;
       @__mark_as_finished B
     else
       complete <- @__execute_acquire_data_elements B HS ;;
       t <- get_task ;;
       if complete && (is_stopping t || negb (is_continuous t)) then
         _stop_acquisition ;; __mark_as_finished
       else ret tt).
Proof.
  unfold _abort_acquisition, _mark_acquisition, _stop_acquisition,
    __mark_as_finished, __execute_acquire_data_elements, _acquire_data_elements.
  stable_auto.
Qed.

(** A [try] whose handler marks the task finished and raises again: when it
    raises, the task is finished and has just fired its two last
    notifications. *)
Lemma try_except_mark_raises {A} (c : M B A) (w : world B) (e : exn) :
  stable (@keeps_mode B) c ->
  snd (try_except c (fun e => __mark_as_finished ;; raise e) w) = Raise e ->
  finished (task (fst (try_except c (fun e => __mark_as_finished ;; raise e) w)))
    = true /\
  exists l,
    log (fst (try_except c (fun e => __mark_as_finished ;; raise e) w))
      = l ++ [DataElementsChanged [] (is_continuous (task w)) (view_id (task w))
                                  false (is_stopping (task w));
              FinishedEvent].
Proof.
  intros Hc. unfold try_except. pose proof (Hc w) as [M1 [M2 [M3 _]]].
  destruct (c w) as [w0 [a | e0]]; cbn [fst snd] in *; [discriminate |].
  intros _. unfold __mark_as_finished, bind, get_task, modify_task, fire, raise.
  cbn. rewrite M1, M2, M3. split; [reflexivity |].
  exists (log w0). rewrite <- app_assoc. reflexivity.
Qed.

Lemma suspended_start_if_needed : stable (@keeps_suspended B) (@start_if_needed B HS).
Proof.
  unfold start_if_needed, __start, _start_acquisition, abort, __mark_as_finished.
  stable_auto.
Qed.

Lemma mode_start_if_needed : stable (@keeps_mode B) (@start_if_needed B HS).
Proof.
  unfold start_if_needed, __start, _start_acquisition, abort, __mark_as_finished.
  stable_auto.
Qed.

Lemma execute_raise_finishes (w : world B) (e : exn) :
  is_suspended (task w) = false ->
  snd (execute w) = Raise e ->
  finished (task (fst (execute w))) = true /\
  exists l,
    log (fst (execute w))
      = l ++ [DataElementsChanged [] (is_continuous (task w)) (view_id (task w))
                                  false (is_stopping (task w));
              FinishedEvent].
Proof.
  intros Hsus.
  assert (E : execute w =
              match start_if_needed w with
              | (w1, Ok _) => (resume_if_suspended ;; step_unless_finished) w1
              | (w1, Raise e1) => (w1, Raise e1)
              end) by reflexivity.
  rewrite E. clear E.
  destruct (start_if_needed w) as [w1 [[] | e1]] eqn:E1.
  - pose proof (suspended_start_if_needed w) as [S1 _].
    pose proof (mode_start_if_needed w) as [M1 [M2 [M3 _]]].
    rewrite E1 in S1, M1, M2, M3. cbn [fst] in S1, M1, M2, M3.
    unfold bind. rewrite (resume_if_suspended_running w1) by congruence.
    destruct (finished (task w1)) eqn:F1.
    + rewrite (step_finished w1 F1). discriminate.
    + assert (E2 : step_unless_finished w1 =
                   try_except
                     (t <- get_task ;;
                      if aborted t then
                        _abort_acquisition ;; _mark_acquisition ;;
                        _stop_acquisition ;; __mark_as_finished
                      else
                        complete <- __execute_acquire_data_elements ;;
                        t <- get_task ;;
                        if complete && (is_stopping t || negb (is_continuous t)) then
                          _stop_acquisition ;; __mark_as_finished
                        else ret tt)
                     (fun e => __mark_as_finished ;; raise e) w1).
      { destruct w1 as [[hs st fin sus ab stp cont fi vid de] b l].
        simpl in F1. subst. reflexivity. }
      rewrite E2. intros Hr. rewrite <- M1, <- M2, <- M3.
      exact (try_except_mark_raises _ w1 e mode_step_body Hr).
  - intros Hr. cbn [snd] in Hr. injection Hr as ->.
    destruct (started (task w)) eqn:St.
    + rewrite (start_if_needed_started w St) in E1. discriminate.
    + assert (E0 : start_if_needed w =
                   match try_except __start (fun e => __mark_as_finished ;; raise e) w with
                   | (w0, Ok _) => modify_task (set_started true) w0
                   | (w0, Raise e0) => (w0, Raise e0)
                   end).
      { destruct w as [[hs st fin sus ab stp cont fi vid de] b l].
        simpl in St. subst. reflexivity. }
      rewrite E0 in E1.
      pose proof (try_except_mark_raises __start w e mode_start) as H.
      destruct (try_except __start _ w) as [w0 [[] | e0]]; [discriminate |].
      injection E1 as <- <-. exact (H eq_refl).
Qed.

(** X3.  An exception that leaves [execute] on a task that is not suspended
    finishes the task: afterwards the task is finished, and the last things
    it fired are the data-changed notification with the empty list and the
    finished notification. *)
Theorem exception_finishes_task (w : world B) (e : exn) :
  is_suspended (task w) = false ->
  snd (execute w) = Raise e ->
  finished (task (fst (execute w))) = true /\
  exists l,
    log (fst (execute w))
      = l ++ [DataElementsChanged [] (is_continuous (task w)) (view_id (task w))
                                  false (is_stopping (task w));
              FinishedEvent].
Proof. exact (execute_raise_finishes w e). Qed.


(** X4.  The one exception that does not finish the task: when the resume
    hook raises in [execute] of a started, suspended task, the exception
    leaves [execute] at once; the suspended flag is cleared and the buffer
    dropped, but the task is not marked finished and fires nothing. *)
Theorem resume_exception_leaves_task_unfinished (w : world B) (b1 : B) (e : exn) :
  hardware_source (task w) = true -> started (task w) = true ->
  is_suspended (task w) = true ->
  resume_acquisition (source w) = (b1, Raise e) ->
  execute w =
    ({| task := set_is_suspended false (set_data_elements None (task w));
        source := b1;
        log := log w ++ [Call resume_hook] |}, Raise e).
Proof.
  intros Hhs Hst Hsus Hr. unfold execute. unfold bind at 1.
  rewrite (start_if_needed_started w Hst). unfold bind.
  rewrite (resume_if_suspended_suspended w Hhs Hsus), Hr. reflexivity.
Qed.

(** *** The finished notification is fired once *)

Lemma ledger_mark (w : world B) :
  finished (task w) = false -> finish_ledger w (fst (__mark_as_finished w)).
Proof.
  intros Hf. unfold __mark_as_finished, bind, get_task, modify_task, fire. cbn.
  eexists. rewrite <- app_assoc. split; [reflexivity |]. cbn. rewrite Hf. reflexivity.
Qed.

Lemma ledger_resume_if_suspended :
  stable (@finish_ledger B) (@resume_if_suspended B HS).
Proof. unfold resume_if_suspended, resume, _resume_acquisition. stable_auto. Qed.

Lemma ledger_step (w : world B) : finish_ledger w (fst (step_unless_finished w)).
Proof.
  destruct w as [[hs st fin sus ab stp cont fi vid de] b l].
  unfold finish_ledger, step_unless_finished, try_except, _abort_acquisition,
    _mark_acquisition, _stop_acquisition, __mark_as_finished,
    __execute_acquire_data_elements, _acquire_data_elements, assert, bind,
    get_task, modify_task, call_hook, fire, raise, ret.
  cbn [task source log finished aborted hardware_source negb].
  destruct fin; cbn; [exists []; rewrite app_nil_r; split; reflexivity |].
  destruct ab, hs; cbn;
    repeat match goal with
      | |- context [let (_, _) := ?x in _] =>
          lazymatch x with
          | context [match _ with _ => _ end] => fail
          | _ => destruct x as [? [? | ?]]; cbn
          end
      | |- context [match ?x with Some _ => _ | None => _ end] =>
          lazymatch x with
          | context [match _ with _ => _ end] => fail
          | _ => destruct x; cbn
          end
      | |- context [match merge ?a ?b with _ => _ end] => destruct (merge a b); cbn
      | |- context [if all_complete ?m then _ else _] => destruct (all_complete m); cbn
      | |- context [if ?c then _ else _] => destruct c; cbn
      end;
    rewrite <- ?app_assoc;
    try (eexists; split; [reflexivity | reflexivity]);
    try (exists []; rewrite app_nil_r; split; reflexivity).
Qed.

(** With a start hook that returns, the first part of [execute] returns,
    leaves the task started and fires nothing. *)
Lemma start_if_needed_returns (w : world B) :
  returns start_acquisition ->
  snd (start_if_needed w) = Ok tt /\
  started (task (fst (start_if_needed w))) = true /\
  finished (task (fst (start_if_needed w))) = finished (task w) /\
  finish_ledger w (fst (start_if_needed w)).
Proof.
  intros Rstart.
  destruct w as [[hs st fin sus ab stp cont fi vid de] b l].
  unfold finish_ledger, start_if_needed, try_except, __start, _start_acquisition,
    abort, bind, get_task, modify_task, call_hook, ret.
  cbn [task source log started hardware_source negb].
  destruct st; cbn.
  { repeat split. exists []. rewrite app_nil_r. split; [reflexivity |].
    destruct fin; reflexivity. }
  destruct hs; cbn.
  - destruct (Rstart b) as [b1 [ok E]]. rewrite E. cbn.
    destruct ok; cbn; repeat split; exists [Call start_hook];
      (split; [reflexivity | destruct fin; reflexivity]).
  - repeat split. exists []. rewrite app_nil_r. split; [reflexivity |].
    destruct fin; reflexivity.
Qed.

Lemma started_step : stable (@keeps_started B) (@step_unless_finished B HS).
Proof.
  unfold step_unless_finished, __mark_as_finished, _abort_acquisition,
    _mark_acquisition, _stop_acquisition,
    __execute_acquire_data_elements, _acquire_data_elements.
  stable_auto.
Qed.

Lemma life_suspend : stable (@keeps_life B) (@suspend B HS).
Proof. unfold suspend, _suspend_acquisition. stable_auto. Qed.

Lemma life_resume : stable (@keeps_life B) (@resume B HS).
Proof. unfold resume, _resume_acquisition. stable_auto. Qed.

Lemma life_stop : stable (@keeps_life B) (@stop B HS).
Proof. unfold stop, _mark_acquisition. stable_auto. Qed.

Lemma ledger_suspend : stable (@finish_ledger B) (@suspend B HS).
Proof. unfold suspend, _suspend_acquisition. stable_auto. Qed.

Lemma ledger_resume : stable (@finish_ledger B) (@resume B HS).
Proof. unfold resume, _resume_acquisition. stable_auto. Qed.

Lemma ledger_stop : stable (@finish_ledger B) (@stop B HS).
Proof. unfold stop, _mark_acquisition. stable_auto. Qed.

Lemma ledger_perform (c : call) (w : world B) :
  returns start_acquisition ->
  (finished (task w) = true -> started (task w) = true) ->
  finish_ledger w (perform c w) /\
  (finished (task (perform c w)) = true -> started (task (perform c w)) = true).
Proof.
  intros Rstart J. destruct c; cbn [perform].
  - destruct (start_if_needed_returns w Rstart) as [R1 [S1 [F1 L1]]].
    assert (E : execute w
                = (resume_if_suspended ;; step_unless_finished)
                    (fst (start_if_needed w))).
    { unfold execute. unfold bind at 1.
      destruct (start_if_needed w) as [w1 [[] | e]]; [reflexivity | discriminate]. }
    rewrite E. set (w1 := fst (start_if_needed w)) in *.
    pose proof (ledger_resume_if_suspended w1) as L2.
    pose proof (flags_resume_if_suspended w1) as [F2 _].
    assert (S2 : started (task (fst (resume_if_suspended w1))) = true)
      by (unfold flags in F2; congruence).
    unfold bind. destruct (resume_if_suspended w1) as [w2 [[] | e]]; cbn [fst] in *.
    + pose proof (ledger_step w2) as L3.
      pose proof (started_step w2) as S3. unfold keeps_started in S3.
      split; [transitivity w1; [exact L1 | transitivity w2; assumption] |].
      intros _. rewrite S3. exact S2.
    + split; [transitivity w1; assumption | intros _; exact S2].
  - split.
    + apply ledger_suspend.
    + destruct (life_suspend w) as [-> ->]. exact J.
  - split.
    + apply ledger_resume.
    + destruct (life_resume w) as [-> ->]. exact J.
  - split.
    + apply ledger_stop.
    + destruct (life_stop w) as [-> ->]. exact J.
  - split; [| exact J].
    exists []. cbn. rewrite app_nil_r. split; [reflexivity | lia].
Qed.

(** X5.  The finished notification is fired exactly once.  With a start
    hook that does not raise, whatever calls are made on a task that is not
    finished, the number of finished notifications fired meanwhile is 1 if
    the task has become finished and 0 if it has not. *)
Theorem finished_notification_fired_once (cs : list call) (w : world B) :
  returns start_acquisition ->
  finished (task w) = false ->
  exists evs,
    log (perform_all cs w) = log w ++ evs /\
    finished_notifications evs
      = if finished (task (perform_all cs w)) then 1 else 0.
Proof.
  intros Rstart Hf.
  assert (H : forall cs w,
             (finished (task w) = true -> started (task w) = true) ->
             finish_ledger w (perform_all cs w)).
  { clear cs w Hf. induction cs as [| c cs IH]; intros w J; cbn [perform_all fold_left].
    - reflexivity.
    - destruct (ledger_perform c w Rstart J) as [L J'].
      transitivity (perform c w); [exact L | exact (IH _ J')]. }
  destruct (H cs w) as [evs [L F]]; [congruence |].
  exists evs. split; [exact L |]. rewrite F, Hf. unfold Z_of_bool.
  destruct (finished (task (perform_all cs w))); reflexivity.
Qed.

(** *** Aborting *)

Lemma aborted_start_if_needed : stable (@stays_aborted B) (@start_if_needed B HS).
Proof.
  unfold start_if_needed, __start, _start_acquisition, abort, __mark_as_finished.
  stable_auto.
Qed.

(** [execute] of an aborted, unfinished task whose hooks return: it
    finishes the task and returns, and the last things fired are the two
    final notifications. *)
Lemma execute_aborted_finishes (w : world B) :
  hardware_source (task w) = true ->
  finished (task w) = false -> aborted (task w) = true ->
  returns start_acquisition -> returns resume_acquisition ->
  returns abort_acquisition -> returns mark_acquisition -> returns stop_acquisition ->
  snd (execute w) = Ok tt /\
  finished (task (fst (execute w))) = true /\
  exists l,
    log (fst (execute w))
      = log w ++ l ++ [DataElementsChanged [] (is_continuous (task w))
                         (view_id (task w)) false (is_stopping (task w));
                       FinishedEvent] /\
    forall e, In e l -> is_notification e = false.
Proof.
  intros Hhs Hfin Hab Rstart Rresume Rabort Rmark Rstop.
  destruct (start_if_needed_returns w Rstart) as [R1 [_ [F1 _]]].
  pose proof (aborted_start_if_needed w Hab) as A1.
  pose proof (mode_start_if_needed w) as [M1 [M2 [M3 M4]]].
  assert (L1 : exists l1, log (fst (start_if_needed w)) = log w ++ l1 /\
                          forall e, In e l1 -> is_notification e = false).
  { destruct w as [[hs st fin sus ab stp cont fi vid de] b l].
    unfold start_if_needed, try_except, __start, _start_acquisition,
      abort, bind, get_task, modify_task, call_hook, ret.
    cbn [task source log started hardware_source negb] in *. subst.
    destruct st; cbn.
    - exists []. rewrite app_nil_r. split; [reflexivity | intros e []].
    - destruct (Rstart b) as [b1 [ok E]]. rewrite E. cbn.
      destruct ok; cbn; exists [Call start_hook];
        (split; [reflexivity | intros e [<- | []]; reflexivity]). }
  destruct L1 as [l1 [L1 N1]].
  assert (E : execute w
              = (resume_if_suspended ;; step_unless_finished)
                  (fst (start_if_needed w))).
  { unfold execute. unfold bind at 1.
    destruct (start_if_needed w) as [w1 [[] | e]]; [reflexivity | discriminate]. }
  rewrite E. set (w1 := fst (start_if_needed w)) in *.
  assert (Hhs1 : hardware_source (task w1) = true) by congruence.
  assert (Hfin1 : finished (task w1) = false) by congruence.
  destruct (resume_then_abort w1 Hhs1 Hfin1 A1 (fun _ => Rresume) Rabort Rmark Rstop)
    as [b' E2].
  rewrite E2. cbn [fst snd task log]. split; [reflexivity |]. split; [reflexivity |].
  rewrite M1, M2, M3, L1.
  exists (l1 ++ (if is_suspended (task w1) then [Call resume_hook] else [])
             ++ [Call abort_hook; Call mark_hook; Call stop_hook]).
  split.
  - rewrite <- !app_assoc. reflexivity.
  - intros e He. apply in_app_or in He. destruct He as [He | He]; [exact (N1 e He) |].
    apply in_app_or in He. destruct He as [He | He].
    + destruct (is_suspended (task w1)); [| destruct He].
      destruct He as [<- | []]. reflexivity.
    + repeat (destruct He as [<- | He]; [reflexivity |]). destruct He.
Qed.

(** *** Suspended before the start *)

(** X22.  A task suspended before its first [execute], as a view installed
    while a record task runs, is first started and then resumed: with hooks
    that return, [execute] calls the start hook, then the resume hook, then
    acquires, and announces what is delivered. *)
Theorem suspended_before_start_is_started_then_resumed (w : world B) (b1 b2 b3 : B)
    (delivered : list DataElement) :
  hardware_source (task w) = true -> started (task w) = false ->
  is_suspended (task w) = true ->
  finished (task w) = false -> aborted (task w) = false ->
  start_acquisition (source w) = (b1, Ok true) ->
  resume_acquisition b1 = (b2, Ok tt) ->
  acquire_data_elements b2 = (b3, Ok (Some delivered)) ->
  is_suspended (task (fst (execute w))) = false /\
  started (task (fst (execute w))) = true /\
  exists rest,
    log (fst (execute w))
      = log w ++ [Call start_hook; Call resume_hook; Call acquire_hook;
                  DataElementsChanged
                    (map (setdefault_frame_index (frame_index (task w))) delivered)
                    (is_continuous (task w)) (view_id (task w))
                    (all_complete
                       (map (setdefault_frame_index (frame_index (task w))) delivered))
                    (is_stopping (task w))]
        ++ rest.
Proof.
  intros Hhs Hst Hsus Hfin Hab Es Er Ea.
  set (w1 := {| task := set_started true (set_data_elements None (task w));
                source := b1; log := log w ++ [Call start_hook] |}).
  set (w2 := {| task := set_is_suspended false (set_data_elements None (task w1));
                source := b2; log := log w1 ++ [Call resume_hook] |}).
  assert (E1 : execute w = step_unless_finished w2).
  { unfold execute. unfold bind at 1.
    assert (E0 : start_if_needed w = (w1, Ok tt)).
    { unfold start_if_needed, try_except, __start, _start_acquisition, bind,
        get_task, modify_task, call_hook, ret.
      rewrite Hst. cbn. rewrite Hhs. cbn. rewrite Es. reflexivity. }
    rewrite E0. unfold bind.
    rewrite (resume_if_suspended_suspended w1 Hhs Hsus).
    cbn [source w1]. rewrite Er. reflexivity. }
  rewrite E1.
  pose proof (acquire_delivered w2 b3 delivered Hhs Ea) as E2.
  cbv zeta in E2. cbn [task w2 w1 data_elements set_is_suspended set_data_elements
                       set_started merge frame_index] in E2.
  destruct (suspended_step w2) as [S2 _].
  pose proof (started_step w2) as T2. unfold keeps_started in T2.
  destruct (step_log_after_acquire w2 _ _ Hfin Hab E2) as [rest Hrest].
  split; [rewrite S2; reflexivity |]. split; [rewrite T2; reflexivity |].
  exists rest. rewrite Hrest. subst w2 w1. cbn [log task].
  rewrite <- !app_assoc. reflexivity.
Qed.

End TaskExtras2.

Lemma suspend_discards_partial_frame_witness :
  exists rest,
    log (fst (@execute _ (ScriptedHardwareSource obliging)
                (fst (@suspend _ (ScriptedHardwareSource obliging)
                        example_partial_world))))
      = [Call suspend_hook; Call resume_hook; Call acquire_hook;
         DataElementsChanged [setdefault_frame_index 0 top_band]
                             true "source" false false] ++ rest.
Proof.
  exact (@suspend_discards_partial_frame _ (ScriptedHardwareSource obliging)
           example_partial_world _ _ _ _ _
           eq_refl eq_refl eq_refl eq_refl eq_refl eq_refl eq_refl eq_refl).
Defined.

Lemma exception_finishes_task_witness :
  finished (task (fst (@execute _ (ScriptedHardwareSource obliging)
                         (mid_frame buffered_band
                            (band (frame 16 20 2) ((12, 0), (4, 20)) "partial")))))
    = true.
Proof.
  exact (proj1 (@exception_finishes_task _ (ScriptedHardwareSource obliging)
                  (mid_frame buffered_band
                     (band (frame 16 20 2) ((12, 0), (4, 20)) "partial"))
                  AssertionError eq_refl eq_refl)).
Defined.

Lemma resume_exception_leaves_task_unfinished_witness :
  finished (task (fst (@execute _ (ScriptedHardwareSource
                                     (resuming (Raise (BackendError "busy"))))
                         suspended_world))) = false /\
  snd (@execute _ (ScriptedHardwareSource (resuming (Raise (BackendError "busy"))))
         suspended_world) = Raise (BackendError "busy").
Proof.
  rewrite (@resume_exception_leaves_task_unfinished _
             (ScriptedHardwareSource (resuming (Raise (BackendError "busy"))))
             suspended_world _ (BackendError "busy") eq_refl eq_refl eq_refl eq_refl).
  split; reflexivity.
Defined.

Lemma obliging_start_returns :
  returns (@start_acquisition _ (ScriptedHardwareSource obliging)).
Proof. intros b. exists b, true. reflexivity. Defined.

Lemma finished_notification_fired_once_witness :
  exists evs,
    log (@perform_all _ (ScriptedHardwareSource obliging)
           [CallExecute; CallStop; CallExecute; CallAbort; CallExecute]
           (new_world view_task [Ok (Some [buffered_band]); Ok (Some [whole_frame])]))
      = [] ++ evs /\
    finished_notifications evs = 1.
Proof.
  exact (@finished_notification_fired_once _ (ScriptedHardwareSource obliging)
           [CallExecute; CallStop; CallExecute; CallAbort; CallExecute]
           (new_world view_task [Ok (Some [buffered_band]); Ok (Some [whole_frame])])
           obliging_start_returns eq_refl).
Defined.

(** * The frame index, aborting and stopping *)

Section FrameIndex.

Context {B : Type} {HS : HardwareSource B}.

#[export] Instance keeps_frame_index_pre : PreOrder (@keeps_frame_index B).
Proof. split; unfold keeps_frame_index; [intros w | intros a b c]; congruence. Qed.

Lemma index_modify (f : AcquisitionTask -> AcquisitionTask) :
  (forall t, frame_index (f t) = frame_index t) ->
  stable (@keeps_frame_index B) (modify_task f).
Proof. intros Hf w. exact (Hf (task w)). Qed.

Lemma index_fire (e : event) : stable (@keeps_frame_index B) (fire e).
Proof. intros w. reflexivity. Qed.

Lemma index_call {A} (h : hook) (f : B -> B * result A) :
  stable (@keeps_frame_index B) (call_hook h f).
Proof. intros w. unfold call_hook. destruct (f (source w)). reflexivity. Qed.

End FrameIndex.

#[export] Hint Resolve index_fire index_call : stable.
#[export] Hint Extern 1 (stable keeps_frame_index (modify_task _)) =>
  apply index_modify; intros; reflexivity : stable.

Section CallsOfATask.

Context {B : Type} {HS : HardwareSource B}.

(** [execute] is its preparation followed by its step. *)
Lemma execute_prepare (w : world B) :
  execute w = match prepare w with
              | (w1, Ok _) => step_unless_finished w1
              | (w1, Raise e) => (w1, Raise e)
              end.
Proof.
  unfold execute, prepare, bind.
  destruct (start_if_needed w) as [w0 [[] | e]]; [| reflexivity].
  destruct (resume_if_suspended w0) as [w1 [[] | e]]; reflexivity.
Qed.

Lemma index_prepare : stable (@keeps_frame_index B) (@prepare B HS).
Proof.
  unfold prepare, start_if_needed, resume_if_suspended, __start, __mark_as_finished,
    resume, abort, _start_acquisition, _resume_acquisition.
  stable_auto.
Qed.



(** The step advances the frame index by one when it is taken on a task
    that is neither finished nor aborted and what it has to announce is a
    complete frame; in every other case it leaves the index alone. *)
Lemma index_step (w : world B) :
  frame_index (task (fst (step_unless_finished w)))
    = frame_index (task w)
      + Z_of_bool (negb (finished (task w)) && negb (aborted (task w)) &&
                   match announced w with
                   | Some merged => all_complete merged
                   | None => false
                   end).
Proof.
  destruct w as [[hs st fin sus ab stp cont fi vid de] b l].
  unfold step_unless_finished, try_except, __execute_acquire_data_elements,
    _acquire_data_elements, _abort_acquisition, _mark_acquisition, _stop_acquisition,
    __mark_as_finished, announced, bind, get_task, modify_task, call_hook, fire,
    assert, ret, raise.
  cbn [task source log finished aborted hardware_source data_elements frame_index
       is_stopping is_continuous view_id negb andb fst snd].
  destruct fin; cbn; [lia |].
  destruct ab; cbn.
  - destruct hs; cbn.
    + destruct (abort_acquisition b) as [b1 [[] | e1]]; cbn; [| lia].
      destruct (mark_acquisition b1) as [b2 [[] | e2]]; cbn; [| lia].
      destruct (stop_acquisition b2) as [b3 [[] | e3]]; cbn; lia.
    + lia.
  - destruct hs; cbn; [| lia].
    destruct (acquire_data_elements b) as [b1 [[ds |] | e]]; cbn; try lia.
    destruct (merge de (map (setdefault_frame_index fi) ds)) as [m | e]; cbn; [| lia].
    destruct (all_complete m); cbn; [| lia].
    destruct (stp || negb cont); cbn; [| lia].
    destruct (stop_acquisition b1) as [b2 [[] | e]]; cbn; lia.
Qed.

Lemma index_execute (w : world B) :
  frame_index (task (fst (execute w)))
    = frame_index (task w) + Z_of_bool (completes_frame w).
Proof.
  rewrite execute_prepare. unfold completes_frame.
  pose proof (index_prepare w) as H. unfold keeps_frame_index in H.
  destruct (prepare w) as [w1 [[] | e]]; cbn [fst] in *.
  - rewrite index_step, H. reflexivity.
  - cbn. lia.
Qed.

Lemma index_perform (c : call) (w : world B) :
  frame_index (task (perform c w))
    = frame_index (task w)
      + match c with
        | CallExecute => Z_of_bool (completes_frame w)
        | _ => 0
        end.
Proof.
  destruct c; cbn [perform].
  - apply index_execute.
  - rewrite Z.add_0_r. revert w. change (stable (@keeps_frame_index B) (@suspend B HS)).
    unfold suspend, _suspend_acquisition. stable_auto.
  - rewrite Z.add_0_r. revert w. change (stable (@keeps_frame_index B) (@resume B HS)).
    unfold resume, _resume_acquisition. stable_auto.
  - rewrite Z.add_0_r. revert w. change (stable (@keeps_frame_index B) (@stop B HS)).
    unfold stop, _mark_acquisition. stable_auto.
  - rewrite Z.add_0_r. revert w. change (stable (@keeps_frame_index B) (@abort B)).
    unfold abort. stable_auto.
Qed.


Lemma completes_frame_delivered (w w1 : world B) (b' : B)
    (delivered merged : list DataElement) :
  prepare w = (w1, Ok tt) ->
  finished (task w1) = false -> aborted (task w1) = false ->
  hardware_source (task w1) = true ->
  acquire_data_elements (source w1) = (b', Ok (Some delivered)) ->
  merge (data_elements (task w1))
        (map (setdefault_frame_index (frame_index (task w1))) delivered) = Ok merged ->
  completes_frame w = all_complete merged.
Proof.
  intros Hprep Hfin Hab Hhs Hacq Hmerge.
  unfold completes_frame, announced.
  rewrite Hprep, Hfin, Hab, Hhs, Hacq. cbn [snd negb andb]. rewrite Hmerge.
  reflexivity.
Qed.

(** C5 (monotonic frame index).  The frame index advances by exactly one per
    execution step whose delivery is complete, and never otherwise.
    - An [execute] that gets as far as its acquisition step and receives a
      delivery that merges advances the index by one when the merged
      delivery is complete and leaves it alone when it is not.
    - Every call: [suspend], [resume], [stop] and [abort] leave the index
      alone, and [execute] advances it by one exactly when it gets as far as
      the acquisition step and what that step has to announce is a complete
      frame; not when the task is finished or aborted, nor when the
      hardware source raises or delivers None, nor when the merge fails.
    - Hence after any sequence of calls the index is its value before the
      first call plus the number of calls that completed a frame, however
      many incomplete deliveries, failures and other calls lie in between,
    - and that number is the number of data-changed notifications announcing
      a complete frame that were fired meanwhile. *)
Theorem C5_frame_index_counts_complete_frames :
  (forall (w w1 : world B) (b' : B) (delivered merged : list DataElement),
     prepare w = (w1, Ok tt) ->
     finished (task w1) = false -> aborted (task w1) = false ->
     hardware_source (task w1) = true ->
     acquire_data_elements (source w1) = (b', Ok (Some delivered)) ->
     merge (data_elements (task w1))
           (map (setdefault_frame_index (frame_index (task w1))) delivered)
       = Ok merged ->
     frame_index (task (fst (execute w)))
       = frame_index (task w) + (if all_complete merged then 1 else 0)) /\
  (forall (c : call) (w : world B),
     frame_index (task (perform c w))
       = frame_index (task w)
         + match c with
           | CallExecute => if completes_frame w then 1 else 0
           | _ => 0
           end) /\
  (forall (cs : list call) (w : world B),
     frame_index (task (perform_all cs w))
       = frame_index (task w) + complete_deliveries cs w) /\
  (forall (cs : list call) (w : world B),
     exists evs,
       log (perform_all cs w) = log w ++ evs /\
       completed_frames evs = complete_deliveries cs w).
Proof.
  assert (Hrun : forall (cs : list call) (w : world B),
            frame_index (task (perform_all cs w))
              = frame_index (task w) + complete_deliveries cs w).
  { induction cs as [| c cs IH]; intros w; cbn [perform_all fold_left complete_deliveries].
    - lia.
    - change (fold_left (fun w c => perform c w) cs (perform c w))
        with (perform_all cs (perform c w)).
      rewrite IH, index_perform. lia. }
  split; [| split; [| split]].
  - intros w w1 b' delivered merged Hprep Hfin Hab Hhs Hacq Hmerge.
    rewrite index_execute.
    rewrite (completes_frame_delivered w w1 b' delivered merged) by assumption.
    reflexivity.
  - intros c w. rewrite index_perform. destruct c; reflexivity.
  - exact Hrun.
  - intros cs w.
    assert (H : frames_accounted w (perform_all cs w)).
    { revert w. induction cs as [| c cs IH]; intros w; simpl.
      - reflexivity.
      - transitivity (perform c w); [apply frames_perform | apply IH]. }
    destruct H as [evs [Hlog Hidx]]. exists evs. split; [exact Hlog |].
    specialize (Hrun cs w). lia.
Qed.


(** Resuming inside [execute] a task that has no hardware source: only the
    buffer is dropped and the flag cleared. *)
Lemma resume_if_suspended_no_source (w : world B) :
  hardware_source (task w) = false -> is_suspended (task w) = true ->
  resume_if_suspended w =
    ({| task := set_is_suspended false (set_data_elements None (task w));
        source := source w; log := log w |}, Ok tt).
Proof.
  intros Hhs Hs.
  unfold resume_if_suspended, resume, _resume_acquisition, try_finally, bind,
    get_task, modify_task, ret.
  rewrite Hs. cbn. rewrite Hhs. reflexivity.
Qed.

(** C6 (abort immediacy), as the code has it.  A started task that is not
    finished is aborted, and [execute] is called.
    - If the task is suspended, [execute] first calls the resume hook; when
      that hook raises, the exception leaves [execute] at once: no abort,
      mark or stop hook is called, nothing is fired and the task is not
      finished.
    - In every other case this [execute] finishes the task, and the only
      notifications it fires are one data-changed notification carrying the
      empty list, marked incomplete, and then the finished notification;
      this also when the abort, mark or stop hook raises.
    - With a hardware source whose hooks return, it calls the abort, mark
      and stop hooks in that order (after the resume hook when the task was
      suspended) and returns.
    - A task without a hardware source has no hook to call: [execute] fires
      the two notifications and returns. *)
Theorem C6_abort_immediacy (w0 : world B) :
  started (task w0) = true -> finished (task w0) = false ->
  let r := execute (fst (abort w0)) in
  let final := [DataElementsChanged [] (is_continuous (task w0)) (view_id (task w0))
                                    false (is_stopping (task w0));
                FinishedEvent] in
  (forall (b1 : B) (e : exn),
     hardware_source (task w0) = true -> is_suspended (task w0) = true ->
     resume_acquisition (source w0) = (b1, Raise e) ->
     snd r = Raise e /\
     finished (task (fst r)) = false /\ aborted (task (fst r)) = true /\
     log (fst r) = log w0 ++ [Call resume_hook]) /\
  ((hardware_source (task w0) = true -> is_suspended (task w0) = true ->
    exists b1, resume_acquisition (source w0) = (b1, Ok tt)) ->
     finished (task (fst r)) = true /\
     notifications (log (fst r)) = notifications (log w0) ++ final) /\
  (hardware_source (task w0) = true ->
   (is_suspended (task w0) = true -> returns resume_acquisition) ->
   returns abort_acquisition -> returns mark_acquisition -> returns stop_acquisition ->
     snd r = Ok tt /\
     log (fst r) = log w0
                   ++ (if is_suspended (task w0) then [Call resume_hook] else [])
                   ++ [Call abort_hook; Call mark_hook; Call stop_hook] ++ final) /\
  (hardware_source (task w0) = false ->
     snd r = Ok tt /\ log (fst r) = log w0 ++ final).
Proof.
  intros Hst Hfin. cbv zeta.
  set (w := fst (abort w0)).
  assert (Ex : execute w = (resume_if_suspended ;; step_unless_finished) w).
  { unfold execute. unfold bind at 1.
    rewrite (start_if_needed_started w Hst). reflexivity. }
  rewrite Ex. split; [| split; [| split]].
  - intros b1 e Hhs Hsus Hr. unfold bind.
    rewrite (resume_if_suspended_suspended w Hhs Hsus).
    change (source w) with (source w0). rewrite Hr.
    repeat split; try reflexivity. exact Hfin.
  - intros Hres. unfold bind.
    destruct (is_suspended (task w0)) eqn:Hsus.
    + destruct (hardware_source (task w0)) eqn:Hhs.
      * destruct (Hres eq_refl eq_refl) as [b1 Hr].
        rewrite (resume_if_suspended_suspended w Hhs Hsus).
        change (source w) with (source w0). rewrite Hr. cbn [fst snd].
        match goal with
        | |- context [step_unless_finished ?w1] =>
            destruct (step_aborted_finishes w1 Hfin eq_refl) as [F N]
        end.
        split; [exact F |]. rewrite N. cbn [log task w abort modify_task fst].
        rewrite notifications_app. cbn. rewrite app_nil_r. reflexivity.
      * rewrite (resume_if_suspended_no_source w Hhs Hsus).
        match goal with
        | |- context [step_unless_finished ?w1] =>
            destruct (step_aborted_finishes w1 Hfin eq_refl) as [F N]
        end.
        split; [exact F | exact N].
    + rewrite (resume_if_suspended_running w Hsus).
      destruct (step_aborted_finishes w Hfin eq_refl) as [F N].
      split; [exact F | exact N].
  - intros Hhs Rresume Rabort Rmark Rstop.
    destruct (resume_then_abort w Hhs Hfin eq_refl Rresume Rabort Rmark Rstop)
      as [b' E].
    rewrite E. split; reflexivity.
  - intros Hhs.
    destruct w0 as [[hs st fin sus ab stp cont fi vid de] b l].
    cbn in Hst, Hfin, Hhs. subst.
    unfold w, abort, bind, resume_if_suspended, step_unless_finished, try_except,
      try_finally, resume, _resume_acquisition, _abort_acquisition, _mark_acquisition,
      _stop_acquisition, __mark_as_finished, get_task, modify_task, fire, ret.
    destruct sus; cbn; rewrite <- ?app_assoc; split; reflexivity.
Qed.




End CallsOfATask.

Lemma C5_frame_index_counts_complete_frames_witness :
  (* one step that completes a frame *)
  frame_index (task (fst (@execute _ (ScriptedHardwareSource obliging)
                            (mid_frame buffered_band next_band)))) = 0 + 1 /\
  (* an incomplete delivery, two complete ones and a failing acquisition *)
  frame_index
    (task (@perform_all _ (ScriptedHardwareSource obliging)
             [CallExecute; CallExecute; CallExecute; CallExecute]
             (new_world view_task [Ok (Some [buffered_band]); Ok (Some [next_band]);
                                   Ok (Some [whole_frame])]))) = 0 + 2.
Proof.
  split.
  - exact (proj1 (@C5_frame_index_counts_complete_frames _
                    (ScriptedHardwareSource obliging))
             (mid_frame buffered_band next_band) (mid_frame buffered_band next_band)
             [] [next_band] _ eq_refl eq_refl eq_refl eq_refl eq_refl eq_refl).
  - exact (proj1 (proj2 (proj2 (@C5_frame_index_counts_complete_frames _
                                  (ScriptedHardwareSource obliging))))
             [CallExecute; CallExecute; CallExecute; CallExecute]
             (new_world view_task [Ok (Some [buffered_band]); Ok (Some [next_band]);
                                   Ok (Some [whole_frame])])).
Defined.

Lemma C6_abort_immediacy_witness :
  let w0 := mid_frame buffered_band next_band in
  let r := @execute _ (ScriptedHardwareSource obliging)
             (fst (@abort script w0)) in
  snd r = Ok tt /\ finished (task (fst r)) = true /\
  log (fst r) = [Call abort_hook; Call mark_hook; Call stop_hook;
                 DataElementsChanged [] true "source" false false;
                 FinishedEvent].
Proof.
  cbv zeta.
  pose proof (@C6_abort_immediacy _ (ScriptedHardwareSource obliging)
                (mid_frame buffered_band next_band) eq_refl eq_refl)
    as [_ [Hfin [Hlog _]]].
  cbv zeta in Hfin, Hlog.
  split; [| split].
  - exact (proj1 (Hlog eq_refl
                    (fun _ => proj2 (proj2 (proj2 obliging_returns)))
                    (proj1 obliging_returns)
                    (proj1 (proj2 obliging_returns))
                    (proj1 (proj2 (proj2 obliging_returns))))).
  - refine (proj1 (Hfin _)). intros _ H. discriminate H.
  - exact (proj2 (Hlog eq_refl
                    (fun _ => proj2 (proj2 (proj2 obliging_returns)))
                    (proj1 obliging_returns)
                    (proj1 (proj2 obliging_returns))
                    (proj1 (proj2 (proj2 obliging_returns))))).
Defined.

(** C6 as the specification words it fails: a started, unfinished task that
    is suspended is aborted; its resume hook raises.  The very next
    [execute] raises after calling the resume hook only: the abort, mark and
    stop hooks are not run, nothing is fired and the task is not finished. *)
Lemma C6_counterexample :
  let HS := ScriptedHardwareSource (resuming (Raise (BackendError "no beam"))) in
  let w0 := suspended_world in
  let r := @execute _ HS (fst (@abort script w0)) in
  started (task w0) = true /\ finished (task w0) = false /\
  snd r = Raise (BackendError "no beam") /\
  finished (task (fst r)) = false /\
  log (fst r) = [Call resume_hook].
Proof. cbv zeta. repeat split; reflexivity. Qed.


(** * Further properties of the merge *)

(** X6.  The merge keeps the channels of the delivery: when it succeeds on a
    non-empty delivery the result has as many elements as were delivered,
    and the channels delivered beyond those buffered are passed through
    unchanged. *)
Theorem merge_keeps_delivered_channels
    (partial_data_elements data_elements merged : list DataElement) :
  merge_zip partial_data_elements data_elements = Ok merged ->
  List.length merged = List.length partial_data_elements /\
  skipn (List.length data_elements) merged
    = skipn (List.length data_elements) partial_data_elements.
Proof.
  revert data_elements merged.
  induction partial_data_elements as [| p ps IH]; intros ds merged H.
  - destruct ds; cbn in H; injection H as <-; split; reflexivity.
  - destruct ds as [| d ds]; cbn in H.
    + injection H as <-. split; reflexivity.
    + destruct (merge_data_element p d) as [p' | e]; [| discriminate].
      destruct (merge_zip ps ds) as [ps' | e] eqn:E; [| discriminate].
      injection H as <-. destruct (IH ds ps' E) as [L S].
      cbn. rewrite L. split; [reflexivity | exact S].
Qed.

Lemma merge_keeps_delivered_channels_witness :
  exists merged,
    merge_zip [next_band; top_band] [buffered_band] = Ok merged /\
    List.length merged = 2%nat /\ skipn 1 merged = [top_band].
Proof.
  eexists. split; [reflexivity |].
  exact (merge_keeps_delivered_channels [next_band; top_band] [buffered_band] _ eq_refl).
Defined.

Lemma merge_data_element_from_top (p d : DataElement) :
  fst (fst (get_sub_area p)) <= 0 ->
  0 <= fst (fst (get_sub_area d)) + fst (snd (get_sub_area d)) ->
  merge_data_element p d = Ok p.
Proof.
  intros Hp Hd. unfold merge_data_element.
  destruct (Z.leb_spec (fst (fst (get_sub_area p)))
              (fst (fst (get_sub_area d)) + fst (snd (get_sub_area d)))); [| lia].
  destruct (Z.gtb_spec (fst (fst (get_sub_area p))) 0); [lia |]. reflexivity.
Qed.

Lemma merge_zip_from_top (ps ds : list DataElement) :
  (forall p, In p ps -> fst (fst (get_sub_area p)) <= 0) ->
  (forall d, In d ds -> 0 <= fst (fst (get_sub_area d)) + fst (snd (get_sub_area d))) ->
  merge_zip ps ds = Ok ps.
Proof.
  revert ds. induction ps as [| p ps IH]; intros ds Hp Hd.
  - destruct ds; reflexivity.
  - destruct ds as [| d ds]; [reflexivity |]. cbn.
    rewrite merge_data_element_from_top by (auto using in_eq).
    rewrite IH; [reflexivity | |]; intros; auto using in_cons.
Qed.

(** X7.  Deliveries that start at row 0 replace the buffer.  When every
    delivered element starts at row 0 (or has no sub-area) and no buffered
    region ends above row 0, the acquisition step announces the delivery as
    it is, stamped with the frame index: nothing is copied from the buffer.
    An empty delivery is the exception: it leaves the buffered elements as
    the ones announced. *)
Theorem delivery_from_top_replaces_buffer {B : Type} {HS : HardwareSource B}
    (w : world B) (b' : B) (delivered : list DataElement) :
  hardware_source (task w) = true ->
  acquire_data_elements (source w) = (b', Ok (Some delivered)) ->
  (forall p, In p delivered -> fst (fst (get_sub_area p)) <= 0) ->
  (forall ds d, data_elements (task w) = Some ds -> In d ds ->
                0 <= fst (fst (get_sub_area d)) + fst (snd (get_sub_area d))) ->
  let announced :=
    match delivered, data_elements (task w) with
    | [], Some (d :: ds) => d :: ds
    | _, _ => map (setdefault_frame_index (frame_index (task w))) delivered
    end in
  log (fst (__execute_acquire_data_elements w))
    = log w ++ [Call acquire_hook;
                DataElementsChanged announced (is_continuous (task w))
                  (view_id (task w)) (all_complete announced) (is_stopping (task w))] /\
  snd (__execute_acquire_data_elements w) = Ok (all_complete announced).
Proof.
  intros Hhs Hacq Hp Hd. cbv zeta.
  rewrite (acquire_delivered w b' delivered Hhs Hacq). cbv zeta.
  assert (Hm : merge (data_elements (task w))
                 (map (setdefault_frame_index (frame_index (task w))) delivered)
               = Ok match delivered, data_elements (task w) with
                    | [], Some (d :: ds) => d :: ds
                    | _, _ => map (setdefault_frame_index (frame_index (task w)))
                                  delivered
                    end).
  { destruct (data_elements (task w)) as [[| d ds] |] eqn:Ebuf;
      try (destruct delivered; reflexivity).
    unfold merge. rewrite merge_zip_from_top.
    - destruct delivered; reflexivity.
    - intros p Hin. apply in_map_iff in Hin. destruct Hin as [p0 [<- Hin]].
      exact (Hp p0 Hin).
    - intros d0 Hin. exact (Hd (d :: ds) d0 eq_refl Hin). }
  rewrite Hm. cbn [fst snd log]. rewrite <- app_assoc. split; reflexivity.
Qed.

Lemma delivery_from_top_replaces_buffer_witness :
  log (fst (@__execute_acquire_data_elements _ (ScriptedHardwareSource obliging)
              example_partial_world))
    = [Call acquire_hook;
       DataElementsChanged [setdefault_frame_index 0 top_band]
                           true "source" false false].
Proof.
  refine (proj1 (@delivery_from_top_replaces_buffer _ (ScriptedHardwareSource obliging)
                   example_partial_world [] [top_band] eq_refl eq_refl _ _)).
  - intros p [<- | []]. simpl. lia.
  - intros ds d E. injection E as <-. intros [<- | []]. simpl. lia.
Defined.

(** X8.  What the hardware source may not deliver, and what it should not.
    A delivery of None fails the step with an assertion error before
    anything is announced.  An empty list passes that assertion: on an empty
    buffer it is announced as a complete frame without data and the frame
    index advances. *)
Theorem none_and_empty_delivery {B : Type} {HS : HardwareSource B}
    (w : world B) (b' : B) :
  hardware_source (task w) = true ->
  (acquire_data_elements (source w) = (b', Ok None) ->
     __execute_acquire_data_elements w
       = ({| task := task w; source := b'; log := log w ++ [Call acquire_hook] |},
          Raise AssertionError)) /\
  (acquire_data_elements (source w) = (b', Ok (Some [])) ->
   data_elements (task w) = None ->
     __execute_acquire_data_elements w
       = ({| task := set_frame_index (frame_index (task w) + 1) (task w);
             source := b';
             log := log w ++ [Call acquire_hook;
                              DataElementsChanged [] (is_continuous (task w))
                                (view_id (task w)) true (is_stopping (task w))] |},
          Ok true)).
Proof.
  intros Hhs. split.
  - intros Hacq.
    unfold __execute_acquire_data_elements, _acquire_data_elements, bind, get_task,
      assert, call_hook, raise. rewrite Hhs. cbn. rewrite Hacq. reflexivity.
  - intros Hacq Hbuf. rewrite (acquire_delivered w b' [] Hhs Hacq). cbv zeta.
    rewrite Hbuf. cbn. rewrite <- app_assoc. reflexivity.
Qed.

Lemma none_and_empty_delivery_witness :
  snd (@__execute_acquire_data_elements _ (ScriptedHardwareSource obliging)
         (new_world (set_started true view_task) [Ok None])) = Raise AssertionError /\
  snd (@__execute_acquire_data_elements _ (ScriptedHardwareSource obliging)
         (new_world (set_started true view_task) [Ok (Some [])])) = Ok true.
Proof.
  split.
  - rewrite (proj1 (@none_and_empty_delivery _ (ScriptedHardwareSource obliging)
                      (new_world (set_started true view_task) [Ok None]) [] eq_refl)
               eq_refl).
    reflexivity.
  - rewrite (proj2 (@none_and_empty_delivery _ (ScriptedHardwareSource obliging)
                      (new_world (set_started true view_task) [Ok (Some [])]) []
                      eq_refl) eq_refl eq_refl).
    reflexivity.
Defined.

(** X9.  The merged region ends where the new band ends.  For a band of the
    buffered width, in an array of the buffered shape, that starts below row
    0 and not below the buffered region's bottom, the merge succeeds and the
    merged sub-area runs from the buffered top to the bottom of the new band,
    with the buffered left offset and width: the left offset of the delivery
    is ignored, and when the new band ends above the buffered bottom the
    covered region shrinks to the new bottom.  The merged element is held in
    the delivered array, and its rows from the new top on are the
    delivery's.  When the buffered top, left offset and width are not
    negative, the buffered columns of the rows between the buffered top and
    the new top hold the buffered values converted to the dtype of the
    delivery: the buffered values themselves when the two arrays have one
    dtype. *)
Theorem merged_region_ends_at_new_bottom (p d : DataElement)
    (top height left width new_top new_height new_left : Z) :
  sub_area d = Some ((top, left), (height, width)) ->
  sub_area p = Some ((new_top, new_left), (new_height, width)) ->
  shape (data p) = shape (data d) ->
  0 < new_top <= top + height ->
  exists m,
    merge_data_element p d = Ok m /\
    sub_area m = Some ((top, left), (new_top + new_height - top, width)) /\
    shape (data m) = shape (data p) /\
    dtype (data m) = dtype (data p) /\
    (new_top + new_height < top + height ->
       fst (fst (get_sub_area m)) + fst (snd (get_sub_area m)) < top + height) /\
    (forall r c, new_top <= r -> cell (data m) r c = cell (data p) r c) /\
    (0 <= top -> 0 <= left -> 0 <= width ->
     forall r c, 0 <= r < fst (shape (data p)) -> 0 <= c < snd (shape (data p)) ->
       top <= r < new_top -> left <= c < left + width ->
       cell (data m) r c = astype (dtype (data p)) (cell (data d) r c) /\
       (dtype (data p) = dtype (data d) -> well_formed (data d) ->
          cell (data m) r c = cell (data d) r c)).
Proof.
  intros Hd Hp Hshape Hnew.
  destruct (merge_data_element_region p d top height left width new_top new_height
              new_left Hd Hp Hshape Hnew)
    as [m [Hm [Ha [_ [_ [Hs [Ht Hrows]]]]]]].
  exists m. split; [exact Hm |]. split; [exact Ha |]. split; [exact Hs |].
  split; [exact Ht |]. split; [| split].
  - intros Hlt. unfold get_sub_area. rewrite Ha. cbn. lia.
  - exact Hrows.
  - intros Htop Hleft Hwidth r c Hr Hcc Hrow Hcol.
    destruct (merge_data_element_band p d top height left width new_top new_height
                new_left Hd Hp Hshape Htop Hleft Hwidth Hnew)
      as [m' [Hm' [_ [_ [_ [_ [_ Hc]]]]]]].
    assert (Em : m' = m) by congruence. subst m'.
    assert (E : cell (data m) r c = astype (dtype (data p)) (cell (data d) r c)).
    { rewrite (Hc r c Hr Hcc).
      destruct (Z.leb_spec top r), (Z.ltb_spec r new_top), (Z.leb_spec left c),
        (Z.ltb_spec c (left + width)); try lia. reflexivity. }
    split; [exact E |].
    intros Hdt Hwf. rewrite E.
    apply astype_same_dtype; [exact Hwf | exact Hdt | |]; rewrite <- Hshape; assumption.
Qed.

Lemma merged_region_ends_at_new_bottom_witness :
  exists m,
    merge_data_element (band (frame 16 20 2) ((4, 7), (3, 20)) "partial") buffered_band
      = Ok m /\
    sub_area m = Some ((0, 0), (7, 20)) /\
    cell (data m) 3 0 = 1 /\ cell (data m) 4 0 = 2.
Proof.
  destruct (merged_region_ends_at_new_bottom
              (band (frame 16 20 2) ((4, 7), (3, 20)) "partial") buffered_band
              0 10 0 20 4 3 7 eq_refl eq_refl eq_refl)
    as [m [Hm [Ha [_ [_ [_ [Hnew Hold]]]]]]]; try lia.
  exists m. split; [exact Hm |]. split; [exact Ha |]. split.
  - refine (proj2 (Hold _ _ _ 3 0 _ _ _ _) eq_refl (frame_of_well_formed _ _ _ _));
      simpl; lia.
  - rewrite Hnew; [reflexivity | lia].
Defined.

(** * Further properties of the publisher *)

Lemma channels_data_from_maps {D : Type} (convert : DataElement -> D)
    (data_elements : list DataElement) (is_stopping : bool) (start : nat) :
  let cds := channels_data_from D convert start data_elements is_stopping in
  map cd_index cds = seq start (List.length data_elements) /\
  map cd_channel_id cds = map channel_id data_elements /\
  map cd_name cds = map channel_name data_elements /\
  map cd_sub_area cds = map sub_area data_elements /\
  map cd_data_and_calibration cds = map convert data_elements.
Proof.
  revert start. induction data_elements as [| d ds IH]; intros start; cbn.
  - repeat split.
  - destruct (IH (S start)) as [I1 [I2 [I3 [I4 I5]]]].
    rewrite I1, I2, I3, I4, I5. repeat split.
Qed.

(** X10.  What is published for a notification.  There is always exactly one
    channels-data update, flagged as recording when the task is not
    continuous, with one record per data element, in order: the record's
    index is the element's position and its channel id, name, sub-area and
    converted data are the element's.  It is followed by a data-available
    publication carrying the same elements when the notification is
    complete, and by nothing otherwise. *)
Theorem published_records_follow_channels {D : Type} (convert : DataElement -> D)
    (data_elements : list DataElement) (is_continuous : bool) (view_id : string)
    (is_complete is_stopping : bool) :
  exists channels_data,
    __data_elements_changed D convert data_elements is_continuous view_id
                            is_complete is_stopping
      = ChannelsDataUpdated view_id (negb is_continuous) channels_data
          :: (if is_complete then [DataElementsAvailable data_elements] else []) /\
    map cd_index channels_data = seq 0 (List.length data_elements) /\
    map cd_channel_id channels_data = map channel_id data_elements /\
    map cd_name channels_data = map channel_name data_elements /\
    map cd_sub_area channels_data = map sub_area data_elements /\
    map cd_data_and_calibration channels_data = map convert data_elements.
Proof.
  eexists. split; [reflexivity |].
  exact (channels_data_from_maps convert data_elements is_stopping 0).
Qed.

Lemma available_counts_complete {D : Type} (convert : DataElement -> D)
    (evs : list event) :
  Z.of_nat (List.length (filter is_available (flat_map (publish D convert) evs)))
    = completed_frames evs.
Proof.
  induction evs as [| e evs IH]; [reflexivity |].
  cbn [flat_map]. rewrite filter_app, length_app, Nat2Z.inj_add, IH.
  destruct e as [h | ds c v [|] s |]; cbn [completed_frames]; cbn; lia.
Qed.

(** X11.  One data-available publication per frame.  Whatever calls are made
    on a task, the frame index advances by exactly the number of
    data-available publications that the listener of the hardware source
    makes of the task's notifications. *)
Theorem data_available_once_per_frame {B : Type} {HS : HardwareSource B}
    {D : Type} (convert : DataElement -> D) (cs : list call) (w : world B) :
  exists evs,
    log (perform_all cs w) = log w ++ evs /\
    frame_index (task (perform_all cs w))
      = frame_index (task w)
        + Z.of_nat (List.length
                      (filter is_available (flat_map (publish D convert) evs))).
Proof.
  assert (H : frames_accounted w (perform_all cs w)).
  { revert w. induction cs as [| c cs IH]; intros w; cbn [perform_all fold_left].
    - reflexivity.
    - transitivity (perform c w); [apply frames_perform | apply IH]. }
  destruct H as [evs [L F]]. exists evs. split; [exact L |].
  rewrite available_counts_complete. exact F.
Qed.

(** * Properties of the worker *)

Lemma task_id_eqb_spec (a b : task_id) : reflect (a = b) (task_id_eqb a b).
Proof. destruct a, b; constructor; congruence. Qed.

Lemma update_same (id : task_id) (v : option AcquisitionTask)
    (f : task_id -> option AcquisitionTask) : update id v f id = v.
Proof. unfold update. destruct (task_id_eqb_spec id id); congruence. Qed.

Lemma update_other (id k : task_id) (v : option AcquisitionTask)
    (f : task_id -> option AcquisitionTask) : k <> id -> update id v f k = f k.
Proof. intros H. unfold update. destruct (task_id_eqb_spec k id); congruence. Qed.

Lemma suspended_version_refl (t : AcquisitionTask) : suspended_version t t.
Proof. left. reflexivity. Qed.

Lemma suspended_version_trans (a b c : AcquisitionTask) :
  suspended_version a b -> suspended_version b c -> suspended_version a c.
Proof.
  intros [-> | ->] [-> | ->]; [left | right | right | right]; reflexivity.
Qed.

Lemma suspended_version_finished (t t' : AcquisitionTask) :
  suspended_version t t' ->
  finished t' = finished t /\ started t' = started t /\ aborted t' = aborted t.
Proof. intros [-> | ->]; repeat split. Qed.

Section WorkerProperties.

Context {B : Type} {HS : HardwareSource B}.

Lemma select_task_highest (s : HardwareSourceState B) :
  fst (select_task s) = highest_priority s.
Proof.
  unfold select_task, highest_priority.
  destruct (is_task_running idle s), (is_task_running view s),
    (is_task_running record s); reflexivity.
Qed.

(** The tasks to suspend are never the task selected. *)
Lemma select_task_suspends_lower (s : HardwareSourceState B) (id : task_id) :
  fst (select_task s) = Some id -> ~ In id (snd (select_task s)).
Proof.
  unfold select_task.
  destruct (is_task_running idle s), (is_task_running view s),
    (is_task_running record s); cbn; intros E; try discriminate;
    injection E as <-;
    intros H; repeat (destruct H as [H | H]; [discriminate |]); exact H.
Qed.

Lemma select_task_installed (s : HardwareSourceState B) (id : task_id) :
  fst (select_task s) = Some id -> exists t, tasks s id = Some t.
Proof.
  rewrite select_task_highest. unfold highest_priority, is_task_running.
  destruct (tasks s record) eqn:R; [intros E; injection E as <-; eauto |].
  destruct (tasks s view) eqn:V; [intros E; injection E as <-; eauto |].
  destruct (tasks s idle) eqn:I; [intros E; injection E as <-; eauto |].
  discriminate.
Qed.

(** What suspending one installed task does to the hardware source. *)
Lemma run_task_suspend (id : task_id) (t : AcquisitionTask) (s : HardwareSourceState B) :
  exists t' evs,
    suspended_version t t' /\
    (evs = [] \/ evs = [TaskEvent id (Call suspend_hook)]) /\
    tasks (fst (run_task id t suspend s)) = update id (Some t') (tasks s) /\
    events (fst (run_task id t suspend s)) = events s ++ evs /\
    acquire_thread_break (fst (run_task id t suspend s)) = acquire_thread_break s /\
    acquire_thread_trigger (fst (run_task id t suspend s)) = acquire_thread_trigger s /\
    hardware_source_id (fst (run_task id t suspend s)) = hardware_source_id s.
Proof.
  unfold run_task.
  set (w := {| task := t; source := device s; log := [] |}).
  destruct (is_suspended t) eqn:E.
  - rewrite (suspend_suspended w E). exists t, []. cbn.
    repeat split; auto using suspended_version_refl.
  - rewrite (suspend_running w E). cbn [task w].
    destruct (hardware_source t).
    + exists (set_data_elements None (set_is_suspended true t)),
        [TaskEvent id (Call suspend_hook)].
      cbn. repeat split; auto. right. reflexivity.
    + exists (set_data_elements None (set_is_suspended true t)), [].
      cbn. repeat split; auto. right. reflexivity.
Qed.

(** The suspension loop only suspends: the tasks named may be suspended, the
    others are left alone, no task is installed or removed, and nothing but
    calls of the suspend hook is recorded. *)
Lemma suspend_tasks_only_suspends (ids : list task_id) (s : HardwareSourceState B) :
  let s' := fst (suspend_tasks ids s) in
  (forall k, match tasks s k with
             | None => tasks s' k = None
             | Some t => exists t', tasks s' k = Some t' /\ suspended_version t t' /\
                                    (~ In k ids -> t' = t)
             end) /\
  (exists evs, events s' = events s ++ evs /\
               forall e, In e evs -> is_task_notification e = false /\
                                     exists k, In k ids /\ event_task e = Some k) /\
  acquire_thread_break s' = acquire_thread_break s /\
  acquire_thread_trigger s' = acquire_thread_trigger s /\
  hardware_source_id s' = hardware_source_id s.
Proof.
  revert s. induction ids as [| id ids IH]; intros s; cbn [suspend_tasks].
  - cbn. repeat split.
    + intros k. destruct (tasks s k); eauto using suspended_version_refl.
    + exists []. rewrite app_nil_r. split; [reflexivity | intros e []].
  - assert (Hstep : forall s1,
      (forall k, match tasks s k with
                 | None => tasks s1 k = None
                 | Some t => exists t', tasks s1 k = Some t' /\ suspended_version t t' /\
                                        (k <> id -> t' = t)
                 end) ->
      (exists evs, events s1 = events s ++ evs /\
                   forall e, In e evs -> is_task_notification e = false /\
                                         event_task e = Some id) ->
      acquire_thread_break s1 = acquire_thread_break s ->
      acquire_thread_trigger s1 = acquire_thread_trigger s ->
      hardware_source_id s1 = hardware_source_id s ->
      forall s2, (s2 = s1 \/ s2 = fst (suspend_tasks ids s1)) ->
      (forall k, match tasks s k with
                 | None => tasks s2 k = None
                 | Some t => exists t', tasks s2 k = Some t' /\ suspended_version t t' /\
                                        (~ In k (id :: ids) -> t' = t)
                 end) /\
      (exists evs, events s2 = events s ++ evs /\
                   forall e, In e evs -> is_task_notification e = false /\
                                         exists k, In k (id :: ids) /\
                                                   event_task e = Some k) /\
      acquire_thread_break s2 = acquire_thread_break s /\
      acquire_thread_trigger s2 = acquire_thread_trigger s /\
      hardware_source_id s2 = hardware_source_id s).
    { intros s1 T1 [evs1 [E1 N1]] B1 G1 I1 s2 [-> | ->].
      - repeat split; try assumption.
        + intros k. specialize (T1 k). destruct (tasks s k); [| exact T1].
          destruct T1 as [t' [A [V U]]]. exists t'. repeat split; try assumption.
          intros Hn. apply U. intros ->. apply Hn. left. reflexivity.
        + exists evs1. split; [exact E1 |]. intros e He.
          destruct (N1 e He) as [Hn Hk]. split; [exact Hn |].
          exists id. split; [left; reflexivity | exact Hk].
      - destruct (IH s1) as [T2 [[evs2 [E2 N2]] [B2 [G2 I2]]]].
        repeat split; try congruence.
        + intros k. specialize (T1 k). specialize (T2 k).
          destruct (tasks s k) as [t |].
          * destruct T1 as [t1 [A1 [V1 U1]]]. rewrite A1 in T2.
            destruct T2 as [t2 [A2 [V2 U2]]]. exists t2.
            split; [exact A2 |]. split; [eauto using suspended_version_trans |].
            intros Hn. rewrite U2, U1; [reflexivity | |];
              intros H; apply Hn; [left; congruence | right; exact H].
          * rewrite T1 in T2. exact T2.
        + exists (evs1 ++ evs2). rewrite E2, E1, app_assoc. split; [reflexivity |].
          intros e He. apply in_app_or in He. destruct He as [He | He].
          * destruct (N1 e He) as [Hn Hk]. split; [exact Hn |].
            exists id. split; [left; reflexivity | exact Hk].
          * destruct (N2 e He) as [Hn [k [Hk Hev]]]. split; [exact Hn |].
            exists k. split; [right; exact Hk | exact Hev]. }
    destruct (tasks s id) as [t |] eqn:Et.
    + destruct (run_task_suspend id t s) as [t' [evs [V [Hev [T [E [Bk [G I]]]]]]]].
      assert (T1 : forall k, match tasks s k with
                 | None => tasks (fst (run_task id t suspend s)) k = None
                 | Some t0 => exists t'0,
                     tasks (fst (run_task id t suspend s)) k = Some t'0 /\
                     suspended_version t0 t'0 /\ (k <> id -> t'0 = t0)
                 end).
      { intros k. rewrite T. destruct (task_id_eqb_spec k id) as [-> | Hne].
        - rewrite Et, update_same. exists t'. repeat split; [exact V | congruence].
        - rewrite update_other by exact Hne.
          destruct (tasks s k); eauto using suspended_version_refl. }
      assert (N1 : exists evs0,
                 events (fst (run_task id t suspend s)) = events s ++ evs0 /\
                 forall e, In e evs0 -> is_task_notification e = false /\
                                       event_task e = Some id).
      { exists evs. split; [exact E |].
        destruct Hev as [-> | ->]; intros e; [intros [] | intros [<- | []]].
        split; reflexivity. }
      destruct (run_task id t suspend s) as [s1 [ok | e]]; cbn [fst] in *.
      * apply (Hstep s1); auto.
      * apply (Hstep s1); auto.
    + apply (Hstep s); auto.
      * intros k. destruct (tasks s k); eauto using suspended_version_refl.
      * exists []. rewrite app_nil_r. split; [reflexivity | intros e []].
Qed.

Lemma only_touches_refl (id : task_id) (s : HardwareSourceState B) :
  only_touches id s s.
Proof.
  split; [reflexivity |]. exists []. rewrite app_nil_r.
  split; [reflexivity | intros e []].
Qed.

Lemma only_touches_trans (id : task_id) (a b c : HardwareSourceState B) :
  only_touches id a b -> only_touches id b c -> only_touches id a c.
Proof.
  intros [T1 [e1 [E1 N1]]] [T2 [e2 [E2 N2]]]. split.
  - intros k Hk. rewrite T2, T1 by exact Hk. reflexivity.
  - exists (e1 ++ e2). rewrite E2, E1, app_assoc. split; [reflexivity |].
    intros e He. apply in_app_or in He. destruct He; auto.
Qed.

Lemma run_task_touches {A} (id : task_id) (t : AcquisitionTask) (c : M B A)
    (s : HardwareSourceState B) :
  only_touches id s (fst (run_task id t c s)).
Proof.
  unfold run_task. destruct (c _) as [w r]. cbn. split.
  - intros k Hk. apply update_other. exact Hk.
  - exists (map (TaskEvent id) (log w)). split; [reflexivity |].
    intros e He _. apply in_map_iff in He. destruct He as [x [<- _]]. reflexivity.
Qed.

Lemma fire_source_touches (id : task_id) (e : source_event)
    (s : HardwareSourceState B) :
  is_task_notification e = false -> only_touches id s (fire_source e s).
Proof.
  intros He. split; [reflexivity |]. exists [e]. split; [reflexivity |].
  intros x [<- | []] Hx. congruence.
Qed.

Lemma abort_and_notify_touches (id : task_id) (s : HardwareSourceState B) :
  only_touches id s (abort_and_notify id s).
Proof.
  unfold abort_and_notify. destruct (tasks s id) as [t |];
    [| apply only_touches_refl].
  eapply only_touches_trans; [apply (run_task_touches id t abort) |].
  apply fire_source_touches. reflexivity.
Qed.

Lemma remove_if_finished_touches (id : task_id) (s : HardwareSourceState B) :
  only_touches id s (remove_if_finished id s).
Proof.
  unfold remove_if_finished. destruct (tasks s id) as [t |];
    [| apply only_touches_refl].
  destruct (finished t); [| apply only_touches_refl]. split.
  - intros k Hk. cbn. apply update_other. exact Hk.
  - exists [AcquisitionStateChanged false]. split; [reflexivity |].
    intros x [<- | []] Hx. discriminate.
Qed.

Lemma set_trigger_touches (id : task_id) (v : bool) (s : HardwareSourceState B) :
  only_touches id s (set_trigger v s).
Proof.
  split; [reflexivity |]. exists []. cbn. rewrite app_nil_r.
  split; [reflexivity | intros e []].
Qed.

(** One pass of the worker, taken apart: the suspension of the tasks to
    suspend, followed by steps that touch the selected task only. *)
Lemma acquire_thread_pass_parts (s : HardwareSourceState B) :
  match fst (select_task s) with
  | None => fst (acquire_thread_pass s) = set_trigger false s
  | Some id =>
      exists s1,
        (s1 = set_trigger false s \/
         s1 = fst (suspend_tasks (snd (select_task s)) (set_trigger false s))) /\
        only_touches id s1 (fst (acquire_thread_pass s))
  end.
Proof.
  unfold acquire_thread_pass.
  change (select_task (set_trigger false s)) with (select_task s).
  destruct (select_task s) as [[id |] ids]; cbn [fst snd]; [| reflexivity].
  destruct (acquire_thread_break (set_trigger false s)).
  - exists (set_trigger false s). split; [left; reflexivity |].
    apply abort_and_notify_touches.
  - unfold suspend_and_execute.
    destruct (suspend_tasks ids (set_trigger false s)) as [s1 [[] | e]] eqn:Es.
    + exists s1. split; [right; reflexivity |]. cbn [fst].
      destruct (tasks s1 id) as [t |].
      * pose proof (run_task_touches id t execute s1) as H1.
        destruct (run_task id t execute s1) as [s2 [[] | e]]; cbn [fst] in *.
        -- eapply only_touches_trans; [exact H1 |].
           eapply only_touches_trans; [apply remove_if_finished_touches |].
           apply set_trigger_touches.
        -- eapply only_touches_trans; [exact H1 |].
           eapply only_touches_trans; [apply abort_and_notify_touches |].
           eapply only_touches_trans; [apply remove_if_finished_touches |].
           apply set_trigger_touches.
      * eapply only_touches_trans; [apply remove_if_finished_touches |].
        apply set_trigger_touches.
    + exists s1. split; [right; reflexivity |]. cbn [fst].
      eapply only_touches_trans; [apply abort_and_notify_touches |].
      eapply only_touches_trans; [apply remove_if_finished_touches |].
      apply set_trigger_touches.
Qed.

Lemma pass_summary (s : HardwareSourceState B) :
  let s' := fst (acquire_thread_pass s) in
  (forall k t, tasks s k = Some t -> highest_priority s <> Some k ->
     exists t', tasks s' k = Some t' /\ suspended_version t t') /\
  (forall k, tasks s k = None -> tasks s' k = None) /\
  exists evs,
    events s' = events s ++ evs /\
    forall e, In e evs -> is_task_notification e = true ->
              event_task e = highest_priority s.
Proof.
  cbv zeta. pose proof (acquire_thread_pass_parts s) as P.
  pose proof (select_task_installed s) as Hinst.
  rewrite select_task_highest in P, Hinst.
  destruct (highest_priority s) as [id |] eqn:Hh.
  - destruct P as [s1 [Hs1 [T [evs2 [E2 N2]]]]].
    destruct (Hinst id eq_refl) as [tw Htw].
    assert (H1 : (forall k, match tasks s k with
                   | None => tasks s1 k = None
                   | Some t => exists t', tasks s1 k = Some t' /\ suspended_version t t'
                   end) /\
                 exists evs1, events s1 = events s ++ evs1 /\
                   forall e, In e evs1 -> is_task_notification e = false).
    { destruct Hs1 as [-> | ->].
      - split.
        + intros k. cbn. destruct (tasks s k); eauto using suspended_version_refl.
        + exists []. cbn. rewrite app_nil_r. split; [reflexivity | intros e []].
      - destruct (suspend_tasks_only_suspends (snd (select_task s))
                    (set_trigger false s)) as [Tk [[evs1 [E1 N1]] _]].
        split.
        + intros k. specialize (Tk k). cbn [tasks set_trigger] in Tk.
          destruct (tasks s k); [| exact Tk].
          destruct Tk as [t' [A [V _]]]. eauto.
        + exists evs1. split; [exact E1 |]. intros e He. apply (N1 e He). }
    destruct H1 as [Tk [evs1 [E1 N1]]]. split; [| split].
    + intros k t Hk Hne. rewrite T by congruence.
      specialize (Tk k). rewrite Hk in Tk. exact Tk.
    + intros k Hk. assert (k <> id) by congruence. rewrite T by assumption.
      specialize (Tk k). rewrite Hk in Tk. exact Tk.
    + exists (evs1 ++ evs2). rewrite E2, E1, app_assoc. split; [reflexivity |].
      intros e He Hn. apply in_app_or in He. destruct He as [He | He].
      * rewrite (N1 e He) in Hn. discriminate.
      * exact (N2 e He Hn).
  - rewrite P. cbn. split; [| split].
    + intros k t Hk _. eauto using suspended_version_refl.
    + auto.
    + exists []. rewrite app_nil_r. split; [reflexivity | intros e []].
Qed.

(** X12.  Priority.  In one pass of the worker only the task in the
    highest-priority occupied slot (record before view before idle) runs:
    every notification recorded in the pass comes from it.  A task in
    another slot stays installed and is at most suspended; an empty slot
    stays empty. *)
Theorem worker_runs_highest_priority_only (s : HardwareSourceState B) :
  let s' := fst (acquire_thread_pass s) in
  (forall k t, tasks s k = Some t -> highest_priority s <> Some k ->
     exists t', tasks s' k = Some t' /\ suspended_version t t') /\
  (forall k, tasks s k = None -> tasks s' k = None) /\
  exists evs,
    events s' = events s ++ evs /\
    forall e, In e evs -> is_task_notification e = true ->
              event_task e = highest_priority s.
Proof. exact (pass_summary s). Qed.


(** *** No finished task stays installed *)

Lemma remove_if_finished_unfinished (id : task_id) (s : HardwareSourceState B)
    (t : AcquisitionTask) :
  tasks (remove_if_finished id s) id = Some t -> finished t = false.
Proof.
  unfold remove_if_finished. destruct (tasks s id) as [t0 |] eqn:E.
  - destruct (finished t0) eqn:F.
    + cbn. rewrite update_same. discriminate.
    + rewrite E. intros H. injection H as <-. exact F.
  - rewrite E. discriminate.
Qed.

Lemma run_task_task {A} (id : task_id) (t : AcquisitionTask) (c : M B A)
    (s : HardwareSourceState B) :
  tasks (fst (run_task id t c s)) id
    = Some (task (fst (c {| task := t; source := device s; log := [] |}))).
Proof. unfold run_task. destruct (c _) as [w r]. cbn. apply update_same. Qed.

Lemma pass_selected_unfinished (s : HardwareSourceState B) (id : task_id)
    (t : AcquisitionTask) :
  no_finished_task s -> fst (select_task s) = Some id ->
  tasks (fst (acquire_thread_pass s)) id = Some t -> finished t = false.
Proof.
  intros Hinv Hsel. unfold acquire_thread_pass.
  change (select_task (set_trigger false s)) with (select_task s).
  destruct (select_task s) as [sel ids]. cbn [fst] in Hsel. subst sel. cbn [fst].
  destruct (acquire_thread_break (set_trigger false s)).
  - unfold abort_and_notify. cbn [tasks set_trigger].
    destruct (tasks s id) as [t0 |] eqn:E0.
    + cbn [tasks fire_source]. rewrite run_task_task. cbn.
      intros H. injection H as <-. exact (Hinv id t0 E0).
    + cbn [tasks set_trigger]. rewrite E0. discriminate.
  - destruct (suspend_and_execute ids id (set_trigger false s)) as [s1 r].
    cbn [fst tasks set_trigger]. apply remove_if_finished_unfinished.
Qed.

(** X13.  No finished task stays installed.  If no installed task is
    finished, then none is after a pass of the worker, and none is after
    [start_playing], [start_recording], [abort_playing], [abort_recording],
    [stop_playing] or [stop_recording]: a task that finishes in a pass is
    removed from its slot in that pass. *)
Theorem no_finished_task_stays_installed (s : HardwareSourceState B) (uuid : string) :
  no_finished_task s ->
  no_finished_task (fst (acquire_thread_pass s)) /\
  no_finished_task (fst (start_playing s)) /\
  no_finished_task (fst (start_recording uuid s)) /\
  no_finished_task (fst (abort_playing s)) /\
  no_finished_task (fst (abort_recording s)) /\
  no_finished_task (fst (stop_playing s)) /\
  no_finished_task (fst (stop_recording s)).
Proof.
  intros Hinv.
  assert (Hstart : forall id t, finished t = false ->
                     no_finished_task (fst (start_task id t s))).
  { intros id t Ht. unfold start_task. destruct (is_task_running id s); [exact Hinv |].
    intros k t0. cbn [fst tasks fire_source set_trigger set_tasks].
    destruct (task_id_eqb_spec k id) as [-> | Hne].
    - rewrite update_same. intros H. injection H as <-. exact Ht.
    - rewrite update_other by exact Hne. apply Hinv. }
  assert (Habort : forall id, no_finished_task (fst (abort_task id s))).
  { intros id. unfold abort_task. destruct (tasks s id) as [t |] eqn:E; [| exact Hinv].
    intros k t0. cbn [fst tasks fire_source].
    destruct (task_id_eqb_spec k id) as [-> | Hne].
    - rewrite run_task_task. cbn. intros H. injection H as <-. exact (Hinv id t E).
    - destruct (run_task_touches id t abort s) as [T _].
      rewrite T by exact Hne. apply Hinv. }
  assert (Hstop : forall id, no_finished_task (fst (stop_task id s))).
  { intros id. unfold stop_task. destruct (tasks s id) as [t |] eqn:E; [| exact Hinv].
    intros k t0. destruct (task_id_eqb_spec k id) as [-> | Hne].
    - rewrite run_task_task. intros H. injection H as <-.
      destruct (life_stop {| task := t; source := device s; log := [] |}) as [_ ->].
      exact (Hinv id t E).
    - destruct (run_task_touches id t stop s) as [T _].
      rewrite T by exact Hne. apply Hinv. }
  repeat split.
  - intros k t Hk.
    destruct (fst (select_task s)) as [id |] eqn:Hsel.
    + destruct (task_id_eqb_spec k id) as [-> | Hne].
      * exact (pass_selected_unfinished s id t Hinv Hsel Hk).
      * destruct (pass_summary s) as [Hother [Hnone _]].
        destruct (tasks s k) as [t0 |] eqn:E0.
        -- destruct (Hother k t0 E0) as [t' [Ht' V]].
           { rewrite <- select_task_highest, Hsel. congruence. }
           rewrite Ht' in Hk. injection Hk as <-.
           destruct (suspended_version_finished t0 t' V) as [-> _].
           exact (Hinv k t0 E0).
        -- rewrite (Hnone k E0) in Hk. discriminate.
    + pose proof (acquire_thread_pass_parts s) as P. rewrite Hsel in P.
      rewrite P in Hk. exact (Hinv k t Hk).
  - unfold start_playing. destruct (negb (is_playing s)); [| exact Hinv].
    apply Hstart. reflexivity.
  - unfold start_recording. destruct (negb (is_recording s)); [| exact Hinv].
    apply Hstart. reflexivity.
  - unfold abort_playing. destruct (is_playing s); [apply Habort | exact Hinv].
  - unfold abort_recording. destruct (is_recording s); [apply Habort | exact Hinv].
  - unfold stop_playing. destruct (is_playing s); [apply Hstop | exact Hinv].
  - unfold stop_recording. destruct (is_recording s); [apply Hstop | exact Hinv].
Qed.

(** *** Leaving the loop *)

(** X14.  Shutdown.  When the break flag is set, a pass flags the selected
    task aborted, fires the abort event and leaves the loop.  It calls no
    hook of the hardware source, does not run the task, fires no
    notification of the task and leaves it installed; nothing wakes the
    worker again.  With no task installed the pass only leaves the loop. *)
Theorem worker_leaves_on_break (s : HardwareSourceState B) :
  acquire_thread_break s = true ->
  match highest_priority s with
  | Some id =>
      exists t,
        tasks s id = Some t /\
        acquire_thread_pass s =
          ({| hardware_source_id := hardware_source_id s;
              tasks := update id (Some (set_aborted true t)) (tasks s);
              acquire_thread_break := true;
              acquire_thread_trigger := false;
              device := device s;
              events := events s ++ [AbortEvent] |}, true)
  | None => acquire_thread_pass s = (set_trigger false s, true)
  end.
Proof.
  intros Hb. pose proof (select_task_highest s) as Hsel.
  pose proof (select_task_installed s) as Hinst.
  unfold acquire_thread_pass.
  change (select_task (set_trigger false s)) with (select_task s).
  destruct (select_task s) as [sel ids]. cbn [fst] in Hsel, Hinst. subst sel.
  cbn [acquire_thread_break set_trigger]. rewrite Hb.
  destruct (highest_priority s) as [id |]; [| reflexivity].
  destruct (Hinst id eq_refl) as [t Ht]. exists t. split; [exact Ht |].
  unfold abort_and_notify. cbn [tasks set_trigger]. rewrite Ht.
  unfold run_task, abort, modify_task, fire_source. cbn.
  rewrite Hb, app_nil_r. reflexivity.
Qed.

(** *** Exceptions in a pass *)

Lemma run_task_events {A} (id : task_id) (t : AcquisitionTask) (c : M B A)
    (s : HardwareSourceState B) :
  events (fst (run_task id t c s))
    = events s
      ++ map (TaskEvent id) (log (fst (c {| task := t; source := device s; log := [] |}))).
Proof. unfold run_task. destruct (c _) as [w r]. reflexivity. Qed.

Lemma run_task_result {A} (id : task_id) (t : AcquisitionTask) (c : M B A)
    (s : HardwareSourceState B) :
  snd (run_task id t c s) = snd (c {| task := t; source := device s; log := [] |}).
Proof. unfold run_task. destruct (c _) as [w r]. reflexivity. Qed.

(** X15.  An exception ends the task.  In a pass without break, when the
    suspension of the lower-priority tasks returns and [execute] of the
    selected task, not suspended, raises, the worker flags the task aborted
    and fires the abort event, and since the task has marked itself
    finished it is removed from its slot in the same pass; the worker
    itself goes on (it is woken again and does not leave the loop). *)
Theorem exception_in_pass_removes_task (s : HardwareSourceState B) (id : task_id)
    (ids : list task_id) (t : AcquisitionTask) (e : exn) :
  acquire_thread_break s = false ->
  select_task s = (Some id, ids) ->
  tasks s id = Some t -> is_suspended t = false ->
  let s1 := fst (suspend_tasks ids (set_trigger false s)) in
  snd (suspend_tasks ids (set_trigger false s)) = Ok tt ->
  snd (execute {| task := t; source := device s1; log := [] |}) = Raise e ->
  let s' := fst (acquire_thread_pass s) in
  snd (acquire_thread_pass s) = false /\
  tasks s' id = None /\
  acquire_thread_trigger s' = true /\
  exists l,
    events s' = l ++ [TaskEvent id (DataElementsChanged [] (is_continuous t)
                                      (view_id t) false (is_stopping t));
                      TaskEvent id FinishedEvent;
                      AbortEvent;
                      AcquisitionStateChanged false].
Proof.
  intros Hb Hsel Ht Hsus s1 Hok Hraise. cbv zeta.
  assert (Ht1 : tasks s1 id = Some t).
  { destruct (suspend_tasks_only_suspends ids (set_trigger false s)) as [Tk _].
    specialize (Tk id). cbn [tasks set_trigger] in Tk. rewrite Ht in Tk.
    destruct Tk as [t' [A [_ U]]]. fold s1 in A. rewrite A. f_equal. apply U.
    pose proof (select_task_suspends_lower s id) as L. rewrite Hsel in L.
    exact (L eq_refl). }
  set (w := {| task := t; source := device s1; log := [] |}) in *.
  destruct (execute_raise_finishes w e Hsus Hraise) as [Hfin [l Hl]].
  unfold acquire_thread_pass.
  change (select_task (set_trigger false s)) with (select_task s).
  rewrite Hsel. cbn [acquire_thread_break set_trigger]. rewrite Hb.
  unfold suspend_and_execute.
  destruct (suspend_tasks ids (set_trigger false s)) as [s1' [[] | e1]] eqn:Es;
    cbn [fst snd] in *; [| discriminate].
  subst s1. rewrite Ht1.
  pose proof (run_task_task id t execute s1') as T2.
  pose proof (run_task_events id t execute s1') as E2.
  pose proof (run_task_result id t execute s1') as R2.
  fold w in T2, E2, R2. rewrite Hraise in R2.
  destruct (run_task id t execute s1') as [s2 r2]. cbn [fst snd] in *. subst r2.
  unfold abort_and_notify. rewrite T2.
  pose proof (run_task_task id (task (fst (execute w))) abort s2) as T3.
  pose proof (run_task_events id (task (fst (execute w))) abort s2) as E3.
  destruct (run_task id (task (fst (execute w))) abort s2) as [s3 r3].
  cbn [fst] in T3, E3. cbn [fst].
  unfold remove_if_finished. cbn [tasks fire_source]. rewrite T3.
  cbn [abort modify_task fst task finished set_aborted]. rewrite Hfin.
  cbn [fst snd tasks events set_trigger set_tasks fire_source acquire_thread_trigger].
  split; [reflexivity |]. split; [apply update_same |]. split; [reflexivity |].
  rewrite E3, E2, Hl. cbn [abort modify_task fst log map]. rewrite app_nil_r.
  exists (events s1' ++ map (TaskEvent id) l).
  rewrite map_app. cbn [map]. rewrite <- !app_assoc. reflexivity.
Qed.

(** *** Aborting and stopping through the worker *)

Lemma suspend_tasks_returns (ids : list task_id) (s : HardwareSourceState B) :
  returns suspend_acquisition -> snd (suspend_tasks ids s) = Ok tt.
Proof.
  intros R. revert s. induction ids as [| id ids IH]; intros s; cbn [suspend_tasks].
  - reflexivity.
  - destruct (tasks s id) as [t |]; [| apply IH].
    pose proof (run_task_result id t suspend s) as Hr.
    set (w := {| task := t; source := device s; log := [] |}) in Hr.
    assert (Hok : exists ok, snd (suspend w) = Ok ok).
    { destruct (is_suspended (task w)) eqn:E.
      - rewrite (suspend_suspended w E). exists true. reflexivity.
      - rewrite (suspend_running w E).
        destruct (hardware_source (task w)); [| exists false; reflexivity].
        destruct (R (source w)) as [b' [ok Eb]]. rewrite Eb. exists ok. reflexivity. }
    destruct Hok as [ok Hok]. rewrite Hok in Hr.
    destruct (run_task id t suspend s) as [s' r]. cbn [snd] in Hr. subst r. apply IH.
Qed.

(** A pass that runs the selected task without an exception. *)
Lemma pass_executes (s : HardwareSourceState B) (id : task_id) (ids : list task_id)
    (t : AcquisitionTask) :
  acquire_thread_break s = false ->
  select_task s = (Some id, ids) ->
  tasks s id = Some t ->
  let s1 := fst (suspend_tasks ids (set_trigger false s)) in
  let w := fst (execute {| task := t; source := device s1; log := [] |}) in
  snd (suspend_tasks ids (set_trigger false s)) = Ok tt ->
  snd (execute {| task := t; source := device s1; log := [] |}) = Ok tt ->
  let s' := fst (acquire_thread_pass s) in
  snd (acquire_thread_pass s) = false /\
  acquire_thread_trigger s' = true /\
  device s' = source w /\
  tasks s' id = (if finished (task w) then None else Some (task w)) /\
  events s' = events s1 ++ map (TaskEvent id) (log w)
              ++ (if finished (task w) then [AcquisitionStateChanged false] else []).
Proof.
  intros Hb Hsel Ht s1 w Hok Hexec. cbv zeta.
  assert (Ht1 : tasks s1 id = Some t).
  { destruct (suspend_tasks_only_suspends ids (set_trigger false s)) as [Tk _].
    specialize (Tk id). cbn [tasks set_trigger] in Tk. rewrite Ht in Tk.
    destruct Tk as [t' [A [_ U]]]. fold s1 in A. rewrite A. f_equal. apply U.
    pose proof (select_task_suspends_lower s id) as L. rewrite Hsel in L.
    exact (L eq_refl). }
  unfold acquire_thread_pass.
  change (select_task (set_trigger false s)) with (select_task s).
  rewrite Hsel. cbn [acquire_thread_break set_trigger]. rewrite Hb.
  unfold suspend_and_execute.
  destruct (suspend_tasks ids (set_trigger false s)) as [s1' [[] | e1]] eqn:Es;
    cbn [fst snd] in *; [| discriminate].
  subst s1. rewrite Ht1.
  pose proof (run_task_task id t execute s1') as T2.
  pose proof (run_task_events id t execute s1') as E2.
  pose proof (run_task_result id t execute s1') as R2.
  assert (D2 : device (fst (run_task id t execute s1')) = source w).
  { unfold run_task. subst w. destruct (execute _) as [w0 r0]. reflexivity. }
  fold w in T2, E2. rewrite Hexec in R2.
  destruct (run_task id t execute s1') as [s2 r2]. cbn [fst snd] in *. subst r2.
  unfold remove_if_finished. rewrite T2.
  destruct (finished (task w));
    cbn [fst snd tasks events device set_trigger set_tasks fire_source
         acquire_thread_trigger].
  - rewrite update_same, E2, <- app_assoc. repeat split; assumption.
  - rewrite T2, E2, app_nil_r. repeat split; assumption.
Qed.

(** X16.  Aborting the view.  A view task is installed and unfinished, no
    record task is installed and the hooks of the hardware source return.
    After [abort_playing] and one pass of the worker the view slot is empty:
    the task has fired its data-changed notification with the empty list
    and its finished notification, and nothing else of its own, and the
    worker has announced that acquisition stopped. *)
Theorem abort_playing_vacates_view_slot (s : HardwareSourceState B)
    (t : AcquisitionTask) :
  acquire_thread_break s = false ->
  tasks s record = None -> tasks s view = Some t ->
  hardware_source t = true -> finished t = false ->
  returns start_acquisition -> returns suspend_acquisition ->
  returns resume_acquisition -> returns abort_acquisition ->
  returns mark_acquisition -> returns stop_acquisition ->
  let s2 := fst (acquire_thread_pass (fst (abort_playing s))) in
  is_playing s2 = false /\
  exists l,
    events s2
      = events s ++ [AbortEvent] ++ l
        ++ [TaskEvent view (DataElementsChanged [] (is_continuous t) (view_id t)
                                                false (is_stopping t));
            TaskEvent view FinishedEvent;
            AcquisitionStateChanged false] /\
    forall e, In e l -> is_task_notification e = false.
Proof.
  intros Hb Hrec Hview Hhs Hfin Rstart Rsuspend Rresume Rabort Rmark Rstop. cbv zeta.
  assert (E1 : fst (abort_playing s)
               = {| hardware_source_id := hardware_source_id s;
                    tasks := update view (Some (set_aborted true t)) (tasks s);
                    acquire_thread_break := acquire_thread_break s;
                    acquire_thread_trigger := acquire_thread_trigger s;
                    device := device s;
                    events := events s ++ [AbortEvent] |}).
  { unfold abort_playing, is_playing, is_task_running, abort_task. rewrite Hview.
    unfold run_task, abort, modify_task, fire_source. cbn. rewrite app_nil_r.
    reflexivity. }
  rewrite E1. clear E1.
  match goal with |- context [acquire_thread_pass ?x] => set (s1 := x) end.
  assert (Hb1 : acquire_thread_break s1 = false) by exact Hb.
  assert (Hsel : select_task s1 = (Some view, [idle])).
  { unfold select_task, is_task_running. subst s1. cbn [tasks].
    rewrite update_same. rewrite (update_other view record) by discriminate.
    rewrite Hrec. destruct (update view (Some (set_aborted true t)) (tasks s) idle);
      reflexivity. }
  assert (Ht1 : tasks s1 view = Some (set_aborted true t))
    by (subst s1; cbn [tasks]; apply update_same).
  pose proof (suspend_tasks_returns [idle] (set_trigger false s1) Rsuspend) as Hok.
  set (sa := fst (suspend_tasks [idle] (set_trigger false s1))) in *.
  set (w0 := {| task := set_aborted true t; source := device sa; log := [] |}).
  destruct (execute_aborted_finishes w0 Hhs Hfin eq_refl
              Rstart Rresume Rabort Rmark Rstop) as [Rx [Fx [l [Lx Nx]]]].
  destruct (pass_executes s1 view [idle] (set_aborted true t) Hb1 Hsel Ht1 Hok Rx)
    as [_ [_ [_ [Tp Ep]]]].
  fold sa in Tp, Ep. fold w0 in Tp, Ep. rewrite Fx in Tp, Ep.
  split; [unfold is_playing, is_task_running; rewrite Tp; reflexivity |].
  destruct (suspend_tasks_only_suspends [idle] (set_trigger false s1))
    as [_ [[evs [Ee Ne]] _]].
  fold sa in Ee. cbn [events set_trigger] in Ee.
  exists (evs ++ map (TaskEvent view) l). split.
  - rewrite Ep, Ee, Lx. subst s1. cbn [events log w0 task set_aborted is_continuous
                                        view_id is_stopping app].
    rewrite !map_app. cbn [map]. rewrite <- !app_assoc. reflexivity.
  - intros e He. apply in_app_or in He. destruct He as [He | He].
    + exact (proj1 (Ne e He)).
    + apply in_map_iff in He. destruct He as [x [<- Hx]]. exact (Nx x Hx).
Qed.

Lemma stop_and_finish_returns (w : world B) (b' : B) :
  hardware_source (task w) = true ->
  stop_acquisition (source w) = (b', Ok tt) ->
  try_except (_stop_acquisition ;; __mark_as_finished)
             (fun e => __mark_as_finished ;; raise e) w
  = ({| task := set_finished true (set_data_elements None (task w));
        source := b';
        log := log w ++ [Call stop_hook;
                         DataElementsChanged [] (is_continuous (task w))
                           (view_id (task w)) false (is_stopping (task w));
                         FinishedEvent] |}, Ok tt).
Proof.
  intros Hhs Hstop.
  unfold try_except, _stop_acquisition, __mark_as_finished, bind, get_task,
    modify_task, call_hook, fire. cbn. rewrite Hhs. cbn. rewrite Hstop. cbn.
  rewrite <- !app_assoc. reflexivity.
Qed.

(** X17.  Stopping the view at the frame boundary.  A started, running view
    task is the only task installed.  After [stop_playing], whose mark hook
    returns, the next pass of the worker acquires once more and announces
    the merged delivery with the stopping flag set.  If the delivery does
    not complete the frame, the view stays installed and buffers the merged
    elements; if it completes the frame (and the stop hook returns), the
    stop hook is called, the task fires its two final notifications, the
    slot is emptied and the worker announces that acquisition stopped. *)
Theorem stop_playing_finishes_at_frame_boundary (s : HardwareSourceState B)
    (t : AcquisitionTask) (b1 b2 b3 : B) (delivered merged : list DataElement) :
  acquire_thread_break s = false ->
  tasks s record = None -> tasks s idle = None -> tasks s view = Some t ->
  hardware_source t = true -> started t = true -> is_suspended t = false ->
  finished t = false -> aborted t = false ->
  mark_acquisition (device s) = (b1, Ok tt) ->
  acquire_data_elements b1 = (b2, Ok (Some delivered)) ->
  merge (data_elements t) (map (setdefault_frame_index (frame_index t)) delivered)
    = Ok merged ->
  stop_acquisition b2 = (b3, Ok tt) ->
  let s2 := fst (acquire_thread_pass (fst (stop_playing s))) in
  let announced :=
    [TaskEvent view (Call mark_hook); TaskEvent view (Call acquire_hook);
     TaskEvent view (DataElementsChanged merged (is_continuous t) (view_id t)
                                         (all_complete merged) true)] in
  if all_complete merged then
    is_playing s2 = false /\
    events s2 = events s ++ announced
                ++ [TaskEvent view (Call stop_hook);
                    TaskEvent view (DataElementsChanged [] (is_continuous t)
                                      (view_id t) false true);
                    TaskEvent view FinishedEvent;
                    AcquisitionStateChanged false]
  else
    tasks s2 view = Some (set_data_elements (Some merged) (set_is_stopping true t)) /\
    events s2 = events s ++ announced.
Proof.
  intros Hb Hrec Hidle Hview Hhs Hst Hsus Hfin Hab Emark Eacq Emerge Estop. cbv zeta.
  assert (E1 : fst (stop_playing s)
               = {| hardware_source_id := hardware_source_id s;
                    tasks := update view (Some (set_is_stopping true t)) (tasks s);
                    acquire_thread_break := acquire_thread_break s;
                    acquire_thread_trigger := acquire_thread_trigger s;
                    device := b1;
                    events := events s ++ [TaskEvent view (Call mark_hook)] |}).
  { unfold stop_playing, is_playing, is_task_running, stop_task. rewrite Hview.
    unfold run_task, stop, _mark_acquisition, bind, get_task, modify_task, call_hook.
    cbn. rewrite Hhs. cbn. rewrite Emark. reflexivity. }
  rewrite E1. clear E1.
  match goal with |- context [acquire_thread_pass ?x] => set (s1 := x) end.
  assert (Hb1 : acquire_thread_break s1 = false) by exact Hb.
  assert (Hsel : select_task s1 = (Some view, [idle])).
  { unfold select_task, is_task_running. subst s1. cbn [tasks].
    rewrite update_same. rewrite (update_other view record) by discriminate.
    rewrite Hrec. reflexivity. }
  assert (Ht1 : tasks s1 view = Some (set_is_stopping true t))
    by (subst s1; cbn [tasks]; apply update_same).
  assert (Es : suspend_tasks [idle] (set_trigger false s1) = (set_trigger false s1, Ok tt)).
  { cbn [suspend_tasks tasks set_trigger]. subst s1. cbn [tasks].
    rewrite (update_other view idle) by discriminate. rewrite Hidle. reflexivity. }
  set (w1 := {| task := set_is_stopping true t; source := b1; log := [] |}).
  assert (Ex : execute w1
               = if all_complete merged
                 then ({| task := set_finished true
                                    (set_data_elements None
                                       (set_frame_index (frame_index t + 1)
                                          (set_is_stopping true t)));
                          source := b3;
                          log := [Call acquire_hook;
                                  DataElementsChanged merged (is_continuous t)
                                    (view_id t) true true;
                                  Call stop_hook;
                                  DataElementsChanged [] (is_continuous t)
                                    (view_id t) false true;
                                  FinishedEvent] |}, Ok tt)
                 else ({| task := set_data_elements (Some merged)
                                    (set_is_stopping true t);
                          source := b2;
                          log := [Call acquire_hook;
                                  DataElementsChanged merged (is_continuous t)
                                    (view_id t) false true] |}, Ok tt)).
  { assert (E0 : execute w1 = step_unless_finished w1).
    { unfold execute. unfold bind at 1.
      rewrite (start_if_needed_started w1 Hst). unfold bind.
      rewrite (resume_if_suspended_running w1 Hsus). reflexivity. }
    rewrite E0.
    pose proof (acquire_delivered w1 b2 delivered Hhs Eacq) as Ea.
    cbv zeta in Ea. cbn [task w1 data_elements frame_index set_is_stopping] in Ea.
    rewrite Emerge in Ea.
    rewrite (step_after_acquire w1 _ _ Hfin Hab Ea).
    destruct (all_complete merged).
    - cbn [andb orb task is_stopping set_frame_index set_is_stopping].
      erewrite stop_and_finish_returns; [| exact Hhs | exact Estop].
      reflexivity.
    - reflexivity. }
  assert (Rx : snd (execute w1) = Ok tt)
    by (rewrite Ex; destruct (all_complete merged); reflexivity).
  pose proof (pass_executes s1 view [idle] (set_is_stopping true t) Hb1 Hsel Ht1) as P.
  cbv zeta in P. rewrite Es in P. cbn [fst snd device set_trigger] in P.
  replace (device s1) with b1 in P by reflexivity. fold w1 in P.
  destruct (P eq_refl Rx) as [_ [_ [_ [Tp Ep]]]]. clear P.
  rewrite Ex in Tp, Ep. cbn [events set_trigger] in Ep.
  destruct (all_complete merged); cbn [fst task log finished set_finished
    set_data_elements set_is_stopping map app] in Tp, Ep.
  - split; [unfold is_playing, is_task_running; rewrite Tp; reflexivity |].
    rewrite Ep. subst s1. cbn [events]. rewrite <- !app_assoc. reflexivity.
  - rewrite Hfin in Tp, Ep. split; [exact Tp |].
    rewrite Ep. subst s1. cbn [events]. rewrite <- ?app_assoc, ?app_nil_r.
    reflexivity.
Qed.

(** *** Starting the view *)

Lemma start_playing_idle (s : HardwareSourceState B) :
  tasks s view = None ->
  fst (start_playing s)
    = {| hardware_source_id := hardware_source_id s;
         tasks := update view
                    (Some (AcquisitionTask_init true (hardware_source_id s) "" true))
                    (tasks s);
         acquire_thread_break := acquire_thread_break s;
         acquire_thread_trigger := true;
         device := device s;
         events := events s ++ [AcquisitionStateChanged true] |}.
Proof.
  intros Hview. unfold start_playing, is_playing, start_task, is_task_running.
  rewrite Hview. reflexivity.
Qed.

(** X18.  The first frame of a view.  On a hardware source with no task
    installed, [start_playing] installs a continuous task and wakes the
    worker.  In the next pass the start hook is called and, when it reports
    success, one acquisition follows: what is delivered is announced as
    continuous data under the id of the hardware source, stamped with frame
    index 0 where the hardware source supplied none.  The view stays
    installed, and its frame index is 1 if the delivery was complete and 0
    if not. *)
Theorem first_frame_of_view (s : HardwareSourceState B) (b1 b2 : B)
    (delivered : list DataElement) :
  acquire_thread_break s = false ->
  (forall k, tasks s k = None) ->
  start_acquisition (device s) = (b1, Ok true) ->
  acquire_data_elements b1 = (b2, Ok (Some delivered)) ->
  let s1 := fst (start_playing s) in
  let s2 := fst (acquire_thread_pass s1) in
  let announced := map (setdefault_frame_index 0) delivered in
  acquire_thread_trigger s1 = true /\
  events s2 = events s
              ++ [AcquisitionStateChanged true;
                  TaskEvent view (Call start_hook);
                  TaskEvent view (Call acquire_hook);
                  TaskEvent view (DataElementsChanged announced true
                                    (hardware_source_id s)
                                    (all_complete announced) false)] /\
  exists t, tasks s2 view = Some t /\
            started t = true /\ finished t = false /\
            frame_index t = (if all_complete announced then 1 else 0) /\
            data_elements t = (if all_complete announced then None else Some announced).
Proof.
  intros Hb Hnone Estart Eacq. cbv zeta.
  rewrite (start_playing_idle s (Hnone view)).
  match goal with |- context [acquire_thread_pass ?x] => set (s1 := x) end.
  split; [reflexivity |].
  set (t0 := AcquisitionTask_init true (hardware_source_id s) "" true).
  assert (Hb1 : acquire_thread_break s1 = false) by exact Hb.
  assert (Hsel : select_task s1 = (Some view, [idle])).
  { unfold select_task, is_task_running. subst s1. cbn [tasks].
    rewrite update_same. rewrite (update_other view record) by discriminate.
    rewrite (Hnone record). reflexivity. }
  assert (Ht1 : tasks s1 view = Some t0) by (subst s1; cbn [tasks]; apply update_same).
  assert (Es : suspend_tasks [idle] (set_trigger false s1) = (set_trigger false s1, Ok tt)).
  { cbn [suspend_tasks tasks set_trigger]. subst s1. cbn [tasks].
    rewrite (update_other view idle) by discriminate. rewrite (Hnone idle).
    reflexivity. }
  set (w0 := {| task := t0; source := device s; log := [] |}).
  set (announced := map (setdefault_frame_index 0) delivered).
  assert (Ex : execute w0
               = ({| task := if all_complete announced
                             then set_frame_index 1 (set_started true t0)
                             else set_data_elements (Some announced)
                                    (set_started true t0);
                     source := b2;
                     log := [Call start_hook; Call acquire_hook;
                             DataElementsChanged announced true (hardware_source_id s)
                               (all_complete announced) false] |}, Ok tt)).
  { set (w1 := {| task := set_started true t0; source := b1;
                  log := [Call start_hook] |}).
    assert (E0 : execute w0 = step_unless_finished w1).
    { unfold execute. unfold bind at 1.
      assert (E00 : start_if_needed w0 = (w1, Ok tt)).
      { unfold start_if_needed, try_except, __start, _start_acquisition, bind,
          get_task, modify_task, call_hook, ret. cbn. rewrite Estart. reflexivity. }
      rewrite E00. unfold bind.
      rewrite (resume_if_suspended_running w1 eq_refl). reflexivity. }
    rewrite E0.
    pose proof (acquire_delivered w1 b2 delivered eq_refl Eacq) as Ea.
    cbv zeta in Ea. cbn [task w1 t0 data_elements frame_index set_started
                         AcquisitionTask_init merge] in Ea.
    fold announced in Ea.
    rewrite (step_after_acquire w1 _ _ eq_refl eq_refl Ea).
    cbn [task]. destruct (all_complete announced); reflexivity. }
  pose proof (pass_executes s1 view [idle] t0 Hb1 Hsel Ht1) as P.
  cbv zeta in P. rewrite Es in P. cbn [fst snd device set_trigger] in P.
  replace (device s1) with (device s) in P by reflexivity. fold w0 in P.
  rewrite Ex in P. destruct (P eq_refl eq_refl) as [_ [_ [_ [Tp Ep]]]]. clear P.
  cbn [fst task log events set_trigger] in Tp, Ep.
  assert (Hunf : finished (if all_complete announced
                           then set_frame_index 1 (set_started true t0)
                           else set_data_elements (Some announced)
                                  (set_started true t0)) = false)
    by (destruct (all_complete announced); reflexivity).
  rewrite Hunf in Tp, Ep. split.
  - rewrite Ep. subst s1. cbn [events map]. rewrite <- !app_assoc, app_nil_r.
    reflexivity.
  - eexists. split; [exact Tp |].
    destruct (all_complete announced); repeat split.
Qed.

End WorkerProperties.

(** * Properties of the manager *)

Lemma mem_In (x : string) (l : list string) : mem x l = true <-> In x l.
Proof.
  induction l as [| y l IH]; cbn.
  - split; [discriminate | intros []].
  - rewrite orb_true_iff, IH. destruct (String.eqb_spec x y); split.
    + intros _. left. congruence.
    + intros _. left. reflexivity.
    + intros [H | H]; [discriminate | right; exact H].
    + intros [H | H]; [congruence | right; exact H].
Qed.

Lemma dict_get_key (k : string) (d : alias_dict) (v : string * string) :
  dict_get k d = Some v -> In k (dict_keys d).
Proof.
  induction d as [| [k' v'] d IH]; cbn; [discriminate |].
  destruct (String.eqb_spec k k'); [intros _; left; congruence | right; auto].
Qed.

Lemma dict_get_set_same (k : string) (v : string * string) (d : alias_dict) :
  dict_get k (dict_set k v d) = Some v.
Proof.
  induction d as [| [k' v'] d IH]; cbn.
  - rewrite String.eqb_refl. reflexivity.
  - destruct (String.eqb_spec k k') as [-> | Hne]; cbn.
    + rewrite String.eqb_refl. reflexivity.
    + destruct (String.eqb_spec k k'); [contradiction | exact IH].
Qed.

Lemma dict_get_set_other (k k0 : string) (v : string * string) (d : alias_dict) :
  k0 <> k -> dict_get k0 (dict_set k v d) = dict_get k0 d.
Proof.
  intros Hne. induction d as [| [k' v'] d IH]; cbn.
  - destruct (String.eqb_spec k0 k); [contradiction | reflexivity].
  - destruct (String.eqb_spec k k') as [-> | Hk]; cbn.
    + destruct (String.eqb_spec k0 k'); [contradiction | reflexivity].
    + destruct (String.eqb_spec k0 k'); [reflexivity | exact IH].
Qed.

Lemma dict_set_length (k : string) (v : string * string) (d : alias_dict) :
  (1 <= List.length (dict_set k v d))%nat.
Proof. destruct d as [| [k' v'] d]; cbn; [| destruct (String.eqb k k'); cbn]; lia. Qed.

(** The loop is left before the fuel runs out when there is at least as
    much fuel as keys not seen yet, and then more fuel changes nothing. *)
Lemma follow_aliases_enough (fuel extra : nat) (d : alias_dict) (id name : string)
    (seen : list string) :
  NoDup seen -> incl seen (dict_keys d) ->
  (List.length (dict_keys d) <= fuel + List.length seen)%nat ->
  (exists r, follow_aliases fuel d id name seen = Some r) /\
  follow_aliases (fuel + extra) d id name seen = follow_aliases fuel d id name seen.
Proof.
  revert id name seen. induction fuel as [| fuel IH]; intros id name seen Hnd Hincl Hlen.
  - cbn [follow_aliases Nat.add].
    destruct (dict_get id d) as [[target name'] |] eqn:Eg.
    + destruct (mem id seen) eqn:Em.
      * split; [eauto |]. destruct extra; cbn; rewrite Eg, Em; reflexivity.
      * exfalso.
        assert (Hnd' : NoDup (id :: seen)).
        { constructor; [| exact Hnd]. intros Hin. apply mem_In in Hin. congruence. }
        assert (Hincl' : incl (id :: seen) (dict_keys d)).
        { intros x [<- | Hx]; [exact (dict_get_key _ _ _ Eg) | exact (Hincl x Hx)]. }
        pose proof (NoDup_incl_length Hnd' Hincl') as L. cbn in L. lia.
    + split; [eauto |]. destruct extra; cbn; rewrite Eg; reflexivity.
  - cbn [follow_aliases Nat.add].
    destruct (dict_get id d) as [[target name'] |] eqn:Eg; [| split; eauto].
    destruct (mem id seen) eqn:Em; [split; eauto |].
    apply IH.
    + apply NoDup_app; [exact Hnd | repeat constructor; intros [] |].
      intros x Hx [<- | []]. apply mem_In in Hx. congruence.
    + intros x Hx. apply in_app_or in Hx. destruct Hx as [Hx | [<- | []]];
        [exact (Hincl x Hx) | exact (dict_get_key _ _ _ Eg)].
    + rewrite length_app. cbn. lia.
Qed.

(** X19.  Alias resolution terminates.  Whatever the aliases are, cyclic
    ones included, the loop that follows them is left after at most as many
    turns as there are entries in the alias dict: the lookup gives a result
    with that many turns, and allowing more turns does not change it. *)
Theorem follow_aliases_terminates (m : HardwareSourceManager)
    (hardware_source_id : string) (extra : nat) :
  (exists r, follow_aliases (List.length (aliases m)) (aliases m)
               hardware_source_id "" [] = Some r) /\
  follow_aliases (List.length (aliases m) + extra) (aliases m)
    hardware_source_id "" []
  = follow_aliases (List.length (aliases m)) (aliases m) hardware_source_id "" [].
Proof.
  apply follow_aliases_enough.
  - constructor.
  - intros x [].
  - unfold dict_keys. rewrite length_map. cbn. lia.
Qed.

(** X20.  Looking up through an alias.  After
    [make_instrument_alias target alias name], where [target] is not itself
    an alias and differs from [alias], looking up [alias] gives the first
    registered hardware source whose id is [target], with [name] as display
    name, and None when there is none; this is also what looking up
    [target] itself gives, up to the display name. *)
Theorem alias_resolves_to_target (m : HardwareSourceManager)
    (target alias name : string) :
  dict_get target (aliases m) = None -> alias <> target ->
  let m' := make_instrument_alias target alias name m in
  get_info_for_hardware_source_id alias m'
    = match find_hardware_source target (hardware_sources m) with
      | Some h => Some (h, name)
      | None => None
      end /\
  get_hardware_source_for_hardware_source_id alias m'
    = find_hardware_source target (hardware_sources m) /\
  get_hardware_source_for_hardware_source_id target m'
    = find_hardware_source target (hardware_sources m).
Proof.
  intros Ht Hne. cbv zeta.
  assert (Et : dict_get target (dict_set alias (target, name) (aliases m)) = None).
  { rewrite dict_get_set_other by congruence. exact Ht. }
  assert (E1 : follow_aliases (List.length (dict_set alias (target, name) (aliases m)))
                 (dict_set alias (target, name) (aliases m)) alias "" []
               = Some (target, name)).
  { pose proof (dict_set_length alias (target, name) (aliases m)) as L.
    destruct (List.length (dict_set alias (target, name) (aliases m))) as [| n];
      [lia |].
    cbn [follow_aliases mem]. rewrite dict_get_set_same.
    destruct n; cbn [follow_aliases]; rewrite Et; reflexivity. }
  assert (E2 : follow_aliases (List.length (dict_set alias (target, name) (aliases m)))
                 (dict_set alias (target, name) (aliases m)) target "" []
               = Some (target, ""%string)).
  { destruct (List.length (dict_set alias (target, name) (aliases m)));
      cbn [follow_aliases]; rewrite Et; reflexivity. }
  unfold get_hardware_source_for_hardware_source_id, get_info_for_hardware_source_id,
    make_instrument_alias. cbn [aliases hardware_sources]. rewrite E1, E2.
  destruct (find_hardware_source target (hardware_sources m)); repeat split.
Qed.

Lemma same_object_refl (h : HardwareSourceObject) : same_object h h = true.
Proof. unfold same_object. now rewrite Nat.eqb_refl, !String.eqb_refl. Qed.

Lemma same_object_id (a b : HardwareSourceObject) :
  same_object a b = true -> object_hardware_source_id a = object_hardware_source_id b.
Proof.
  unfold same_object. rewrite !andb_true_iff. intros [[_ H] _].
  apply String.eqb_eq. exact H.
Qed.

Lemma find_none_remove (h : HardwareSourceObject) (l : list HardwareSourceObject) :
  find_hardware_source (object_hardware_source_id h) l = None ->
  list_remove h l = None /\ list_remove h (l ++ [h]) = Some l /\
  find_hardware_source (object_hardware_source_id h) (l ++ [h]) = Some h.
Proof.
  induction l as [| x l IH]; cbn.
  - intros _. rewrite same_object_refl, String.eqb_refl. repeat split.
  - destruct (String.eqb_spec (object_hardware_source_id x) (object_hardware_source_id h))
      as [E | Hne]; [discriminate |].
    intros Hf. destruct (IH Hf) as [R1 [R2 R3]].
    destruct (same_object x h) eqn:Es.
    + apply same_object_id in Es. contradiction.
    + rewrite R1, R2, R3. repeat split.
Qed.

(** X21.  Registering and unregistering.  For a hardware source whose id is
    neither an alias nor the id of a registered source: once registered it
    is what a lookup of its id gives; unregistering it then restores the
    list of registered sources, after which the lookup gives None; and
    unregistering it without having registered it raises ValueError. *)
Theorem register_unregister_round_trip (m : HardwareSourceManager)
    (h : HardwareSourceObject) :
  dict_get (object_hardware_source_id h) (aliases m) = None ->
  find_hardware_source (object_hardware_source_id h) (hardware_sources m) = None ->
  get_hardware_source_for_hardware_source_id (object_hardware_source_id h)
    (register_hardware_source h m) = Some h /\
  (exists m',
     unregister_hardware_source h (register_hardware_source h m) = Ok m' /\
     hardware_sources m' = hardware_sources m /\
     aliases m' = aliases m /\
     get_hardware_source_for_hardware_source_id (object_hardware_source_id h) m'
       = None) /\
  unregister_hardware_source h m = Raise ValueError.
Proof.
  intros Ha Hf. destruct (find_none_remove h (hardware_sources m) Hf) as [R1 [R2 R3]].
  assert (E : forall n, follow_aliases n (aliases m) (object_hardware_source_id h) "" []
                        = Some (object_hardware_source_id h, ""%string)).
  { intros n. destruct n; cbn [follow_aliases]; rewrite Ha; reflexivity. }
  split; [| split].
  - unfold get_hardware_source_for_hardware_source_id, get_info_for_hardware_source_id,
      register_hardware_source. cbn [aliases hardware_sources]. rewrite E, R3.
    reflexivity.
  - unfold unregister_hardware_source, register_hardware_source.
    cbn [hardware_sources aliases manager_log]. rewrite R2.
    eexists. split; [reflexivity |]. cbn [hardware_sources aliases].
    repeat split.
    unfold get_hardware_source_for_hardware_source_id, get_info_for_hardware_source_id.
    cbn [aliases hardware_sources]. rewrite E, Hf. reflexivity.
  - unfold unregister_hardware_source. rewrite R1. reflexivity.
Qed.

(** * Witnesses *)

Lemma obliging_suspend_returns :
  returns (@suspend_acquisition _ (ScriptedHardwareSource obliging)).
Proof. intros b. exists b, true. reflexivity. Defined.

Lemma suspended_before_start_is_started_then_resumed_witness :
  is_suspended (task (fst (@execute _ (ScriptedHardwareSource obliging)
                             suspended_before_start))) = false /\
  started (task (fst (@execute _ (ScriptedHardwareSource obliging)
                        suspended_before_start))) = true.
Proof.
  destruct (@suspended_before_start_is_started_then_resumed _
              (ScriptedHardwareSource obliging) suspended_before_start _ _ _ _
              eq_refl eq_refl eq_refl eq_refl eq_refl eq_refl eq_refl eq_refl)
    as [S [T _]].
  split; [exact S | exact T].
Defined.

Lemma worker_runs_highest_priority_only_witness :
  exists t',
    tasks (fst (@acquire_thread_pass _ (ScriptedHardwareSource obliging)
                  (recording_over_view buffered_band whole_frame))) view = Some t' /\
    suspended_version (task (mid_frame buffered_band whole_frame)) t'.
Proof.
  refine (proj1 (@worker_runs_highest_priority_only _ (ScriptedHardwareSource obliging)
                   (recording_over_view buffered_band whole_frame))
            view _ eq_refl _).
  intros H. discriminate H.
Defined.

Lemma recording_over_view_unfinished :
  no_finished_task (recording_over_view buffered_band whole_frame).
Proof.
  intros k t. destruct k; cbn; intros H; try discriminate H;
    injection H as <-; reflexivity.
Defined.

Lemma no_finished_task_stays_installed_witness :
  no_finished_task
    (fst (@acquire_thread_pass _ (ScriptedHardwareSource obliging)
            (recording_over_view buffered_band whole_frame))).
Proof.
  exact (proj1 (@no_finished_task_stays_installed _ (ScriptedHardwareSource obliging)
                  (recording_over_view buffered_band whole_frame) "5a1e"
                  recording_over_view_unfinished)).
Defined.

Lemma worker_leaves_on_break_witness :
  snd (@acquire_thread_pass _ (ScriptedHardwareSource obliging)
         (set_break true (playing buffered_band whole_frame))) = true /\
  device (fst (@acquire_thread_pass _ (ScriptedHardwareSource obliging)
                 (set_break true (playing buffered_band whole_frame))))
    = [Ok (Some [whole_frame])].
Proof.
  destruct (@worker_leaves_on_break _ (ScriptedHardwareSource obliging)
              (set_break true (playing buffered_band whole_frame)) eq_refl)
    as [t [_ E]].
  rewrite E. split; reflexivity.
Defined.

Lemma exception_in_pass_removes_task_witness :
  tasks (fst (@acquire_thread_pass _ (ScriptedHardwareSource obliging)
                (playing buffered_band
                   (band (frame 16 20 2) ((12, 0), (4, 20)) "partial")))) view
    = None.
Proof.
  exact (proj1 (proj2
           (@exception_in_pass_removes_task _ (ScriptedHardwareSource obliging)
              (playing buffered_band
                 (band (frame 16 20 2) ((12, 0), (4, 20)) "partial"))
              view [idle] _ AssertionError
              eq_refl eq_refl eq_refl eq_refl eq_refl eq_refl))).
Defined.

Lemma abort_playing_vacates_view_slot_witness :
  is_playing
    (fst (@acquire_thread_pass _ (ScriptedHardwareSource obliging)
            (fst (abort_playing (playing buffered_band whole_frame))))) = false.
Proof.
  exact (proj1
           (@abort_playing_vacates_view_slot _ (ScriptedHardwareSource obliging)
              (playing buffered_band whole_frame) _
              eq_refl eq_refl eq_refl eq_refl eq_refl
              obliging_start_returns obliging_suspend_returns
              (proj2 (proj2 (proj2 obliging_returns)))
              (proj1 obliging_returns)
              (proj1 (proj2 obliging_returns))
              (proj1 (proj2 (proj2 obliging_returns))))).
Defined.

Lemma stop_playing_finishes_at_frame_boundary_witness :
  is_playing
    (fst (@acquire_thread_pass _ (ScriptedHardwareSource obliging)
            (fst (@stop_playing _ (ScriptedHardwareSource obliging)
                    (playing buffered_band next_band))))) = false /\
  is_playing
    (fst (@acquire_thread_pass _ (ScriptedHardwareSource obliging)
            (fst (@stop_playing _ (ScriptedHardwareSource obliging)
                    (playing buffered_band middle_band))))) = true.
Proof.
  split.
  - exact (proj1
             (@stop_playing_finishes_at_frame_boundary _
                (ScriptedHardwareSource obliging)
                (playing buffered_band next_band) _ _ _ _ [next_band] _
                eq_refl eq_refl eq_refl eq_refl eq_refl eq_refl eq_refl eq_refl
                eq_refl eq_refl eq_refl eq_refl eq_refl)).
  - pose proof
      (@stop_playing_finishes_at_frame_boundary _ (ScriptedHardwareSource obliging)
         (playing buffered_band middle_band) _ _ _ [] [middle_band] _
         eq_refl eq_refl eq_refl eq_refl eq_refl eq_refl eq_refl eq_refl
         eq_refl eq_refl eq_refl eq_refl eq_refl) as H.
    destruct H as [H _]. unfold is_playing, is_task_running. rewrite H. reflexivity.
Defined.

Lemma first_frame_of_view_witness :
  exists t,
    tasks (fst (@acquire_thread_pass _ (ScriptedHardwareSource obliging)
                  (fst (start_playing
                          (HardwareSource_init "source" [Ok (Some [whole_frame])])))))
          view = Some t /\
    frame_index t = 1.
Proof.
  destruct (@first_frame_of_view _ (ScriptedHardwareSource obliging)
              (HardwareSource_init "source" [Ok (Some [whole_frame])])
              _ _ [whole_frame] eq_refl (fun _ => eq_refl) eq_refl eq_refl)
    as [_ [_ [t [Ht [_ [_ [Hi _]]]]]]].
  exists t. split; [exact Ht | exact Hi].
Defined.

Lemma alias_resolves_to_target_witness :
  get_hardware_source_for_hardware_source_id "testalias"
    (make_instrument_alias "simple_hardware_source" "testalias" "Test1"
       (register_hardware_source simple_hardware_source HardwareSourceManager_init))
    = Some simple_hardware_source.
Proof.
  refine (proj1 (proj2
            (alias_resolves_to_target
               (register_hardware_source simple_hardware_source
                  HardwareSourceManager_init)
               "simple_hardware_source" "testalias" "Test1" eq_refl _))).
  intros H. discriminate H.
Defined.

Lemma register_unregister_round_trip_witness :
  get_hardware_source_for_hardware_source_id "simple_hardware_source"
    (register_hardware_source simple_hardware_source HardwareSourceManager_init)
    = Some simple_hardware_source /\
  unregister_hardware_source simple_hardware_source HardwareSourceManager_init
    = Raise ValueError.
Proof.
  destruct (register_unregister_round_trip HardwareSourceManager_init
              simple_hardware_source eq_refl eq_refl) as [A [_ C]].
  split; [exact A | exact C].
Defined.
